(** * Regulation ingestion core: a shallow embedding and its verified properties

    The development follows the Python sources module by module:
    - [PyStr]     the [str] operations the code relies on ([strip], [lower],
                  [in], [find], slicing);
    - [Rules]     [app/refdata/rules.py];
    - [Chunking]  [app/services/chunking.py];
    - [Sha256], [Json]  [hashlib.sha256] and [json.dumps] as the code calls them;
    - [Store]     the relational tables the services read and write;
    - [Audit], [Registry], [Evidence], [Ingestion]  the services;
    - [Storage], [Loader], [Pipeline]  the reads of the object store,
                  [app/refdata/loader.py] and the page map of
                  [app/services/canonical_pipeline.py].

    A Python [str] is modelled by [string]: a sequence of code points below
    256 (Latin-1), one [ascii] per code point.  Integers are [Z]. *)

From Stdlib Require Import List ZArith Lia Bool Ascii String Arith PeanoNat.
From Stdlib Require Import DecimalString RelationClasses Relations.
From Stdlib Require Sorted Permutation.
Import ListNotations.

Local Open Scope string_scope.

(* ------------------------------------------------------------------ *)
(** ** Python [str] operations *)

Module PyStr.

(** [c.isspace()] for a code point below 256. *)
Definition isspace (c : ascii) : bool :=
  let n := nat_of_ascii c in
  (((9 <=? n) && (n <=? 13)) || ((28 <=? n) && (n <=? 32))
   || (n =? 133) || (n =? 160))%nat.

(** [c.lower()] for a code point below 256: A-Z and the Latin-1 capitals
    (U+00C0..U+00DE but the multiplication sign U+00D7) move up by 32. *)
Definition lower_char (c : ascii) : ascii :=
  let n := nat_of_ascii c in
  if (((65 <=? n) && (n <=? 90))
      || ((192 <=? n) && (n <=? 222) && negb (n =? 215)))%nat
  then ascii_of_nat (n + 32) else c.

Fixpoint lower (s : string) : string :=
  match s with
  | EmptyString => EmptyString
  | String c s' => String (lower_char c) (lower s')
  end.

Fixpoint lstrip (s : string) : string :=
  match s with
  | EmptyString => EmptyString
  | String c s' => if isspace c then lstrip s' else s
  end.

Fixpoint rstrip (s : string) : string :=
  match s with
  | EmptyString => EmptyString
  | String c s' =>
      match rstrip s' with
      | EmptyString => if isspace c then EmptyString else String c EmptyString
      | r => String c r
      end
  end.

(** [s.strip()] *)
Definition strip (s : string) : string := rstrip (lstrip s).

(** Truth value of a [str]: non-empty. *)
Definition truthy (s : string) : bool :=
  match s with EmptyString => false | String _ _ => true end.

(** Truth value of an [Optional[str]]. *)
Definition truthy_opt (o : option string) : bool :=
  match o with None => false | Some s => truthy s end.

(** [x or ""] *)
Definition or_empty (o : option string) : string :=
  match o with
  | Some (String c s) => String c s
  | _ => EmptyString
  end.

(** [s.startswith(p)] *)
Fixpoint startswith (s p : string) {struct p} : bool :=
  match p, s with
  | EmptyString, _ => true
  | String _ _, EmptyString => false
  | String a p', String b s' => Ascii.eqb a b && startswith s' p'
  end.

(** [k in s] *)
Fixpoint contains (s k : string) : bool :=
  startswith s k
  || match s with
     | EmptyString => false
     | String _ s' => contains s' k
     end.

(** [sep.join(parts)] *)
Fixpoint join (sep : string) (parts : list string) : string :=
  match parts with
  | [] => EmptyString
  | [p] => p
  | p :: rest => p ++ sep ++ join sep rest
  end.

(** All characters of [s] satisfy [p]. *)
Fixpoint all_chars (p : ascii -> bool) (s : string) : bool :=
  match s with
  | EmptyString => true
  | String c s' => p c && all_chars p s'
  end.

(** Facts *)

Lemma append_nil_r (s : string) : s ++ "" = s.
Proof. induction s as [|c s IH]; simpl; [reflexivity | now rewrite IH]. Qed.

Lemma append_assoc (a b c : string) : (a ++ b) ++ c = a ++ (b ++ c).
Proof. induction a as [|x a IH]; simpl; [reflexivity | now rewrite IH]. Qed.

Lemma startswith_spec (s p : string) :
  startswith s p = true <-> exists post, s = p ++ post.
Proof.
  revert s; induction p as [|a p IH]; intros s; simpl.
  - split; [intros _; now exists s | reflexivity].
  - destruct s as [|b s].
    + split; [discriminate | intros [post H]; discriminate].
    + rewrite andb_true_iff, Ascii.eqb_eq, IH. split.
      * intros [-> [post ->]]. now exists post.
      * intros [post H]. injection H as -> ->. split; [reflexivity | now exists post].
Qed.

(** [k in s] holds exactly when [k] occurs as a contiguous substring. *)
Lemma contains_spec (s k : string) :
  contains s k = true <-> exists pre post, s = pre ++ k ++ post.
Proof.
  induction s as [|c s IH].
  - cbn [contains]. rewrite orb_false_r, startswith_spec. split.
    + intros [post H]. now exists "", post.
    + intros [pre [post H]]. destruct pre; [| discriminate].
      now exists post.
  - cbn [contains]. rewrite orb_true_iff, startswith_spec, IH. split.
    + intros [[post H] | [pre [post H]]].
      * now exists "", post.
      * exists (String c pre), post. simpl. now rewrite H.
    + intros [pre [post H]]. destruct pre as [|x pre].
      * left. now exists post.
      * right. simpl in H. injection H as _ H. now exists pre, post.
Qed.

Lemma lstrip_empty_iff (s : string) :
  lstrip s = "" <-> all_chars isspace s = true.
Proof.
  induction s as [|c s IH]; simpl.
  - tauto.
  - destruct (isspace c); simpl; [exact IH |].
    split; discriminate.
Qed.

Lemma rstrip_empty_iff (s : string) :
  rstrip s = "" <-> all_chars isspace s = true.
Proof.
  induction s as [|c s IH]; simpl.
  - tauto.
  - destruct (rstrip s) eqn:E.
    + destruct (isspace c); simpl.
      * split; [intros _; now apply IH | reflexivity].
      * split; discriminate.
    + split; [discriminate |].
      rewrite andb_true_iff. intros [_ H]. apply IH in H. discriminate.
Qed.

Lemma all_chars_lstrip (p : ascii -> bool) (s : string) :
  all_chars p s = true -> all_chars p (lstrip s) = true.
Proof.
  induction s as [|c s IH]; simpl; [reflexivity |].
  rewrite andb_true_iff. intros [Hc Hs].
  destruct (isspace c); [now apply IH | simpl; now rewrite Hc, Hs].
Qed.

Lemma lstrip_all_space (s : string) :
  all_chars isspace (lstrip s) = true -> all_chars isspace s = true.
Proof.
  induction s as [|c s IH]; simpl; [reflexivity |].
  destruct (isspace c) eqn:E; simpl; [exact IH |].
  now rewrite E.
Qed.

(** [s.strip()] is empty exactly when [s] is whitespace only (the empty
    string included). *)
Lemma strip_empty_iff (s : string) :
  strip s = "" <-> all_chars isspace s = true.
Proof.
  unfold strip. rewrite rstrip_empty_iff. split.
  - apply lstrip_all_space.
  - apply all_chars_lstrip.
Qed.

Lemma truthy_false_iff (s : string) : truthy s = false <-> s = "".
Proof. destruct s; simpl; split; congruence. Qed.

Lemma or_empty_some (s : string) : or_empty (Some s) = s.
Proof. now destruct s. Qed.

End PyStr.

(* ------------------------------------------------------------------ *)
(** ** [app/refdata/rules.py] *)

Module Rules.
Import PyStr.

(** A value held by the upload metadata dictionary. *)
Inductive pyval : Type :=
| PNone
| PStr (s : string)
| PInt (z : Z).

(** [fastapi.HTTPException] as raised by the services: the exception
    carries a status code and a detail text; the constructor records
    which [raise] it comes from, with the values formatted into it. *)
Inductive http_exception : Type :=
| MissingRequiredFields (missing : list string)
| PdfTooLarge (max_mb : Z)
| PrimaryAxisMismatch (stored provided : string)
| InvalidStatus (status : string)
| ParentVersionNotFound
| ParentVersionWrongDocument.

Definition status_code (e : http_exception) : Z :=
  match e with
  | MissingRequiredFields _ => 400
  | PdfTooLarge _ => 400
  | PrimaryAxisMismatch _ _ => 400
  | InvalidStatus _ => 400
  | ParentVersionNotFound => 400
  | ParentVersionWrongDocument => 400
  end.

(** [v in (None, "", [])] for a metadata value *)
Definition is_blank_value (v : pyval) : bool :=
  match v with
  | PNone => true
  | PStr EmptyString => true
  | _ => false
  end.

(** The active rule document: [rule_json]. *)
Record rule_json : Type := {
  required_fields : option (list string);
  max_pdf_mb : option Z
}.

(** [enforce_upload_rules(ref_rules, request_payload)]; the payload is
    given by its [get]. *)
Definition enforce_upload_rules (ref_rules : rule_json)
    (payload_get : string -> pyval) : http_exception + unit :=
  let required := match required_fields ref_rules with
                  | Some l => l
                  | None => []
                  end in
  let missing := filter (fun f => is_blank_value (payload_get f)) required in
  match missing with
  | [] => inr tt
  | _ :: _ => inl (MissingRequiredFields missing)
  end.

Definition product_keywords : list string :=
  ["battery"; "batteries"; "aluminium"; "cement clinker"; "steel";
   "fertilizer"; "hydrogen"].

Definition theme_keywords : list string :=
  ["disclosure"; "reporting"; "framework"; "standard"; "taxonomy";
   "csrd"; "esrs"].

(** [any(k in hay for k in keywords)] *)
Definition any_keyword (hay : string) (keywords : list string) : bool :=
  existsb (fun k => contains hay k) keywords.

(** [" ".join([(title or ""), (regulation_family or ""), (instrument_type or "")]).lower()] *)
Definition haystack (title regulation_family instrument_type : option string)
  : string :=
  lower (join " " [or_empty title; or_empty regulation_family;
                   or_empty instrument_type]).

(** [jurisdiction and jurisdiction.strip()] as a condition *)
Definition jurisdiction_given (jurisdiction : option string) : bool :=
  match jurisdiction with
  | None => false
  | Some j => truthy j && truthy (strip j)
  end.

Definition derive_primary_axis_deterministic
    (jurisdiction title regulation_family instrument_type : option string)
  : string * string :=
  if jurisdiction_given jurisdiction then
    ("jurisdiction", "DETERMINISTIC_RULE")
  else
    let hay := haystack title regulation_family instrument_type in
    if any_keyword hay product_keywords then
      ("product_scope", "DETERMINISTIC_RULE")
    else if any_keyword hay theme_keywords then
      ("theme", "DETERMINISTIC_RULE")
    else
      ("theme", "DETERMINISTIC_RULE").

(** The rule as the specification words it, for comparison: the keywords
    are looked up in the lowercased concatenation of the three fields. *)
Definition haystack_concatenation
    (title regulation_family instrument_type : option string) : string :=
  lower (or_empty title ++ or_empty regulation_family
         ++ or_empty instrument_type).

Definition derive_primary_axis_as_worded
    (jurisdiction title regulation_family instrument_type : option string)
  : string * string :=
  if jurisdiction_given jurisdiction then
    ("jurisdiction", "DETERMINISTIC_RULE")
  else
    let hay := haystack_concatenation title regulation_family
                 instrument_type in
    if any_keyword hay product_keywords then
      ("product_scope", "DETERMINISTIC_RULE")
    else if any_keyword hay theme_keywords then
      ("theme", "DETERMINISTIC_RULE")
    else
      ("theme", "DETERMINISTIC_RULE").

(** Facts *)

Lemma jurisdiction_given_spec (jurisdiction : option string) :
  jurisdiction_given jurisdiction = true
  <-> exists j, jurisdiction = Some j /\ strip j <> "".
Proof.
  destruct jurisdiction as [j|]; simpl.
  - rewrite andb_true_iff. split.
    + intros [_ H]. exists j. split; [reflexivity |].
      intros E. rewrite E in H. discriminate.
    + intros [j' [[= <-] H]]. split.
      * destruct j; [now elim H | reflexivity].
      * destruct (strip j); [now elim H | reflexivity].
  - split; [discriminate | intros [j [H _]]; discriminate].
Qed.

Lemma any_keyword_spec (hay : string) (keywords : list string) :
  any_keyword hay keywords = true
  <-> exists k pre post, In k keywords /\ hay = pre ++ k ++ post.
Proof.
  unfold any_keyword. rewrite existsb_exists. split.
  - intros [k [Hin H]]. apply contains_spec in H as [pre [post H]].
    now exists k, pre, post.
  - intros [k [pre [post [Hin H]]]]. exists k. split; [exact Hin |].
    apply contains_spec. now exists pre, post.
Qed.

Lemma haystack_unfold (t f i : option string) :
  haystack t f i = lower (or_empty t ++ " " ++ or_empty f ++ " " ++ or_empty i).
Proof. reflexivity. Qed.

Example derive_eu : derive_primary_axis_deterministic
    (Some "EU") (Some "EU CBAM") (Some "carbon") (Some "regulation")
  = ("jurisdiction", "DETERMINISTIC_RULE").
Proof. reflexivity. Qed.

Example derive_blank_jurisdiction_steel : derive_primary_axis_deterministic
    (Some "  ") (Some "Green STEEL act") None None
  = ("product_scope", "DETERMINISTIC_RULE").
Proof. reflexivity. Qed.

Example derive_cement_clinker_across_fields : derive_primary_axis_deterministic
    None (Some "Cement") (Some "Clinker") None
  = ("product_scope", "DETERMINISTIC_RULE").
Proof. reflexivity. Qed.

(** C2 (as the code has it): the derivation returns, by precedence,
    "jurisdiction" when the jurisdiction is present and not blank; otherwise
    "product_scope" when a product keyword occurs in the lowercased text made
    of title, regulation_family and instrument_type joined by single spaces;
    otherwise "theme", whether a theme keyword occurs or not.  The second
    component is "DETERMINISTIC_RULE" on every input. *)
Theorem derive_primary_axis_precedence
    (jurisdiction title regulation_family instrument_type : option string) :
  let hay := lower (or_empty title ++ " " ++ or_empty regulation_family
                    ++ " " ++ or_empty instrument_type) in
  let present := exists j, jurisdiction = Some j /\ strip j <> "" in
  let occurs keywords :=
    exists k pre post, In k keywords /\ hay = pre ++ k ++ post in
  let r := derive_primary_axis_deterministic jurisdiction title
             regulation_family instrument_type in
  snd r = "DETERMINISTIC_RULE"
  /\ (present -> fst r = "jurisdiction")
  /\ (~ present -> occurs product_keywords -> fst r = "product_scope")
  /\ (~ present -> ~ occurs product_keywords -> occurs theme_keywords ->
      fst r = "theme")
  /\ (~ present -> ~ occurs product_keywords -> ~ occurs theme_keywords ->
      fst r = "theme").
Proof.
  intros hay present occurs r.
  assert (Hj := jurisdiction_given_spec jurisdiction).
  assert (Hp := any_keyword_spec hay product_keywords).
  assert (Ht := any_keyword_spec hay theme_keywords).
  fold present in Hj. fold (occurs product_keywords) in Hp.
  fold (occurs theme_keywords) in Ht.
  subst r. unfold derive_primary_axis_deterministic.
  rewrite haystack_unfold. fold hay.
  destruct (jurisdiction_given jurisdiction).
  - repeat split; try reflexivity; intros Hn; elim Hn; now apply Hj.
  - destruct (any_keyword hay product_keywords).
    + repeat split; try reflexivity.
      * intros H. apply Hj in H. discriminate.
      * intros _ Hn. elim Hn. now apply Hp.
      * intros _ Hn. elim Hn. now apply Hp.
    + assert (Hnp : ~ occurs product_keywords)
        by (intros H; apply Hp in H; discriminate).
      destruct (any_keyword hay theme_keywords); repeat split;
        try reflexivity;
        try (intros H; apply Hj in H; discriminate);
        try (intros _ H; now elim Hnp).
Qed.

(** C2 (as worded): with the three fields concatenated without a
    separator the rule differs from the code.  For title "ste" and
    regulation_family "el" the concatenation holds the keyword "steel",
    while the text the code searches is "ste el " and the code answers
    "theme". *)
Lemma derive_primary_axis_concatenation_differs :
  any_keyword (haystack_concatenation (Some "ste") (Some "el") None)
    product_keywords = true
  /\ derive_primary_axis_as_worded None (Some "ste") (Some "el") None
     = ("product_scope", "DETERMINISTIC_RULE")
  /\ derive_primary_axis_deterministic None (Some "ste") (Some "el") None
     = ("theme", "DETERMINISTIC_RULE").
Proof. repeat split. Qed.

End Rules.

(* ------------------------------------------------------------------ *)
(** ** [hashlib.sha256(...).hexdigest()] and [str.encode("utf-8")] *)

Module Sha256.
Local Open Scope list_scope.
Local Open Scope Z_scope.

Definition bytes : Type := list Byte.byte.

Definition byte_val (b : Byte.byte) : Z := Z.of_N (Byte.to_N b).

Definition byte_of_Z (z : Z) : Byte.byte :=
  match Byte.of_N (Z.to_N (z mod 256)) with
  | Some b => b
  | None => Byte.x00
  end.

(** 32-bit words as [Z] reduced modulo 2^32. *)
Definition w32 (x : Z) : Z := x mod 4294967296.
Definition add32 (x y : Z) : Z := w32 (x + y).
Definition not32 (x : Z) : Z := Z.lxor x 4294967295.
Definition rotr (n x : Z) : Z :=
  Z.lor (Z.shiftr x n) (w32 (Z.shiftl x (32 - n))).

Definition Ch (x y z : Z) : Z :=
  Z.lxor (Z.land x y) (Z.land (not32 x) z).
Definition Maj (x y z : Z) : Z :=
  Z.lxor (Z.land x y) (Z.lxor (Z.land x z) (Z.land y z)).
Definition Sigma0 (x : Z) : Z :=
  Z.lxor (rotr 2 x) (Z.lxor (rotr 13 x) (rotr 22 x)).
Definition Sigma1 (x : Z) : Z :=
  Z.lxor (rotr 6 x) (Z.lxor (rotr 11 x) (rotr 25 x)).
Definition sigma0 (x : Z) : Z :=
  Z.lxor (rotr 7 x) (Z.lxor (rotr 18 x) (Z.shiftr x 3)).
Definition sigma1 (x : Z) : Z :=
  Z.lxor (rotr 17 x) (Z.lxor (rotr 19 x) (Z.shiftr x 10)).

(** The first 64 primes. *)
Definition primes : list Z :=
  let candidates := map Z.of_nat (seq 2 310) in
  filter (fun k => forallb (fun d => negb (k mod d =? 0) || (k <=? d))
                     candidates) candidates.

(** Integer cube root, one bit at a time from bit [bits - 1] down. *)
Fixpoint cube_root_bits (bits : nat) (n r : Z) : Z :=
  match bits with
  | O => r
  | S b =>
      let r' := r + 2 ^ Z.of_nat b in
      if r' * r' * r' <=? n then cube_root_bits b n r'
      else cube_root_bits b n r
  end.

(** The round constants: the first 32 bits of the fractional parts of
    the cube roots of the first 64 primes. *)
Definition K : list Z :=
  Eval vm_compute in
    map (fun p => w32 (cube_root_bits 40 (p * 2 ^ 96) 0)) primes.

(** The initial hash value: the first 32 bits of the fractional parts of
    the square roots of the first 8 primes. *)
Definition H0 : list Z :=
  Eval vm_compute in
    map (fun p => w32 (Z.sqrt (p * 2 ^ 64))) (firstn 8 primes).

(** Big-endian bytes of [x], [k] of them. *)
Fixpoint be_bytes (k : nat) (x : Z) : list Z :=
  match k with
  | O => []
  | S k' => (Z.shiftr x (8 * Z.of_nat k')) mod 256 :: be_bytes k' x
  end.

(** The message followed by the bit 1, zero bits up to 56 modulo 64
    bytes, and the bit length on eight bytes. *)
Definition pad (msg : list Z) : list Z :=
  let len := Z.of_nat (List.length msg) in
  let zeros := Z.to_nat ((55 - len) mod 64) in
  msg ++ [128] ++ repeat 0 zeros ++ be_bytes 8 (8 * len).

Fixpoint be_words (k : nat) (l : list Z) : list Z :=
  match k with
  | O => []
  | S k' =>
      match l with
      | a :: b :: c :: d :: rest =>
          (a * 16777216 + b * 65536 + c * 256 + d) :: be_words k' rest
      | _ => []
      end
  end.

(** The message schedule: [ws] holds W[0..t-1]; [k] more words follow. *)
Fixpoint schedule (k : nat) (ws : list Z) : list Z :=
  match k with
  | O => ws
  | S k' =>
      let t := List.length ws in
      let W i := nth (t - i) ws 0 in
      schedule k'
        (ws ++ [add32 (add32 (sigma1 (W 2%nat)) (W 7%nat))
                      (add32 (sigma0 (W 15%nat)) (W 16%nat))])
  end.

Definition regs : Type := (Z * Z * Z * Z * Z * Z * Z * Z)%type.

Definition round (r : regs) (kw : Z * Z) : regs :=
  let '(a, b, c, d, e, f, g, h) := r in
  let t1 := add32 (add32 (add32 h (Sigma1 e)) (add32 (Ch e f g) (fst kw)))
                  (snd kw) in
  let t2 := add32 (Sigma0 a) (Maj a b c) in
  (add32 t1 t2, a, b, c, add32 d t1, e, f, g).

Definition compress (h : regs) (block : list Z) : regs :=
  let ws := schedule 48 (be_words 16 block) in
  let '(a, b, c, d, e, f, g, hh) := fold_left round (combine K ws) h in
  let '(a0, b0, c0, d0, e0, f0, g0, h0) := h in
  (add32 a0 a, add32 b0 b, add32 c0 c, add32 d0 d,
   add32 e0 e, add32 f0 f, add32 g0 g, add32 h0 hh).

Fixpoint process (nblocks : nat) (h : regs) (l : list Z) : regs :=
  match nblocks with
  | O => h
  | S k => process k (compress h (firstn 64 l)) (skipn 64 l)
  end.

Definition digest_words (msg : list Z) : list Z :=
  let p := pad msg in
  let h i := nth i H0 0 in
  let init := (h 0%nat, h 1%nat, h 2%nat, h 3%nat,
               h 4%nat, h 5%nat, h 6%nat, h 7%nat) in
  let '(a, b, c, d, e, f, g, h) :=
    process (Nat.div (List.length p) 64) init p in
  [a; b; c; d; e; f; g; h].

Definition hex_digit (d : Z) : ascii :=
  if d <? 10 then ascii_of_N (Z.to_N (48 + d))
  else ascii_of_N (Z.to_N (87 + d)).

Fixpoint hex_of_bytes (l : list Z) : string :=
  match l with
  | [] => EmptyString
  | b :: rest =>
      String (hex_digit (b / 16)) (String (hex_digit (b mod 16))
                                          (hex_of_bytes rest))
  end.

(** [hashlib.sha256(b).hexdigest()] *)
Definition sha256_hex (b : bytes) : string :=
  hex_of_bytes (flat_map (be_bytes 4) (digest_words (map byte_val b))).

(** One code point below 256 in UTF-8. *)
Definition utf8_char (c : ascii) : bytes :=
  let n := Z.of_N (N_of_ascii c) in
  if n <? 128 then [byte_of_Z n]
  else [byte_of_Z (192 + n / 64); byte_of_Z (128 + n mod 64)].

(** [s.encode("utf-8")] *)
Fixpoint utf8 (s : string) : bytes :=
  match s with
  | EmptyString => []
  | String c s' => utf8_char c ++ utf8 s'
  end.

(** [hashlib.sha256(s.encode("utf-8")).hexdigest()], written [_sha256] in
    [audit.py] and [sha256_text] in [chunking.py]. *)
Definition sha256_text (s : string) : string := sha256_hex (utf8 s).

Example sha256_empty : sha256_text ""%string
  = "e3b0c44298fc1c149afbf4c8996fb92427ae41e4649b934ca495991b7852b855"%string.
Proof. vm_compute. reflexivity. Qed.

Example sha256_abc : sha256_text "abc"%string
  = "ba7816bf8f01cfea414140de5dae2223b00361a396177a9cb410ff61f20015ad"%string.
Proof. vm_compute. reflexivity. Qed.

Example sha256_two_blocks :
  sha256_text "abcdbcdecdefdefgefghfghighijhijkijkljklmklmnlmnomnopnopq"%string
  = "248d6a61d20638b8e5c026930c3e6039a33ce45964ff2167f6ecedd419db06c1"%string.
Proof. vm_compute. reflexivity. Qed.

End Sha256.

(* ------------------------------------------------------------------ *)
(** ** [json.dumps(obj, ensure_ascii=False, sort_keys=True, separators=(",", ":"))] *)

Module Json.
Import PyStr.
#[local] Set Warnings "-register-all".

(** A float is carried by the text [repr] gives it, which [json.dumps]
    emits as it is.  A [dict] is the list of its items. *)
Inductive json : Type :=
| JNull
| JBool (b : bool)
| JInt (z : Z)
| JFloat (repr : string)
| JStr (s : string)
| JList (items : list json)
| JDict (items : list (string * json)).

Definition dquote : ascii := ascii_of_nat 34.

Definition hex_digit (d : nat) : ascii :=
  if (d <? 10)%nat then ascii_of_nat (48 + d) else ascii_of_nat (87 + d).

(** The escapes of [json.encoder] when non-ASCII text is kept. *)
Definition escape_char (c : ascii) : string :=
  let n := nat_of_ascii c in
  if (n =? 34)%nat then String "\" (String dquote "")
  else if (n =? 92)%nat then "\\"
  else if (n =? 8)%nat then "\b"
  else if (n =? 9)%nat then "\t"
  else if (n =? 10)%nat then "\n"
  else if (n =? 12)%nat then "\f"
  else if (n =? 13)%nat then "\r"
  else if (n <? 32)%nat then
    "\u00" ++ String (hex_digit (n / 16)) (String (hex_digit (n mod 16)) "")
  else String c "".

Fixpoint escape (s : string) : string :=
  match s with
  | EmptyString => EmptyString
  | String c s' => escape_char c ++ escape s'
  end.

Definition dumps_str (s : string) : string :=
  String dquote (escape s ++ String dquote "").

Definition dumps_int (z : Z) : string :=
  DecimalString.NilZero.string_of_int (Z.to_int z).

(** Order of [str] keys: by code point, a proper prefix first. *)
Fixpoint str_leb (a b : string) : bool :=
  match a, b with
  | EmptyString, _ => true
  | String _ _, EmptyString => false
  | String x a', String y b' =>
      let nx := nat_of_ascii x in
      let ny := nat_of_ascii y in
      if (nx <? ny)%nat then true
      else if (ny <? nx)%nat then false
      else str_leb a' b'
  end.

Fixpoint insert_item (kv : string * string) (l : list (string * string))
  : list (string * string) :=
  match l with
  | [] => [kv]
  | kv' :: rest =>
      if str_leb (fst kv') (fst kv) then kv' :: insert_item kv rest
      else kv :: l
  end.

(** [sorted(items, key=...)]: stable. *)
Definition sort_items (l : list (string * string)) : list (string * string) :=
  fold_left (fun acc kv => insert_item kv acc) l [].

Definition dumps_item (kv : string * string) : string :=
  dumps_str (fst kv) ++ ":" ++ snd kv.

Fixpoint dumps (j : json) : string :=
  match j with
  | JNull => "null"
  | JBool true => "true"
  | JBool false => "false"
  | JInt z => dumps_int z
  | JFloat r => r
  | JStr s => dumps_str s
  | JList items => "[" ++ join "," (map dumps items) ++ "]"
  | JDict items =>
      "{" ++ join ","
               (map dumps_item
                  (sort_items
                     (map (fun kv => match kv with
                                     | (k, v) => (k, dumps v)
                                     end) items)))
      ++ "}"
  end.

(** [_stable_json] of [audit.py] *)
Definition _stable_json (obj : json) : string := dumps obj.

Definition of_opt_str (o : option string) : json :=
  match o with
  | None => JNull
  | Some s => JStr s
  end.

Definition of_pyval (v : Rules.pyval) : json :=
  match v with
  | Rules.PNone => JNull
  | Rules.PStr s => JStr s
  | Rules.PInt z => JInt z
  end.

Example dumps_sorted_compact :
  String.eqb
    (dumps (JDict [("b", JInt 1);
                   ("a", JList [JBool true; JNull; JInt (-3); JStr "x"]);
                   ("c", JDict [])]))
    ("{" ++ dumps_str "a" ++ ":[true,null,-3," ++ dumps_str "x" ++ "],"
         ++ dumps_str "b" ++ ":1," ++ dumps_str "c" ++ ":{}}") = true.
Proof. vm_compute. reflexivity. Qed.

Example escape_controls :
  escape (String (ascii_of_nat 10) (String (ascii_of_nat 11) "a\"))
  = "\n\u000ba\\".
Proof. vm_compute. reflexivity. Qed.

End Json.

(* ------------------------------------------------------------------ *)
(** ** [app/services/chunking.py] *)

Module Chunking.
Import PyStr.
Local Open Scope list_scope.
Local Open Scope Z_scope.

(** One entry of the page map.  The [bbox] entry, which the chunker never
    reads, is left out. *)
Module Page.
Record t : Type := { page : Z; start_char : Z; end_char : Z }.
End Page.

(** One emitted chunk. *)
Module Chunk.
Record t : Type := {
  start_char : Z;
  end_char : Z;
  page_start : Z;
  page_end : Z;
  text_sha256 : string
}.
End Chunk.

Record manifest : Type := {
  max_chars : Z;
  overlap_chars : Z;
  split : string;
  count : Z
}.

Definition covers (pos : Z) (p : Page.t) : bool :=
  (Page.start_char p <=? pos) && (pos <=? Page.end_char p).

Definition _page_for_offset (page_map : list Page.t) (pos : Z) : Z :=
  match List.find (covers pos) page_map with
  | Some p => Page.page p
  | None =>
      match rev page_map with
      | p :: _ => Page.page p
      | [] => 1
      end
  end.

(** [l[a:b]] with Python's treatment of negative and overlong indices. *)
Definition slice {A : Type} (l : list A) (a b : Z) : list A :=
  let n := Z.of_nat (List.length l) in
  let norm i := if i <? 0 then Z.max (i + n) 0 else Z.min i n in
  firstn (Z.to_nat (norm b - norm a)) (skipn (Z.to_nat (norm a)) l).

Fixpoint is_prefix (p l : list ascii) : bool :=
  match p, l with
  | [], _ => true
  | _ :: _, [] => false
  | a :: p', b :: l' => Ascii.eqb a b && is_prefix p' l'
  end.

(** Lowest index at or after [pos] where [sub] starts, [l] being the
    text from index [pos] on; -1 when there is none. *)
Fixpoint find_at (sub l : list ascii) (pos : Z) : Z :=
  if is_prefix sub l then pos
  else match l with
       | [] => -1
       | _ :: l' => find_at sub l' (pos + 1)
       end.

(** [text.find(sub, start)] *)
Definition find (text sub : list ascii) (start : Z) : Z :=
  let n := Z.of_nat (List.length text) in
  let s := if start <? 0 then Z.max (start + n) 0 else start in
  if n <? s then -1 else find_at sub (skipn (Z.to_nat s) text) s.

Definition newline : ascii := ascii_of_nat 10.
Definition paragraph_break : list ascii := [newline; newline].

Section Loops.

Variable stable_text : list ascii.
Variable page_map : list Page.t.
Variables max_len overlap : Z.

(** The closure [emit(start, end)]: the chunk list after the call. *)
Definition emit (chunks : list Chunk.t) (start end_ : Z) : list Chunk.t :=
  let text := string_of_list_ascii (slice stable_text start end_) in
  if negb (truthy (strip text)) then chunks
  else chunks ++ [{| Chunk.start_char := start;
                     Chunk.end_char := end_;
                     Chunk.page_start := _page_for_offset page_map start;
                     Chunk.page_end := _page_for_offset page_map
                                   (Z.max start (end_ - 1));
                     Chunk.text_sha256 := Sha256.sha256_text text |}].

(** [end if overlap == 0 else max(start + 1, end - overlap)] *)
Definition next_start (start end_ : Z) : Z :=
  if overlap =? 0 then end_ else Z.max (start + 1) (end_ - overlap).

(** [while start < para_end: ...] *)
Fixpoint paragraph_loop (fuel : nat) (chunks : list Chunk.t)
    (start para_end : Z) : option (list Chunk.t) :=
  if start <? para_end then
    match fuel with
    | O => None
    | S fuel' =>
        let end_ := Z.min (start + max_len) para_end in
        paragraph_loop fuel' (emit chunks start end_)
          (next_start start end_) para_end
    end
  else Some chunks.

(** [j = stable_text.find("\n\n", i); if j == -1: j = n; para_end = j] *)
Definition paragraph_end (i : Z) : Z :=
  let j := find stable_text paragraph_break i in
  if j =? -1 then Z.of_nat (List.length stable_text) else j.

(** [while i < n: ...]; each paragraph runs its own loop on [inner] fuel. *)
Fixpoint text_loop (inner fuel : nat) (chunks : list Chunk.t) (i : Z)
  : option (list Chunk.t) :=
  if i <? Z.of_nat (List.length stable_text) then
    match fuel with
    | O => None
    | S fuel' =>
        let para_end := paragraph_end i in
        match paragraph_loop inner chunks i para_end with
        | None => None
        | Some chunks' => text_loop inner fuel' chunks' (para_end + 2)
        end
    end
  else Some chunks.

End Loops.

(** [int(max_chars or self.max_chars)] *)
Definition effective_max_len (self_max_chars : Z) (max_chars : option Z) : Z :=
  match max_chars with
  | None => self_max_chars
  | Some m => if m =? 0 then self_max_chars else m
  end.

(** The clamped overlap. *)
Definition effective_overlap (max_len overlap_chars : Z) : Z :=
  let overlap := Z.max 0 overlap_chars in
  if 1 <? max_len then Z.min overlap (max_len - 1) else 0.

(** [SimpleDeterministicChunker.chunk] run with a bound on the number of
    iterations of each loop; [None] when the bound is reached. *)
Definition chunk_with_fuel (fuel : nat) (self_max_chars : Z)
    (stable_text : string) (page_map : list Page.t)
    (max_chars : option Z) (overlap_chars : Z)
  : option (list Chunk.t * manifest) :=
  let text := list_ascii_of_string stable_text in
  let max_len := effective_max_len self_max_chars max_chars in
  let overlap := effective_overlap max_len overlap_chars in
  match text_loop text page_map max_len overlap fuel fuel [] 0 with
  | None => None
  | Some chunks =>
      Some (chunks,
            {| max_chars := max_len;
               overlap_chars := overlap;
               split := "paragraph_then_hard";
               count := Z.of_nat (List.length chunks) |})
  end.

(** [SimpleDeterministicChunker.chunk]: as many iterations as the text has
    characters are allowed to each loop. *)
Definition chunk (self_max_chars : Z) (stable_text : string)
    (page_map : list Page.t) (max_chars : option Z) (overlap_chars : Z)
  : option (list Chunk.t * manifest) :=
  chunk_with_fuel (String.length stable_text) self_max_chars stable_text
    page_map max_chars overlap_chars.

(** The page map lists intervals that follow one another from [from] to
    [to]. *)
Fixpoint partitions (from : Z) (page_map : list Page.t) (to : Z) : bool :=
  match page_map with
  | [] => from =? to
  | p :: rest =>
      (Page.start_char p =? from) && (from <=? Page.end_char p)
      && partitions (Page.end_char p) rest to
  end.

(** Page numbers never decrease along the page map. *)
Fixpoint pages_in_order (page_map : list Page.t) : bool :=
  match page_map with
  | [] => true
  | p :: rest =>
      match rest with
      | [] => true
      | q :: _ => (Page.page p <=? Page.page q) && pages_in_order rest
      end
  end.

(** What C8 asks of a chunk of [text]. *)
Definition chunk_ok (text : list ascii) (c : Chunk.t) : Prop :=
  0 <= Chunk.start_char c
  /\ Chunk.start_char c < Chunk.end_char c
  /\ Chunk.end_char c <= Z.of_nat (List.length text)
  /\ Chunk.page_start c <= Chunk.page_end c
  /\ exists ch, In ch (slice text (Chunk.start_char c) (Chunk.end_char c))
                /\ isspace ch = false.

Definition str (s : string) : list ascii := list_ascii_of_string s.

Example chunk_two_paragraphs :
  option_map (fun r => map (fun c => (Chunk.start_char c, Chunk.end_char c,
                                      Chunk.page_start c, Chunk.page_end c))
                         (fst r))
    (chunk 1500
       (String "a" (String "b" (String newline (String newline "cde"))))
       [{| Page.page := 1; Page.start_char := 0; Page.end_char := 3 |};
        {| Page.page := 2; Page.start_char := 3; Page.end_char := 7 |}]
       (Some 2) 1)
  = Some [(0, 2, 1, 1); (1, 2, 1, 1); (4, 6, 2, 2); (5, 7, 2, 2);
          (6, 7, 2, 2)].
Proof. vm_compute. reflexivity. Qed.

(** Facts *)

Lemma length_str (s : string) :
  List.length (list_ascii_of_string s) = String.length s.
Proof. induction s as [|c s IH]; simpl; [reflexivity | now rewrite IH]. Qed.

Lemma all_chars_false_witness (l : list ascii) :
  all_chars isspace (string_of_list_ascii l) = false ->
  exists ch, In ch l /\ isspace ch = false.
Proof.
  induction l as [|c l IH]; simpl; [discriminate |].
  destruct (isspace c) eqn:E; simpl.
  - intros H. destruct (IH H) as [ch [Hin Hch]]. exists ch. auto.
  - intros _. exists c. auto.
Qed.

Lemma nonblank_has_char (l : list ascii) :
  truthy (strip (string_of_list_ascii l)) = true ->
  exists ch, In ch l /\ isspace ch = false.
Proof.
  intros H. apply all_chars_false_witness.
  destruct (all_chars isspace (string_of_list_ascii l)) eqn:E;
    [| reflexivity].
  apply strip_empty_iff in E. rewrite E in H. discriminate.
Qed.

Lemma find_at_bounds (sub l : list ascii) (pos : Z) :
  find_at sub l pos = -1
  \/ (pos <= find_at sub l pos <= pos + Z.of_nat (List.length l)).
Proof.
  revert pos; induction l as [|c l IH]; intros pos; simpl.
  - destruct (is_prefix sub []); [right; lia | now left].
  - destruct (is_prefix sub (c :: l)); [right; lia |].
    destruct (IH (pos + 1)) as [H | H]; [now left | right; lia].
Qed.

Lemma paragraph_end_bounds (text : list ascii) (i : Z) :
  0 <= i <= Z.of_nat (List.length text) ->
  i <= paragraph_end text i <= Z.of_nat (List.length text).
Proof.
  intros Hi. unfold paragraph_end, find.
  destruct (i <? 0) eqn:E0; [lia |].
  destruct (Z.of_nat (List.length text) <? i) eqn:E1; [lia |].
  simpl. pose proof (find_at_bounds paragraph_break
                       (skipn (Z.to_nat i) text) i) as H.
  rewrite length_skipn in H.
  destruct (find_at paragraph_break (skipn (Z.to_nat i) text) i =? -1) eqn:E2.
  - lia.
  - destruct H as [H | H]; lia.
Qed.

Lemma length_emit text page_map (chunks : list Chunk.t) (s e : Z) :
  (List.length (emit text page_map chunks s e) <= S (List.length chunks))%nat.
Proof.
  unfold emit. destruct (negb _); [lia |].
  rewrite length_app. simpl. lia.
Qed.

Lemma next_start_advances (overlap start end_ : Z) :
  start + 1 <= end_ -> start + 1 <= next_start overlap start end_.
Proof. intros H. unfold next_start. destruct (overlap =? 0); lia. Qed.

Section Runs.

Variable text : list ascii.
Variable page_map : list Page.t.
Variables max_len overlap : Z.
Variable Q : Chunk.t -> Prop.

Hypothesis max_len_pos : 1 <= max_len.
Hypothesis Q_emit : forall chunks s e,
  0 <= s -> s < e -> e <= Z.of_nat (List.length text) ->
  Forall Q chunks -> Forall Q (emit text page_map chunks s e).

(** The paragraph loop ends within [para_end - start] iterations, keeps
    what [emit] keeps and adds at most one chunk per character. *)
Lemma paragraph_loop_runs (fuel : nat) :
  forall chunks start para_end,
    0 <= start -> para_end <= Z.of_nat (List.length text) ->
    (Z.to_nat (para_end - start) <= fuel)%nat ->
    Forall Q chunks ->
    exists chunks',
      paragraph_loop text page_map max_len overlap fuel chunks start para_end
      = Some chunks'
      /\ Forall Q chunks'
      /\ Z.of_nat (List.length chunks')
         <= Z.of_nat (List.length chunks) + Z.max 0 (para_end - start).
Proof.
  induction fuel as [|fuel IH]; intros chunks start para_end H0 Hn Hf HQ;
    simpl; destruct (start <? para_end) eqn:E.
  - lia.
  - exists chunks. repeat split; [assumption | lia].
  - set (end_ := Z.min (start + max_len) para_end).
    assert (Hend : start + 1 <= end_) by (subst end_; lia).
    pose proof (next_start_advances overlap start end_ Hend) as Hadv.
    destruct (IH (emit text page_map chunks start end_)
                 (next_start overlap start end_) para_end)
      as [chunks' [Hrun [HQ' Hlen]]].
    + lia.
    + assumption.
    + lia.
    + apply Q_emit; [assumption | lia | subst end_; lia | assumption].
    + exists chunks'. repeat split; [assumption | assumption |].
      pose proof (length_emit text page_map chunks start end_). lia.
  - exists chunks. repeat split; [assumption | lia].
Qed.

(** The outer loop ends within [n - i] iterations. *)
Lemma text_loop_runs (inner : nat) :
  (List.length text <= inner)%nat ->
  forall fuel chunks i,
    0 <= i ->
    (Z.to_nat (Z.of_nat (List.length text) - i) <= fuel)%nat ->
    Forall Q chunks ->
    exists chunks',
      text_loop text page_map max_len overlap inner fuel chunks i
      = Some chunks'
      /\ Forall Q chunks'
      /\ Z.of_nat (List.length chunks')
         <= Z.of_nat (List.length chunks)
            + Z.max 0 (Z.of_nat (List.length text) - i).
Proof.
  intros Hinner. induction fuel as [|fuel IH]; intros chunks i H0 Hf HQ;
    simpl; destruct (i <? Z.of_nat (List.length text)) eqn:E.
  - lia.
  - exists chunks. repeat split; [assumption | lia].
  - pose proof (paragraph_end_bounds text i) as Hpe.
    destruct (paragraph_loop_runs inner chunks i (paragraph_end text i))
      as [chunks1 [Hrun1 [HQ1 Hlen1]]]; [lia | lia | lia | assumption |].
    rewrite Hrun1.
    destruct (IH chunks1 (paragraph_end text i + 2))
      as [chunks' [Hrun [HQ' Hlen]]]; [lia | lia | assumption |].
    exists chunks'. repeat split; [assumption | assumption | lia].
  - exists chunks. repeat split; [assumption | lia].
Qed.

End Runs.

Lemma pages_in_order_tail (p : Page.t) (rest : list Page.t) :
  pages_in_order (p :: rest) = true -> pages_in_order rest = true.
Proof.
  destruct rest as [|q rest]; [reflexivity |].
  cbn [pages_in_order]. rewrite andb_true_iff. tauto.
Qed.

Lemma pages_in_order_head (rest : list Page.t) :
  forall p, pages_in_order (p :: rest) = true ->
  forall q, In q rest -> Page.page p <= Page.page q.
Proof.
  induction rest as [|q0 rest IH]; intros p H q Hin; [destruct Hin |].
  cbn [pages_in_order] in H. apply andb_true_iff in H as [Hle Hrest].
  apply Z.leb_le in Hle. destruct Hin as [<- | Hin]; [assumption |].
  specialize (IH q0 Hrest q Hin). lia.
Qed.

Lemma find_covers_mono (page_map : list Page.t) (to pos1 pos2 : Z) :
  forall from,
    partitions from page_map to = true ->
    pages_in_order page_map = true ->
    from <= pos1 -> pos1 <= pos2 -> pos2 <= to ->
    forall p1 p2,
      List.find (covers pos1) page_map = Some p1 ->
      List.find (covers pos2) page_map = Some p2 ->
      Page.page p1 <= Page.page p2.
Proof.
  induction page_map as [|p rest IH]; intros from Hpart Hord H1 H12 H2 p1 p2;
    [discriminate |].
  cbn [partitions] in Hpart.
  apply andb_true_iff in Hpart as [Hpart Hrest].
  apply andb_true_iff in Hpart as [Hs He].
  apply Z.eqb_eq in Hs. apply Z.leb_le in He.
  cbn [List.find]. unfold covers at 1 3. rewrite Hs.
  destruct (pos2 <=? Page.end_char p) eqn:E2.
  - apply Z.leb_le in E2.
    replace (from <=? pos2) with true by (symmetry; apply Z.leb_le; lia).
    replace (from <=? pos1) with true by (symmetry; apply Z.leb_le; lia).
    replace (pos1 <=? Page.end_char p) with true
      by (symmetry; apply Z.leb_le; lia).
    simpl. intros [= <-] [= <-]. lia.
  - apply Z.leb_gt in E2. rewrite andb_false_r.
    intros Hf1 Hf2.
    destruct ((from <=? pos1) && (pos1 <=? Page.end_char p)) eqn:E1.
    + injection Hf1 as <-. apply find_some in Hf2 as [Hin _].
      now apply (pages_in_order_head rest p Hord).
    + assert (Page.end_char p < pos1).
      { apply andb_false_iff in E1 as [E1 | E1].
        - apply Z.leb_gt in E1. lia.
        - apply Z.leb_gt in E1. lia. }
      apply (IH (Page.end_char p)); try assumption; try lia.
      now apply pages_in_order_tail in Hord.
Qed.

Lemma find_covers_some (page_map : list Page.t) (to pos : Z) :
  forall from,
    partitions from page_map to = true ->
    page_map <> [] ->
    from <= pos -> pos <= to ->
    exists p, List.find (covers pos) page_map = Some p.
Proof.
  induction page_map as [|p rest IH]; intros from Hpart Hne H1 H2;
    [now elim Hne |].
  cbn [partitions] in Hpart.
  apply andb_true_iff in Hpart as [Hpart Hrest].
  apply andb_true_iff in Hpart as [Hs He].
  apply Z.eqb_eq in Hs. apply Z.leb_le in He.
  cbn [List.find]. unfold covers at 1. rewrite Hs.
  replace (from <=? pos) with true by (symmetry; apply Z.leb_le; lia).
  destruct (pos <=? Page.end_char p) eqn:E; simpl.
  - now exists p.
  - apply Z.leb_gt in E. apply (IH (Page.end_char p)); try assumption;
      try lia.
    intros ->. cbn [partitions] in Hrest. apply Z.eqb_eq in Hrest. lia.
Qed.

(** Over a page map that is in order and partitions [from, to], the page
    of an offset never decreases with the offset. *)
Lemma page_for_offset_mono (page_map : list Page.t) (from to pos1 pos2 : Z) :
  partitions from page_map to = true ->
  pages_in_order page_map = true ->
  from <= pos1 -> pos1 <= pos2 -> pos2 <= to ->
  _page_for_offset page_map pos1 <= _page_for_offset page_map pos2.
Proof.
  intros Hpart Hord H1 H12 H2.
  destruct page_map as [|p rest] eqn:Epm; [unfold _page_for_offset; simpl; lia |].
  rewrite <- Epm in *.
  assert (Hne : page_map <> []) by (rewrite Epm; discriminate).
  destruct (find_covers_some page_map to pos1 from Hpart Hne) as [p1 Hp1];
    [lia | lia |].
  destruct (find_covers_some page_map to pos2 from Hpart Hne) as [p2 Hp2];
    [lia | lia |].
  unfold _page_for_offset. rewrite Hp1, Hp2.
  now apply (find_covers_mono page_map to pos1 pos2 from).
Qed.

Lemma emit_keeps_chunk_ok (text : list ascii) (page_map : list Page.t) :
  partitions 0 page_map (Z.of_nat (List.length text)) = true ->
  pages_in_order page_map = true ->
  forall chunks s e,
    0 <= s -> s < e -> e <= Z.of_nat (List.length text) ->
    Forall (chunk_ok text) chunks ->
    Forall (chunk_ok text) (emit text page_map chunks s e).
Proof.
  intros Hpart Hord chunks s e H0 Hse Hn Hchunks. unfold emit.
  destruct (truthy (strip (string_of_list_ascii (slice text s e)))) eqn:E;
    simpl; [| assumption].
  apply Forall_app. split; [assumption |].
  constructor; [| constructor].
  unfold chunk_ok; simpl. repeat split; try lia.
  - apply (page_for_offset_mono page_map 0 (Z.of_nat (List.length text)));
      try assumption; lia.
  - now apply nonblank_has_char.
Qed.

Lemma paragraph_loop_more_fuel text page_map max_len overlap (fuel : nat) :
  forall fuel' chunks start para_end r,
    (fuel <= fuel')%nat ->
    paragraph_loop text page_map max_len overlap fuel chunks start para_end
    = Some r ->
    paragraph_loop text page_map max_len overlap fuel' chunks start para_end
    = Some r.
Proof.
  induction fuel as [|fuel IH]; intros fuel' chunks start para_end r Hle;
    simpl; destruct (start <? para_end) eqn:E; try discriminate.
  - intros H. destruct fuel'; simpl; now rewrite E.
  - destruct fuel' as [|fuel']; [lia |]. simpl. rewrite E.
    apply IH. lia.
  - intros H. destruct fuel'; simpl; now rewrite E.
Qed.

Lemma text_loop_more_fuel text page_map max_len overlap (inner inner' : nat) :
  (inner <= inner')%nat ->
  forall fuel fuel' chunks i r,
    (fuel <= fuel')%nat ->
    text_loop text page_map max_len overlap inner fuel chunks i = Some r ->
    text_loop text page_map max_len overlap inner' fuel' chunks i = Some r.
Proof.
  intros Hinner. induction fuel as [|fuel IH]; intros fuel' chunks i r Hle;
    simpl; destruct (i <? Z.of_nat (List.length text)) eqn:E;
    try discriminate.
  - intros H. destruct fuel'; simpl; now rewrite E.
  - destruct fuel' as [|fuel']; [lia |]. simpl. rewrite E.
    destruct (paragraph_loop text page_map max_len overlap inner chunks i
                (paragraph_end text i)) as [chunks1|] eqn:E1;
      [| discriminate].
    rewrite (paragraph_loop_more_fuel _ _ _ _ inner inner' _ _ _ _
               Hinner E1).
    apply IH. lia.
  - intros H. destruct fuel'; simpl; now rewrite E.
Qed.

(** With a positive [max_chars] the chunker returns, the bound on the
    iterations is never reached, the answer is the same under any larger
    bound, every property kept by [emit] holds of all chunks, and there
    are no more chunks than characters. *)
Lemma chunk_runs (Q : Chunk.t -> Prop) (self_max_chars : Z)
    (stable_text : string) (page_map : list Page.t) (m overlap_chars : Z) :
  1 <= m ->
  (forall chunks s e,
     0 <= s -> s < e -> e <= Z.of_nat (List.length (str stable_text)) ->
     Forall Q chunks ->
     Forall Q (emit (str stable_text) page_map chunks s e)) ->
  exists chunks mf,
    chunk self_max_chars stable_text page_map (Some m) overlap_chars
    = Some (chunks, mf)
    /\ (forall fuel, (String.length stable_text <= fuel)%nat ->
        chunk_with_fuel fuel self_max_chars stable_text page_map (Some m)
          overlap_chars = Some (chunks, mf))
    /\ Forall Q chunks
    /\ (List.length chunks <= String.length stable_text)%nat
    /\ count mf = Z.of_nat (List.length chunks).
Proof.
  intros Hm HQ.
  assert (Hmax : effective_max_len self_max_chars (Some m) = m).
  { unfold effective_max_len. destruct (m =? 0) eqn:E; [lia | reflexivity]. }
  set (n := String.length stable_text).
  destruct (text_loop_runs (str stable_text) page_map m
              (effective_overlap m overlap_chars) Q Hm HQ n
              ltac:(unfold str; rewrite length_str; subst n; lia)
              n [] 0)
    as [chunks [Hrun [HQc Hlen]]].
  - lia.
  - unfold str. rewrite length_str. subst n. lia.
  - constructor.
  - unfold str in Hlen. rewrite length_str in Hlen. simpl in Hlen.
    eexists chunks, _. split; [| split; [| split; [| split]]].
    + unfold chunk, chunk_with_fuel. rewrite Hmax. fold n.
      unfold str in Hrun. rewrite Hrun. reflexivity.
    + intros fuel Hfuel. unfold chunk_with_fuel. rewrite Hmax.
      unfold str in Hrun.
      rewrite (text_loop_more_fuel _ _ _ _ n fuel Hfuel n fuel [] 0 chunks
                 Hfuel Hrun).
      reflexivity.
    + assumption.
    + subst n. lia.
    + reflexivity.
Qed.

(** C8: for a page map that is in order and partitions the text, and a
    policy with max_chars at least 1 and any overlap, the chunker returns
    and every chunk it emits has start_char < end_char within the text,
    page_start <= page_end, and a text stable_text[start_char:end_char]
    holding a character that is not whitespace. *)
Theorem chunk_invariants (self_max_chars : Z) (stable_text : string)
    (page_map : list Page.t) (m overlap_chars : Z) :
  pages_in_order page_map = true ->
  partitions 0 page_map (Z.of_nat (String.length stable_text)) = true ->
  1 <= m ->
  exists chunks mf,
    chunk self_max_chars stable_text page_map (Some m) overlap_chars
    = Some (chunks, mf)
    /\ Forall (chunk_ok (str stable_text)) chunks.
Proof.
  intros Hord Hpart Hm.
  destruct (chunk_runs (chunk_ok (str stable_text)) self_max_chars
              stable_text page_map m overlap_chars Hm)
    as [chunks [mf [Hrun [_ [Hok _]]]]].
  - apply emit_keeps_chunk_ok; [| assumption].
    unfold str. now rewrite length_str.
  - now exists chunks, mf.
Qed.

(** C10: with max_chars at least 1 the chunker terminates on every text,
    page map and overlap: an iteration of the paragraph loop moves the
    cursor forward by at least one character, the outer loop moves i past
    the paragraph end, the run never reaches the bound of len(stable_text)
    iterations per loop (and gives the same answer under any larger bound),
    and it emits at most len(stable_text) chunks. *)
Theorem chunk_terminates (self_max_chars : Z) (stable_text : string)
    (page_map : list Page.t) (m overlap_chars : Z) :
  1 <= m ->
  let text := str stable_text in
  let max_len := effective_max_len self_max_chars (Some m) in
  let overlap := effective_overlap max_len overlap_chars in
  (forall start para_end, start < para_end ->
     let end_ := Z.min (start + max_len) para_end in
     start + 1 <= end_ /\ start + 1 <= next_start overlap start end_)
  /\ (forall i, 0 <= i <= Z.of_nat (List.length text) ->
      i <= paragraph_end text i /\ i < paragraph_end text i + 2)
  /\ exists chunks mf,
       chunk self_max_chars stable_text page_map (Some m) overlap_chars
       = Some (chunks, mf)
       /\ (forall fuel, (String.length stable_text <= fuel)%nat ->
           chunk_with_fuel fuel self_max_chars stable_text page_map
             (Some m) overlap_chars = Some (chunks, mf))
       /\ (List.length chunks <= String.length stable_text)%nat.
Proof.
  intros Hm text max_len overlap.
  assert (Hmax : max_len = m).
  { subst max_len. unfold effective_max_len.
    destruct (m =? 0) eqn:E; [lia | reflexivity]. }
  split; [| split].
  - intros start para_end Hlt end_.
    assert (start + 1 <= end_) by (subst end_; lia).
    split; [assumption | now apply next_start_advances].
  - intros i Hi. pose proof (paragraph_end_bounds text i Hi). lia.
  - destruct (chunk_runs (fun _ => True) self_max_chars stable_text
                page_map m overlap_chars Hm)
      as [chunks [mf [Hrun [Hfuel [_ [Hlen _]]]]]].
    + intros chunks s e _ _ _ _. apply Forall_forall. intros; exact I.
    + now exists chunks, mf.
Qed.

Definition sample_text : string :=
  String "a" (String "b" (String newline (String newline "cde"))).

Definition sample_page_map : list Page.t :=
  [{| Page.page := 1; Page.start_char := 0; Page.end_char := 3 |};
   {| Page.page := 2; Page.start_char := 3; Page.end_char := 7 |}].

Lemma chunk_invariants_witness :
  pages_in_order sample_page_map = true
  /\ partitions 0 sample_page_map (Z.of_nat (String.length sample_text))
     = true
  /\ 1 <= 2
  /\ exists chunks mf,
       chunk 1500 sample_text sample_page_map (Some 2) 1 = Some (chunks, mf)
       /\ Forall (chunk_ok (str sample_text)) chunks.
Proof.
  split; [reflexivity | split; [reflexivity | split; [lia |]]].
  apply (chunk_invariants 1500 sample_text sample_page_map 2 1);
    [reflexivity | reflexivity | lia].
Defined.

Lemma chunk_terminates_witness :
  1 <= 2
  /\ exists chunks mf,
       chunk 1500 sample_text sample_page_map (Some 2) 1 = Some (chunks, mf)
       /\ (List.length chunks <= String.length sample_text)%nat.
Proof.
  split; [lia |].
  destruct (chunk_terminates 1500 sample_text sample_page_map 2 1
              ltac:(lia)) as [_ [_ [chunks [mf [Hrun [_ Hlen]]]]]].
  now exists chunks, mf.
Defined.

End Chunking.

(* ------------------------------------------------------------------ *)
(** ** The relational store, the object store and the sources of
       identifiers and time

    The schema (the SQL migrations) is not among the sources; the rows
    below carry the columns the services read or write.  A table is the
    list of its rows in insertion order.  A column an INSERT leaves out is
    NULL ([None]) except the time stamps the queries order by
    ([created_at], [at]), which the schema fills with the time of the
    statement.  The connection is in autocommit mode: every statement is
    a transaction of its own, stamped with the current [clock], which
    then advances. *)

Module Store.

Definition timestamp : Type := nat.

Module Rule.
Record row : Type := {
  rule_key : string;
  rule_json : Rules.rule_json;
  is_active : bool
}.
End Rule.

Module Doc.
Record row : Type := {
  document_id : string;
  title : string;
  jurisdiction : string;
  regulation_family : string;
  instrument_type : string;
  primary_axis : option string;
  primary_axis_source : option string
}.
End Doc.

Module Ver.
Record row : Type := {
  version_id : string;
  document_id : string;
  version_label : option string;
  effective_date : option string;
  status : string;
  parent_version_id : option string;
  tenant_id : string;
  effective_year : Z;
  uploaded_by : string;
  raw_sha256 : string;
  file_id : option string;
  uploaded_at : option timestamp;
  updated_at : option timestamp;
  artifacts_json : option Json.json
}.
End Ver.

Module Ev.
Record row : Type := {
  file_id : string;
  version_id : string;
  sha256 : string;
  mime_type : string;
  size_bytes : Z;
  storage_uri : string;
  created_at : timestamp
}.
End Ev.

Module Aud.
Record row : Type := {
  event_id : string;
  at_ : timestamp;
  entity_type : string;
  entity_id : string;
  action : string;
  actor : string;
  correlation_id : string;
  details_json : Json.json;
  prev_event_hash : option string;
  event_hash : option string
}.
End Aud.

Module Sug.
Record row : Type := {
  suggestion_id : string;
  version_id : string;
  suggested_axis : string;
  model_name : string;
  model_version : string;
  confidence : string;
  details_json : Json.json;
  updated_at : option timestamp
}.
End Sug.

(** Everything a request reads or writes: the tables, the object store
    (key to bytes, with the prefix its URIs start with), the clock behind
    [now()], and the identifiers [uuid4()] hands out, [drawn] of them
    already used. *)
Record state : Type := {
  ref_rules : list Rule.row;
  documents : list Doc.row;
  document_versions : list Ver.row;
  evidence_files : list Ev.row;
  audit_log : list Aud.row;
  primary_axis_suggestions : list Sug.row;
  objects : list (string * Sha256.bytes);
  uri_prefix : string;
  clock : timestamp;
  uuids : nat -> string;
  drawn : nat
}.

Definition set_documents (l : list Doc.row) (st : state) : state :=
  {| ref_rules := ref_rules st; documents := l;
     document_versions := document_versions st;
     evidence_files := evidence_files st; audit_log := audit_log st;
     primary_axis_suggestions := primary_axis_suggestions st;
     objects := objects st; uri_prefix := uri_prefix st;
     clock := clock st; uuids := uuids st; drawn := drawn st |}.

Definition set_document_versions (l : list Ver.row) (st : state) : state :=
  {| ref_rules := ref_rules st; documents := documents st;
     document_versions := l;
     evidence_files := evidence_files st; audit_log := audit_log st;
     primary_axis_suggestions := primary_axis_suggestions st;
     objects := objects st; uri_prefix := uri_prefix st;
     clock := clock st; uuids := uuids st; drawn := drawn st |}.

Definition set_evidence_files (l : list Ev.row) (st : state) : state :=
  {| ref_rules := ref_rules st; documents := documents st;
     document_versions := document_versions st;
     evidence_files := l; audit_log := audit_log st;
     primary_axis_suggestions := primary_axis_suggestions st;
     objects := objects st; uri_prefix := uri_prefix st;
     clock := clock st; uuids := uuids st; drawn := drawn st |}.

Definition set_audit_log (l : list Aud.row) (st : state) : state :=
  {| ref_rules := ref_rules st; documents := documents st;
     document_versions := document_versions st;
     evidence_files := evidence_files st; audit_log := l;
     primary_axis_suggestions := primary_axis_suggestions st;
     objects := objects st; uri_prefix := uri_prefix st;
     clock := clock st; uuids := uuids st; drawn := drawn st |}.

Definition set_primary_axis_suggestions (l : list Sug.row) (st : state)
  : state :=
  {| ref_rules := ref_rules st; documents := documents st;
     document_versions := document_versions st;
     evidence_files := evidence_files st; audit_log := audit_log st;
     primary_axis_suggestions := l;
     objects := objects st; uri_prefix := uri_prefix st;
     clock := clock st; uuids := uuids st; drawn := drawn st |}.

Definition set_objects (l : list (string * Sha256.bytes)) (st : state)
  : state :=
  {| ref_rules := ref_rules st; documents := documents st;
     document_versions := document_versions st;
     evidence_files := evidence_files st; audit_log := audit_log st;
     primary_axis_suggestions := primary_axis_suggestions st;
     objects := l; uri_prefix := uri_prefix st;
     clock := clock st; uuids := uuids st; drawn := drawn st |}.

(** The end of a statement: time moves on. *)
Definition tick (st : state) : state :=
  {| ref_rules := ref_rules st; documents := documents st;
     document_versions := document_versions st;
     evidence_files := evidence_files st; audit_log := audit_log st;
     primary_axis_suggestions := primary_axis_suggestions st;
     objects := objects st; uri_prefix := uri_prefix st;
     clock := S (clock st); uuids := uuids st; drawn := drawn st |}.

Definition draw (st : state) : state :=
  {| ref_rules := ref_rules st; documents := documents st;
     document_versions := document_versions st;
     evidence_files := evidence_files st; audit_log := audit_log st;
     primary_axis_suggestions := primary_axis_suggestions st;
     objects := objects st; uri_prefix := uri_prefix st;
     clock := clock st; uuids := uuids st; drawn := S (drawn st) |}.

(** A call returns a value or raises; the store keeps what was written
    before the exception (nothing is rolled back). *)
Inductive outcome (A : Type) : Type :=
| Ok (a : A)
| Raise (e : Rules.http_exception).
Arguments Ok {A} a.
Arguments Raise {A} e.

Definition M (A : Type) : Type := state -> outcome A * state.

Definition ret {A : Type} (a : A) : M A := fun st => (Ok a, st).

Definition raise {A : Type} (e : Rules.http_exception) : M A :=
  fun st => (Raise e, st).

Definition bind {A B : Type} (c : M A) (k : A -> M B) : M B :=
  fun st =>
    match c st with
    | (Ok a, st') => k a st'
    | (Raise e, st') => (Raise e, st')
    end.

(** A query: reads the store, leaves it as it is. *)
Definition query {A : Type} (f : state -> A) : M A :=
  fun st => (Ok (f st), st).

(** A statement that writes: changes the store, then time moves on. *)
Definition execute (f : state -> state) : M unit :=
  fun st => (Ok tt, tick (f st)).

(** [str(uuid4())] *)
Definition uuid4 : M string :=
  fun st => (Ok (uuids st (drawn st)), draw st).

(** [ORDER BY key DESC]: a stable sort; NULL keys come first. *)
Definition key_geb (a b : option timestamp) : bool :=
  match a, b with
  | None, _ => true
  | Some _, None => false
  | Some x, Some y => (y <=? x)%nat
  end.

Fixpoint insert_desc {A : Type} (key : A -> option timestamp) (x : A)
    (l : list A) : list A :=
  match l with
  | [] => [x]
  | y :: l' =>
      if key_geb (key x) (key y) then x :: l else y :: insert_desc key x l'
  end.

Fixpoint order_by_desc {A : Type} (key : A -> option timestamp)
    (l : list A) : list A :=
  match l with
  | [] => []
  | x :: rest => insert_desc key x (order_by_desc key rest)
  end.

(** [StorageAdapter.put_bytes_write_once]: an existing key keeps its
    bytes; the URI is returned either way.  The store is a map from keys
    to bytes, as a bucket is; what [LocalStorage] makes of a key as a
    file path (a key that ends in a slash, a key below a key that is a
    file) is not modelled. *)
Definition put_bytes_write_once (key : string) (data : Sha256.bytes)
  : M string :=
  fun st =>
    let uri := uri_prefix st ++ key in
    if existsb (fun kv => String.eqb (fst kv) key) (objects st)
    then (Ok uri, st)
    else (Ok uri, set_objects (objects st ++ [(key, data)]) st).

Module MNotations.
Notation "x <- c ;; k" := (bind c (fun x => k))
  (at level 61, c at next level, right associativity).
Notation "c ;;; k" := (bind c (fun _ => k))
  (at level 61, right associativity).
End MNotations.

End Store.

(* ------------------------------------------------------------------ *)
(** ** [app/services/audit.py] *)

Module Audit.
Import Store Store.MNotations Json.

Definition same_entity (entity_type entity_id : string) (r : Aud.row)
  : bool :=
  String.eqb (Aud.entity_type r) entity_type
  && String.eqb (Aud.entity_id r) entity_id.

Definition has_hash (r : Aud.row) : bool :=
  match Aud.event_hash r with
  | Some _ => true
  | None => false
  end.

(** The rows [last_hash_for_entity] selects from, most recent first. *)
Definition chain_rows (entity_type entity_id : string) (log : list Aud.row)
  : list Aud.row :=
  order_by_desc (fun r => Some (Aud.at_ r))
    (filter (fun r => same_entity entity_type entity_id r && has_hash r)
       log).

Definition last_hash (entity_type entity_id : string) (log : list Aud.row)
  : option string :=
  match chain_rows entity_type entity_id log with
  | row :: _ => Aud.event_hash row
  | [] => None
  end.

Definition last_hash_for_entity (entity_type entity_id : string)
  : M (option string) :=
  query (fun st => last_hash entity_type entity_id (audit_log st)).

Definition payload (event_id entity_type entity_id action actor
    correlation_id : string) (details : json) (prev : option string)
  : json :=
  JDict [("event_id", JStr event_id);
         ("entity_type", JStr entity_type);
         ("entity_id", JStr entity_id);
         ("action", JStr action);
         ("actor", JStr actor);
         ("correlation_id", JStr correlation_id);
         ("details", details);
         ("prev_event_hash", of_opt_str prev)].

Definition write (entity_type entity_id action actor correlation_id : string)
    (details : json) (enable_hash_chain : bool) : M string :=
  event_id <- uuid4 ;;
  prev <- (if enable_hash_chain
           then last_hash_for_entity entity_type entity_id
           else ret None) ;;
  let event_hash :=
    if enable_hash_chain
    then Some (Sha256.sha256_text
                 (_stable_json
                    (payload event_id entity_type entity_id action actor
                       correlation_id details prev)))
    else None in
  execute (fun st =>
    set_audit_log
      (audit_log st ++
       [{| Aud.event_id := event_id;
           Aud.at_ := clock st;
           Aud.entity_type := entity_type;
           Aud.entity_id := entity_id;
           Aud.action := action;
           Aud.actor := actor;
           Aud.correlation_id := correlation_id;
           Aud.details_json := details;
           Aud.prev_event_hash := prev;
           Aud.event_hash := event_hash |}]) st) ;;;
  ret event_id.

End Audit.

(* ------------------------------------------------------------------ *)
(** ** [app/services/registry.py] *)

Module Registry.
Import Store Store.MNotations PyStr.

Definition ALLOWED_STATUSES : list string :=
  ["PENDING"; "ACTIVE"; "SUPERSEDED"; "FAILED"].

(** [SELECT * FROM documents WHERE title=%s AND ... LIMIT 1] *)
Definition document_with_metadata
    (title jurisdiction regulation_family instrument_type : string)
    (st : state) : option Doc.row :=
  List.find (fun d =>
    String.eqb (Doc.title d) title
    && String.eqb (Doc.jurisdiction d) jurisdiction
    && String.eqb (Doc.regulation_family d) regulation_family
    && String.eqb (Doc.instrument_type d) instrument_type)
    (documents st).

Definition find_document_by_metadata
    (title jurisdiction regulation_family instrument_type : string)
  : M (option Doc.row) :=
  query (document_with_metadata title jurisdiction regulation_family
           instrument_type).

(** [SELECT version_id, document_id FROM document_versions WHERE
    version_id=%s] *)
Definition version_with_id (version_id : option string) (st : state)
  : option Ver.row :=
  List.find (fun v =>
    match version_id with
    | Some p => String.eqb (Ver.version_id v) p
    | None => false
    end) (document_versions st).

(** [INSERT INTO documents ...]: the row is added.  The unique key of
    the table on the four metadata columns is not modelled: the call
    stands for the insert on metadata that no document has, which is
    how [ingest_request] calls it. *)
Definition create_document
    (title jurisdiction regulation_family instrument_type primary_axis
       primary_axis_source : string) : M string :=
  document_id <- uuid4 ;;
  execute (fun st =>
    set_documents
      (documents st ++
       [{| Doc.document_id := document_id;
           Doc.title := title;
           Doc.jurisdiction := jurisdiction;
           Doc.regulation_family := regulation_family;
           Doc.instrument_type := instrument_type;
           Doc.primary_axis := Some primary_axis;
           Doc.primary_axis_source := Some primary_axis_source |}]) st) ;;;
  ret document_id.

Definition create_version (document_id tenant_id : string)
    (effective_year : Z) (uploaded_by raw_sha256 : string)
    (version_label effective_date parent_version_id file_id : option string)
    (status : string) : M string :=
  (if negb (existsb (String.eqb status) ALLOWED_STATUSES)
   then raise (Rules.InvalidStatus status) else ret tt) ;;;
  (if truthy_opt parent_version_id then
     parent <- query (version_with_id parent_version_id) ;;
     match parent with
     | None => raise Rules.ParentVersionNotFound
     | Some pv =>
         if negb (String.eqb (Ver.document_id pv) document_id)
         then raise Rules.ParentVersionWrongDocument
         else ret tt
     end
   else ret tt) ;;;
  version_id <- uuid4 ;;
  execute (fun st =>
    set_document_versions
      (document_versions st ++
       [{| Ver.version_id := version_id;
           Ver.document_id := document_id;
           Ver.version_label := version_label;
           Ver.effective_date := effective_date;
           Ver.status := status;
           Ver.parent_version_id := parent_version_id;
           Ver.tenant_id := tenant_id;
           Ver.effective_year := effective_year;
           Ver.uploaded_by := uploaded_by;
           Ver.raw_sha256 := raw_sha256;
           Ver.file_id := file_id;
           Ver.uploaded_at := None;
           Ver.updated_at := None;
           Ver.artifacts_json := None |}]) st) ;;;
  ret version_id.

(** [UPDATE document_versions SET ... WHERE cond]: the rows that satisfy
    the condition are rewritten in place. *)
Definition update_versions (cond : Ver.row -> bool)
    (f : timestamp -> Ver.row -> Ver.row) : M unit :=
  execute (fun st =>
    set_document_versions
      (map (fun v => if cond v then f (clock st) v else v)
         (document_versions st)) st).

Definition set_version_file_id (version_id file_id : string) : M unit :=
  update_versions
    (fun v => String.eqb (Ver.version_id v) version_id)
    (fun now v =>
       {| Ver.version_id := Ver.version_id v;
          Ver.document_id := Ver.document_id v;
          Ver.version_label := Ver.version_label v;
          Ver.effective_date := Ver.effective_date v;
          Ver.status := Ver.status v;
          Ver.parent_version_id := Ver.parent_version_id v;
          Ver.tenant_id := Ver.tenant_id v;
          Ver.effective_year := Ver.effective_year v;
          Ver.uploaded_by := Ver.uploaded_by v;
          Ver.raw_sha256 := Ver.raw_sha256 v;
          Ver.file_id := Some file_id;
          Ver.uploaded_at := Some now;
          Ver.updated_at := Some now;
          Ver.artifacts_json := Ver.artifacts_json v |}).

Definition set_artifacts_json (version_id : string)
    (artifacts_json : Json.json) : M unit :=
  update_versions
    (fun v => String.eqb (Ver.version_id v) version_id)
    (fun now v =>
       {| Ver.version_id := Ver.version_id v;
          Ver.document_id := Ver.document_id v;
          Ver.version_label := Ver.version_label v;
          Ver.effective_date := Ver.effective_date v;
          Ver.status := Ver.status v;
          Ver.parent_version_id := Ver.parent_version_id v;
          Ver.tenant_id := Ver.tenant_id v;
          Ver.effective_year := Ver.effective_year v;
          Ver.uploaded_by := Ver.uploaded_by v;
          Ver.raw_sha256 := Ver.raw_sha256 v;
          Ver.file_id := Ver.file_id v;
          Ver.uploaded_at := Ver.uploaded_at v;
          Ver.updated_at := Some now;
          Ver.artifacts_json := Some artifacts_json |}).

(** [SET status=..., updated_at=now()] on one row *)
Definition with_status (status : string) (now : timestamp) (v : Ver.row)
  : Ver.row :=
  {| Ver.version_id := Ver.version_id v;
     Ver.document_id := Ver.document_id v;
     Ver.version_label := Ver.version_label v;
     Ver.effective_date := Ver.effective_date v;
     Ver.status := status;
     Ver.parent_version_id := Ver.parent_version_id v;
     Ver.tenant_id := Ver.tenant_id v;
     Ver.effective_year := Ver.effective_year v;
     Ver.uploaded_by := Ver.uploaded_by v;
     Ver.raw_sha256 := Ver.raw_sha256 v;
     Ver.file_id := Ver.file_id v;
     Ver.uploaded_at := Ver.uploaded_at v;
     Ver.updated_at := Some now;
     Ver.artifacts_json := Ver.artifacts_json v |}.

Definition mark_parent_superseded (parent_version_id : string) : M unit :=
  update_versions
    (fun v => String.eqb (Ver.version_id v) parent_version_id
              && String.eqb (Ver.status v) "ACTIVE")
    (with_status "SUPERSEDED").

Definition set_status_pending_to_active (version_id : string) : M unit :=
  update_versions
    (fun v => String.eqb (Ver.version_id v) version_id
              && String.eqb (Ver.status v) "PENDING")
    (with_status "ACTIVE").

Definition set_status_pending_to_failed (version_id : string) : M unit :=
  update_versions
    (fun v => String.eqb (Ver.version_id v) version_id
              && String.eqb (Ver.status v) "PENDING")
    (with_status "FAILED").

(** [INSERT ... ON CONFLICT (version_id) DO UPDATE SET ...]: a row that
    holds the version is rewritten, its [suggestion_id] kept; without one
    the new row is added. *)
Definition upsert_primary_axis_suggestion
    (version_id suggested_axis model_name model_version confidence : string)
    (details_json : Json.json) : M unit :=
  suggestion_id <- uuid4 ;;
  execute (fun st =>
    let rows := primary_axis_suggestions st in
    if existsb (fun r => String.eqb (Sug.version_id r) version_id) rows then
      set_primary_axis_suggestions
        (map (fun r =>
           if String.eqb (Sug.version_id r) version_id then
             {| Sug.suggestion_id := Sug.suggestion_id r;
                Sug.version_id := Sug.version_id r;
                Sug.suggested_axis := suggested_axis;
                Sug.model_name := model_name;
                Sug.model_version := model_version;
                Sug.confidence := confidence;
                Sug.details_json := details_json;
                Sug.updated_at := Some (clock st) |}
           else r) rows) st
    else
      set_primary_axis_suggestions
        (rows ++
         [{| Sug.suggestion_id := suggestion_id;
             Sug.version_id := version_id;
             Sug.suggested_axis := suggested_axis;
             Sug.model_name := model_name;
             Sug.model_version := model_version;
             Sug.confidence := confidence;
             Sug.details_json := details_json;
             Sug.updated_at := None |}]) st).

End Registry.

(* ------------------------------------------------------------------ *)
(** ** [app/services/evidence_store.py] *)

Module Evidence.
Import Store Store.MNotations.

(** [SELECT * FROM evidence_files WHERE sha256=%s ORDER BY created_at
    DESC LIMIT 1] *)
Definition latest_with_sha (sha256 : string) (st : state) : option Ev.row :=
  hd_error
    (order_by_desc (fun f => Some (Ev.created_at f))
       (filter (fun f => String.eqb (Ev.sha256 f) sha256)
          (evidence_files st))).

Definition find_by_sha (sha256 : string) : M (option Ev.row) :=
  query (latest_with_sha sha256).

Definition get (file_id : string) : M (option Ev.row) :=
  query (fun st =>
    List.find (fun f => String.eqb (Ev.file_id f) file_id)
      (evidence_files st)).

Definition create_evidence (sha256 : string) (pdf_bytes : Sha256.bytes)
    (document_id version_id : string) : M (string * string * string) :=
  file_id <- uuid4 ;;
  let key := "evidence/" ++ document_id ++ "/" ++ version_id ++ "/"
             ++ file_id ++ ".pdf" in
  storage_uri <- put_bytes_write_once key pdf_bytes ;;
  execute (fun st =>
    set_evidence_files
      (evidence_files st ++
       [{| Ev.file_id := file_id;
           Ev.version_id := version_id;
           Ev.sha256 := sha256;
           Ev.mime_type := "application/pdf";
           Ev.size_bytes := Z.of_nat (List.length pdf_bytes);
           Ev.storage_uri := storage_uri;
           Ev.created_at := clock st |}]) st) ;;;
  ret (file_id, key, storage_uri).

End Evidence.

(* ------------------------------------------------------------------ *)
(** ** [app/services/ingestion.py] *)

Module Ingestion.
Import Store Store.MNotations PyStr Json.

(** The entries of [app.settings.settings] the orchestrator reads. *)
Record settings : Type := {
  MAX_PDF_MB : Z;
  ENABLE_LLM_PRIMARY_AXIS_SUGGESTION : bool;
  LLM_MODEL_NAME : string;
  LLM_MODEL_VERSION : string
}.

(** The metadata dictionary the upload route builds. *)
Module Meta.
Record t : Type := {
  jurisdiction : string;
  title : string;
  regulation_family : string;
  instrument_type : string;
  primary_axis : option string;
  tenant_id : string;
  effective_year : Z;
  effective_date : option string;
  version_label : option string;
  parent_version_id : option string
}.

Definition opt (o : option string) : Rules.pyval :=
  match o with
  | None => Rules.PNone
  | Some s => Rules.PStr s
  end.

Definition items (m : t) : list (string * Rules.pyval) :=
  [("jurisdiction", Rules.PStr (jurisdiction m));
   ("title", Rules.PStr (title m));
   ("regulation_family", Rules.PStr (regulation_family m));
   ("instrument_type", Rules.PStr (instrument_type m));
   ("primary_axis", opt (primary_axis m));
   ("tenant_id", Rules.PStr (tenant_id m));
   ("effective_year", Rules.PInt (effective_year m));
   ("effective_date", opt (effective_date m));
   ("version_label", opt (version_label m));
   ("parent_version_id", opt (parent_version_id m))].

(** [meta.get(key)] *)
Definition get (m : t) (key : string) : Rules.pyval :=
  match List.find (fun kv => String.eqb (fst kv) key) (items m) with
  | Some kv => snd kv
  | None => Rules.PNone
  end.

Definition to_json (m : t) : json :=
  JDict (map (fun kv => (fst kv, of_pyval (snd kv))) (items m)).

(** [meta["primary_axis"] = value] *)
Definition set_primary_axis (value : string) (m : t) : t :=
  {| jurisdiction := jurisdiction m;
     title := title m;
     regulation_family := regulation_family m;
     instrument_type := instrument_type m;
     primary_axis := Some value;
     tenant_id := tenant_id m;
     effective_year := effective_year m;
     effective_date := effective_date m;
     version_label := version_label m;
     parent_version_id := parent_version_id m |}.
End Meta.

(** The identifiers [_dedupe_match_existing] returns. *)
Module Existing.
Record t : Type := {
  document_id : string;
  version_id : string;
  file_id : string;
  sha256 : string
}.
End Existing.

Module Suggestion.
Record t : Type := {
  value : string;
  model_name : string;
  model_version : string;
  confidence : string
}.
End Suggestion.

(** The dictionary [ingest_request] returns. *)
Module Response.
Record t : Type := {
  http_status : Z;
  ingestion_status : string;
  correlation_id : string;
  document_id : string;
  version_id : string;
  file_id : string;
  sha256 : string;
  primary_axis_source : option string;
  primary_axis_suggestion : option Suggestion.t
}.
End Response.

(** Modelled from the spec: [FingerprintService.sha256_bytes] of
    [app/services/fingerprint.py], which is not among the sources, is the
    SHA-256 hex digest of the raw bytes, as [_sha256_bytes] of
    [artifacts.py] is. *)
Definition sha256_bytes (pdf_bytes : Sha256.bytes) : string :=
  Sha256.sha256_hex pdf_bytes.

Section Orchestrator.

Variable cfg : settings.

(** [SELECT rule_json FROM ref_rules WHERE rule_key=%s AND
    is_active=true], with the default when there is no such row. *)
Definition active_rules (st : state) : Rules.rule_json :=
  match List.find (fun r => String.eqb (Rule.rule_key r) "EPIC1_UPLOAD_RULES"
                            && Rule.is_active r) (ref_rules st) with
  | Some row => Rule.rule_json row
  | None => {| Rules.required_fields := Some [];
               Rules.max_pdf_mb := Some (MAX_PDF_MB cfg) |}
  end.

Definition _rules : M Rules.rule_json := query active_rules.

(** [SELECT primary_axis_source FROM documents WHERE document_id=%s] *)
Definition document_with_id (document_id : string) (st : state)
  : option Doc.row :=
  List.find (fun d => String.eqb (Doc.document_id d) document_id)
    (documents st).

(** The metadata test of [_dedupe_match_existing] on a version joined
    with its document. *)
Definition same_metadata (meta : Meta.t) (d : Doc.row) : bool :=
  String.eqb (Doc.jurisdiction d) (Meta.jurisdiction meta)
  && String.eqb (Doc.regulation_family d) (Meta.regulation_family meta)
  && String.eqb (Doc.title d) (Meta.title meta)
  && String.eqb (Doc.instrument_type d) (Meta.instrument_type meta).

(** [document_versions v JOIN documents d ON d.document_id=v.document_id
    WHERE v.raw_sha256=%s AND v.file_id=%s ORDER BY v.uploaded_at DESC] *)
Definition versions_of_file (sha256 file_id : string) (st : state)
  : list (Ver.row * Doc.row) :=
  order_by_desc (fun r => Ver.uploaded_at (fst r))
    (flat_map
       (fun v =>
          map (fun d => (v, d))
            (filter (fun d => String.eqb (Doc.document_id d)
                                (Ver.document_id v)) (documents st)))
       (filter
          (fun v =>
             String.eqb (Ver.raw_sha256 v) sha256
             && match Ver.file_id v with
                | Some f => String.eqb f file_id
                | None => false
                end)
          (document_versions st))).

(** The part of [_dedupe_match_existing] that follows the choice of the
    evidence row [f]. *)
Definition dedupe_on_file (f : Ev.row) (sha256 : string) (meta : Meta.t)
    (st : state) : option Existing.t :=
  match List.find (fun r => same_metadata meta (snd r))
          (versions_of_file sha256 (Ev.file_id f) st) with
  | Some r =>
      Some {| Existing.document_id := Ver.document_id (fst r);
              Existing.version_id := Ver.version_id (fst r);
              Existing.file_id := Ev.file_id f;
              Existing.sha256 := sha256 |}
  | None => None
  end.

(** [SELECT * FROM evidence_files WHERE sha256=%s LIMIT 1] has no ORDER
    BY: the row is the first one met by the scan of the table, which for a
    table that is only ever inserted into is the oldest one. *)
Definition dedupe_match (sha256 : string) (meta : Meta.t) (st : state)
  : option Existing.t :=
  match List.find (fun f => String.eqb (Ev.sha256 f) sha256)
          (evidence_files st) with
  | None => None
  | Some f => dedupe_on_file f sha256 meta st
  end.

Definition _dedupe_match_existing (sha256 : string) (meta : Meta.t)
  : M (option Existing.t) :=
  query (dedupe_match sha256 meta).

Definition _suggest_primary_axis (meta : Meta.t) : string * string * json :=
  let '(suggested, _src) :=
    Rules.derive_primary_axis_deterministic
      (Some (Meta.jurisdiction meta)) (Some (Meta.title meta))
      (Some (Meta.regulation_family meta))
      (Some (Meta.instrument_type meta)) in
  (suggested, "0.55", JDict [("method", JStr "stub_rule_suggestion")]).

(** [int(rules.get("max_pdf_mb", settings.MAX_PDF_MB))] *)
Definition max_mb_of (rules : Rules.rule_json) : Z :=
  match Rules.max_pdf_mb rules with
  | Some m => m
  | None => MAX_PDF_MB cfg
  end.

(** [len(pdf_bytes) > max_mb * 1024 * 1024] *)
Definition too_large (max_mb : Z) (pdf_bytes : Sha256.bytes) : bool :=
  (max_mb * 1024 * 1024 <? Z.of_nat (List.length pdf_bytes))%Z.

(** [meta.get("primary_axis") and str(meta["primary_axis"]).strip()] *)
Definition primary_axis_supplied (meta : Meta.t) : bool :=
  match Meta.primary_axis meta with
  | Some s => truthy s && truthy (strip s)
  | None => false
  end.

(** The truth value of primary_axis, its source, and the metadata after
    the value is written back. *)
Definition resolve_primary_axis (meta : Meta.t)
  : string * string * Meta.t :=
  if primary_axis_supplied meta then
    (strip (or_empty (Meta.primary_axis meta)), "UPLOAD", meta)
  else
    let '(value, source) :=
      Rules.derive_primary_axis_deterministic
        (Some (Meta.jurisdiction meta)) (Some (Meta.title meta))
        (Some (Meta.regulation_family meta))
        (Some (Meta.instrument_type meta)) in
    (value, source, Meta.set_primary_axis value meta).

(** The guard of the mismatch [raise]. *)
Definition primary_axis_mismatch (meta : Meta.t) (doc : Doc.row) : bool :=
  truthy_opt (Meta.primary_axis meta)
  && truthy_opt (Doc.primary_axis doc)
  && negb (String.eqb (or_empty (Meta.primary_axis meta))
             (or_empty (Doc.primary_axis doc))).

(** The block under [if meta.get("parent_version_id"):]. *)
Definition supersede_parent (meta : Meta.t)
    (version_id actor correlation_id : string) : M unit :=
  if truthy_opt (Meta.parent_version_id meta) then
    Registry.mark_parent_superseded
      (or_empty (Meta.parent_version_id meta)) ;;;
    Audit.write "version" (or_empty (Meta.parent_version_id meta))
      "EPIC1.PARENT_VERSION_SUPERSEDED" actor correlation_id
      (JDict [("child_version_id", JStr version_id)]) true ;;;
    ret tt
  else ret tt.

(** The block under [if settings.ENABLE_LLM_PRIMARY_AXIS_SUGGESTION:]:
    the value of [primary_axis_suggestion] after it. *)
Definition llm_suggestion (meta : Meta.t)
    (version_id actor correlation_id : string)
  : M (option Suggestion.t) :=
  if ENABLE_LLM_PRIMARY_AXIS_SUGGESTION cfg then
    let '(suggested, confidence, details) := _suggest_primary_axis meta in
    Registry.upsert_primary_axis_suggestion version_id suggested
      (LLM_MODEL_NAME cfg) (LLM_MODEL_VERSION cfg) confidence details ;;;
    Audit.write "version" version_id "EPIC1.LLM.PRIMARY_AXIS_SUGGESTED"
      actor correlation_id
      (JDict [("suggested_axis", JStr suggested);
              ("confidence", JFloat confidence);
              ("model_name", JStr (LLM_MODEL_NAME cfg));
              ("model_version", JStr (LLM_MODEL_VERSION cfg))]) true ;;;
    ret (Some {| Suggestion.value := suggested;
                 Suggestion.model_name := LLM_MODEL_NAME cfg;
                 Suggestion.model_version := LLM_MODEL_VERSION cfg;
                 Suggestion.confidence := confidence |})
  else ret None.

Definition ingest_request (pdf_bytes : Sha256.bytes) (meta : Meta.t)
    (actor : string) (force_new_version : bool) : M Response.t :=
  correlation_id <- uuid4 ;;
  rules <- _rules ;;
  match Rules.enforce_upload_rules rules (Meta.get meta) with
  | inl e => raise e
  | inr _ =>
  rules' <- _rules ;;
  let max_mb := max_mb_of rules' in
  if too_large max_mb pdf_bytes then
    raise (Rules.PdfTooLarge max_mb)
  else
  Audit.write "system" "epic1" "EPIC1.REQUEST.RECEIVED" actor correlation_id
    (JDict [("meta", Meta.to_json meta);
            ("force_new_version", JBool force_new_version)]) true ;;;
  let sha := sha256_bytes pdf_bytes in
  Audit.write "system" "epic1" "EPIC1.FINGERPRINT.COMPUTED" actor
    correlation_id (JDict [("raw_sha256", JStr sha)]) true ;;;
  Audit.write "system" "epic1" "EPIC1.DEDUP.CHECKED" actor correlation_id
    (JDict [("raw_sha256", JStr sha)]) true ;;;
  existing <- _dedupe_match_existing sha meta ;;
  match existing, force_new_version with
  | Some ex, false =>
      Audit.write "version" (Existing.version_id ex)
        "EPIC1.DEDUP.SHORTCIRCUIT_RETURNED" actor correlation_id
        (JDict [("raw_sha256", JStr sha)]) true ;;;
      doc <- query (document_with_id (Existing.document_id ex)) ;;
      ret {| Response.http_status := 200;
             Response.ingestion_status := "DEDUP_RETURN_EXISTING";
             Response.correlation_id := correlation_id;
             Response.document_id := Existing.document_id ex;
             Response.version_id := Existing.version_id ex;
             Response.file_id := Existing.file_id ex;
             Response.sha256 := Existing.sha256 ex;
             Response.primary_axis_source :=
               match doc with
               | Some d => Doc.primary_axis_source d
               | None => None
               end;
             Response.primary_axis_suggestion := None |}
  | _, _ =>
  let '(primary_axis_value, primary_axis_source, meta) :=
    resolve_primary_axis meta in
  doc <- Registry.find_document_by_metadata (Meta.title meta)
           (Meta.jurisdiction meta) (Meta.regulation_family meta)
           (Meta.instrument_type meta) ;;
  found <- match doc with
           | Some d =>
               if primary_axis_mismatch meta d then
                 raise (Rules.PrimaryAxisMismatch
                          (or_empty (Doc.primary_axis d))
                          (or_empty (Meta.primary_axis meta)))
               else ret (Doc.document_id d, false,
                         Doc.primary_axis_source d)
           | None =>
               document_id <- Registry.create_document (Meta.title meta)
                 (Meta.jurisdiction meta) (Meta.regulation_family meta)
                 (Meta.instrument_type meta) primary_axis_value
                 primary_axis_source ;;
               ret (document_id, true, Some primary_axis_source)
           end ;;
  let '(document_id, created_new_doc, primary_axis_source_out) := found in
  version_id <- Registry.create_version document_id (Meta.tenant_id meta)
    (Meta.effective_year meta) actor sha (Meta.version_label meta)
    (Meta.effective_date meta) (Meta.parent_version_id meta) None
    "PENDING" ;;
  evidence_row <- Evidence.find_by_sha sha ;;
  file_id <- match evidence_row, force_new_version with
             | Some row, true => ret (Ev.file_id row)
             | _, _ =>
                 r <- Evidence.create_evidence sha pdf_bytes document_id
                        version_id ;;
                 ret (fst (fst r))
             end ;;
  Registry.set_version_file_id version_id file_id ;;;
  supersede_parent meta version_id actor correlation_id ;;;
  Audit.write "version" version_id "EPIC1.REGISTRY.VERSION_CREATED" actor
    correlation_id
    (JDict [("document_id", JStr document_id); ("file_id", JStr file_id);
            ("raw_sha256", JStr sha)]) true ;;;
  primary_axis_suggestion <-
    llm_suggestion meta version_id actor correlation_id ;;
  ret {| Response.http_status := 201;
         Response.ingestion_status :=
           match evidence_row, force_new_version with
           | Some _, true => "CREATED_NEW_VERSION_REUSED_FILE"
           | _, _ => if created_new_doc
                     then "CREATED_NEW_DOCUMENT_AND_VERSION"
                     else "CREATED_NEW_VERSION"
           end;
         Response.correlation_id := correlation_id;
         Response.document_id := document_id;
         Response.version_id := version_id;
         Response.file_id := file_id;
         Response.sha256 := sha;
         Response.primary_axis_source := primary_axis_source_out;
         Response.primary_axis_suggestion := primary_axis_suggestion |}
  end
  end.

End Orchestrator.

End Ingestion.

(* ------------------------------------------------------------------ *)
(** ** Running the calls, and what every call keeps *)

Module Run.
Import Store.

Lemma bind_ok {A B : Type} (c : M A) (k : A -> M B) (st st' : state) (a : A) :
  c st = (Ok a, st') -> bind c k st = k a st'.
Proof. intros H. unfold bind. now rewrite H. Qed.

Lemma bind_raise {A B : Type} (c : M A) (k : A -> M B) (st st' : state)
    (e : Rules.http_exception) :
  c st = (Raise e, st') -> bind c k st = (Raise e, st').
Proof. intros H. unfold bind. now rewrite H. Qed.

(** A call keeps [R] when the store it leaves is related by [R] to the
    store it found, whether it returns or raises. *)
Definition keeps {A : Type} (R : state -> state -> Prop) (c : M A) : Prop :=
  forall st, R st (snd (c st)).

Section Keeps.

Variable R : state -> state -> Prop.
Context {R_preorder : PreOrder R}.

Lemma keeps_ret {A : Type} (a : A) : keeps R (ret a).
Proof. intros st. simpl. reflexivity. Qed.

Lemma keeps_raise {A : Type} (e : Rules.http_exception) :
  keeps R (@raise A e).
Proof. intros st. simpl. reflexivity. Qed.

Lemma keeps_query {A : Type} (f : state -> A) : keeps R (query f).
Proof. intros st. simpl. reflexivity. Qed.

Lemma keeps_bind {A B : Type} (c : M A) (k : A -> M B) :
  keeps R c -> (forall a, keeps R (k a)) -> keeps R (bind c k).
Proof.
  intros Hc Hk st. unfold bind. specialize (Hc st).
  destruct (c st) as [[a | e] st']; simpl in *.
  - transitivity st'; [assumption | apply Hk].
  - assumption.
Qed.

Lemma keeps_execute (f : state -> state) :
  (forall st, R st (tick (f st))) -> keeps R (execute f).
Proof. intros H st. apply H. Qed.

Lemma keeps_uuid4 : (forall st, R st (draw st)) -> keeps R uuid4.
Proof. intros H st. apply H. Qed.

Lemma keeps_put_bytes (key : string) (data : Sha256.bytes) :
  (forall st l, R st (set_objects l st)) ->
  keeps R (put_bytes_write_once key data).
Proof.
  intros H st. unfold put_bytes_write_once.
  destruct (existsb _ _); simpl; [reflexivity | apply H].
Qed.

End Keeps.

(** Facts on [ORDER BY ... DESC] *)

Lemma key_geb_refl (a : option timestamp) : key_geb a a = true.
Proof. destruct a; simpl; [apply Nat.leb_refl | reflexivity]. Qed.

Lemma key_geb_total (a b : option timestamp) :
  key_geb a b = false -> key_geb b a = true.
Proof.
  destruct a, b; simpl; try reflexivity; try discriminate.
  intros H. apply Nat.leb_gt in H. apply Nat.leb_le. lia.
Qed.

Lemma key_geb_trans (a b c : option timestamp) :
  key_geb a b = true -> key_geb b c = true -> key_geb a c = true.
Proof.
  destruct a, b, c; simpl; try reflexivity; try discriminate.
  intros H1 H2. apply Nat.leb_le in H1, H2. apply Nat.leb_le. lia.
Qed.

Lemma insert_desc_in {A : Type} (key : A -> option timestamp) (x y : A)
    (l : list A) :
  In y (insert_desc key x l) <-> y = x \/ In y l.
Proof.
  induction l as [|z l IH]; simpl.
  - intuition.
  - destruct (key_geb (key x) (key z)); simpl; [intuition |].
    rewrite IH. intuition.
Qed.

Lemma order_by_desc_in {A : Type} (key : A -> option timestamp) (y : A)
    (l : list A) :
  In y (order_by_desc key l) <-> In y l.
Proof.
  induction l as [|x l IH]; simpl; [tauto |].
  rewrite insert_desc_in, IH. intuition.
Qed.

Lemma order_by_desc_nil {A : Type} (key : A -> option timestamp)
    (l : list A) :
  order_by_desc key l = [] -> l = [].
Proof.
  destruct l as [|x l]; [reflexivity |]. simpl. intros H.
  assert (Hin : In x (insert_desc key x (order_by_desc key l)))
    by (apply insert_desc_in; now left).
  rewrite H in Hin. destruct Hin.
Qed.

(** The first row of [ORDER BY key DESC] is a row of the table whose
    key no other row exceeds. *)
Lemma order_by_desc_head {A : Type} (key : A -> option timestamp)
    (l : list A) :
  forall x rest,
    order_by_desc key l = x :: rest ->
    In x l /\ forall y, In y l -> key_geb (key x) (key y) = true.
Proof.
  induction l as [|a l IH]; intros x rest; simpl; [discriminate |].
  destruct (order_by_desc key l) as [|h t] eqn:E.
  - apply order_by_desc_nil in E. subst l. simpl. intros [= <- _].
    split; [now left |]. intros y [<- | []]. apply key_geb_refl.
  - destruct (IH h t eq_refl) as [Hin Hmax]. simpl.
    destruct (key_geb (key a) (key h)) eqn:G.
    + intros [= <- _]. split; [now left |].
      intros y [<- | Hy]; [apply key_geb_refl |].
      apply (key_geb_trans _ (key h)); [assumption | now apply Hmax].
    + intros [= <- _]. split; [now right |].
      intros y [<- | Hy]; [now apply key_geb_total | now apply Hmax].
Qed.

End Run.

(* ------------------------------------------------------------------ *)
(** ** The audit hash chain *)

Module AuditChain.
Import Store Json Audit Run.

(** One item of a canonical object: the key, a colon, the value. *)
Definition item (key value : string) : string :=
  dumps_str key ++ ":" ++ value.

(** The canonical text of the payload: the eight keys in code-point
    order, items separated by commas, no blank. *)
Definition payload_text (event_id entity_type entity_id action actor
    correlation_id : string) (details : json) (prev : option string)
  : string :=
  "{" ++ PyStr.join ","
           [item "action" (dumps_str action);
            item "actor" (dumps_str actor);
            item "correlation_id" (dumps_str correlation_id);
            item "details" (dumps details);
            item "entity_id" (dumps_str entity_id);
            item "entity_type" (dumps_str entity_type);
            item "event_id" (dumps_str event_id);
            item "prev_event_hash"
              match prev with
              | None => "null"
              | Some h => dumps_str h
              end]
      ++ "}".

(** The row [write] inserts in the store [st]. *)
Definition written_row (entity_type entity_id action actor
    correlation_id : string) (details : json) (enable_hash_chain : bool)
    (st : state) : Aud.row :=
  let event_id := uuids st (drawn st) in
  let prev := if enable_hash_chain
              then last_hash entity_type entity_id (audit_log st)
              else None in
  {| Aud.event_id := event_id;
     Aud.at_ := clock st;
     Aud.entity_type := entity_type;
     Aud.entity_id := entity_id;
     Aud.action := action;
     Aud.actor := actor;
     Aud.correlation_id := correlation_id;
     Aud.details_json := details;
     Aud.prev_event_hash := prev;
     Aud.event_hash :=
       if enable_hash_chain
       then Some (Sha256.sha256_text
                    (_stable_json
                       (payload event_id entity_type entity_id action actor
                          correlation_id details prev)))
       else None |}.

(** The store after [write]. *)
Definition written (entity_type entity_id action actor
    correlation_id : string) (details : json) (enable_hash_chain : bool)
    (st : state) : state :=
  tick (set_audit_log
          (audit_log st ++
           [written_row entity_type entity_id action actor correlation_id
              details enable_hash_chain st]) (draw st)).

Lemma write_run (entity_type entity_id action actor correlation_id : string)
    (details : json) (enable_hash_chain : bool) (st : state) :
  write entity_type entity_id action actor correlation_id details
    enable_hash_chain st
  = (Ok (uuids st (drawn st)),
     written entity_type entity_id action actor correlation_id details
       enable_hash_chain st).
Proof. destruct enable_hash_chain; reflexivity. Qed.

Lemma payload_canonical (event_id entity_type entity_id action actor
    correlation_id : string) (details : json) (prev : option string) :
  _stable_json (payload event_id entity_type entity_id action actor
                  correlation_id details prev)
  = payload_text event_id entity_type entity_id action actor correlation_id
      details prev.
Proof. destruct prev; reflexivity. Qed.

Lemma same_entity_iff (entity_type entity_id : string) (r : Aud.row) :
  same_entity entity_type entity_id r = true
  <-> Aud.entity_type r = entity_type /\ Aud.entity_id r = entity_id.
Proof.
  unfold same_entity. now rewrite andb_true_iff, !String.eqb_eq.
Qed.

(** [last_hash_for_entity]: the hash of a hashed row of the entity that
    no other hashed row of the entity is more recent than; nothing when
    the entity has no hashed row. *)
Lemma last_hash_spec (entity_type entity_id : string) (log : list Aud.row) :
  match last_hash entity_type entity_id log with
  | None =>
      forall r, In r log ->
        Aud.entity_type r = entity_type -> Aud.entity_id r = entity_id ->
        Aud.event_hash r = None
  | Some h =>
      exists r, In r log
        /\ Aud.entity_type r = entity_type /\ Aud.entity_id r = entity_id
        /\ Aud.event_hash r = Some h
        /\ forall r', In r' log ->
             Aud.entity_type r' = entity_type ->
             Aud.entity_id r' = entity_id ->
             Aud.event_hash r' <> None ->
             (Aud.at_ r' <= Aud.at_ r)%nat
  end.
Proof.
  unfold last_hash, chain_rows.
  set (sel := fun r => same_entity entity_type entity_id r && has_hash r).
  destruct (order_by_desc (fun r => Some (Aud.at_ r)) (filter sel log))
    as [|row rest] eqn:E.
  - apply order_by_desc_nil in E. intros r Hin Ht Hi.
    destruct (Aud.event_hash r) eqn:Eh; [| reflexivity].
    assert (Hsel : In r (filter sel log)).
    { apply filter_In. split; [assumption |]. subst sel. simpl.
      apply andb_true_iff. split; [now apply same_entity_iff |].
      unfold has_hash. now rewrite Eh. }
    rewrite E in Hsel. destruct Hsel.
  - apply order_by_desc_head in E as [Hin Hmax].
    apply filter_In in Hin as [Hin Hsel]. subst sel. simpl in Hsel.
    apply andb_true_iff in Hsel as [Hent Hhash].
    apply same_entity_iff in Hent as [Ht Hi].
    unfold has_hash in Hhash.
    destruct (Aud.event_hash row) as [h|] eqn:Eh; [| discriminate].
    exists row. repeat split; try assumption.
    intros r' Hin' Ht' Hi' Hh'.
    assert (Hsel : In r' (filter
              (fun r => same_entity entity_type entity_id r && has_hash r)
              log)).
    { apply filter_In. split; [assumption |].
      apply andb_true_iff. split; [now apply same_entity_iff |].
      unfold has_hash. destruct (Aud.event_hash r'); [reflexivity |].
      now elim Hh'. }
    specialize (Hmax r' Hsel). simpl in Hmax. now apply Nat.leb_le.
Qed.

Lemma filter_and_filter {A : Type} (p q : A -> bool) (l : list A) :
  filter (fun x => p x && q x) (filter p l) = filter (fun x => p x && q x) l.
Proof.
  induction l as [|a l IH]; simpl; [reflexivity |].
  destruct (p a) eqn:E; simpl; [rewrite E; simpl; now rewrite IH | exact IH].
Qed.

(** A row of another entity does not move the head of a chain. *)
Lemma last_hash_other_entity (entity_type entity_id : string)
    (log : list Aud.row) (row : Aud.row) :
  same_entity entity_type entity_id row = false ->
  last_hash entity_type entity_id (log ++ [row])
  = last_hash entity_type entity_id log.
Proof.
  intros H. unfold last_hash, chain_rows. rewrite filter_app. simpl.
  rewrite H. simpl. now rewrite app_nil_r.
Qed.

(** C3: a write with hash chaining enabled appends one row whose
    event_hash is the SHA-256 hex digest of the UTF-8 bytes of the
    canonical JSON of the payload (the eight keys event_id, entity_type,
    entity_id, action, actor, correlation_id, details, prev_event_hash,
    sorted, compact); its prev_event_hash is the event_hash of a most
    recent prior row of the same (entity_type, entity_id) with a hash, or
    null when there is none; rows of other entities play no part, and the
    write moves the head of no other entity's chain. *)
Theorem write_hash_chain (entity_type entity_id action actor
    correlation_id : string) (details : json) (st : state) :
  let r := write entity_type entity_id action actor correlation_id details
             true st in
  let event_id := uuids st (drawn st) in
  let prev := last_hash entity_type entity_id (audit_log st) in
  fst r = Ok event_id
  /\ (exists row,
        audit_log (snd r) = (audit_log st ++ [row])%list
        /\ Aud.event_id row = event_id
        /\ Aud.entity_type row = entity_type
        /\ Aud.entity_id row = entity_id
        /\ Aud.action row = action
        /\ Aud.actor row = actor
        /\ Aud.correlation_id row = correlation_id
        /\ Aud.details_json row = details
        /\ Aud.prev_event_hash row = prev
        /\ Aud.event_hash row
           = Some (Sha256.sha256_hex
                     (Sha256.utf8
                        (payload_text event_id entity_type entity_id action
                           actor correlation_id details prev))))
  /\ match prev with
     | None =>
         forall r0, In r0 (audit_log st) ->
           Aud.entity_type r0 = entity_type ->
           Aud.entity_id r0 = entity_id ->
           Aud.event_hash r0 = None
     | Some h =>
         exists r0, In r0 (audit_log st)
           /\ Aud.entity_type r0 = entity_type
           /\ Aud.entity_id r0 = entity_id
           /\ Aud.event_hash r0 = Some h
           /\ forall r1, In r1 (audit_log st) ->
                Aud.entity_type r1 = entity_type ->
                Aud.entity_id r1 = entity_id ->
                Aud.event_hash r1 <> None ->
                (Aud.at_ r1 <= Aud.at_ r0)%nat
     end
  /\ prev = last_hash entity_type entity_id
              (filter (same_entity entity_type entity_id) (audit_log st))
  /\ forall other_type other_id,
       same_entity other_type other_id
         (written_row entity_type entity_id action actor correlation_id
            details true st) = false ->
       last_hash other_type other_id (audit_log (snd r))
       = last_hash other_type other_id (audit_log st).
Proof.
  intros r event_id prev. subst r. rewrite write_run. cbn [fst snd].
  split; [reflexivity |]. split; [| split; [| split]].
  - exists (written_row entity_type entity_id action actor correlation_id
              details true st).
    split; [reflexivity |]. repeat split.
    unfold written_row. cbn [Aud.event_hash].
    rewrite payload_canonical. reflexivity.
  - apply last_hash_spec.
  - subst prev. unfold last_hash, chain_rows.
    now rewrite filter_and_filter.
  - intros other_type other_id H.
    change (audit_log (written entity_type entity_id action actor
                         correlation_id details true st))
      with (audit_log st ++
            [written_row entity_type entity_id action actor correlation_id
               details true st])%list.
    now apply last_hash_other_entity.
Qed.

End AuditChain.

(* ------------------------------------------------------------------ *)
(** ** The operations of the system on the registry

    Every call of the services that writes to the tables modelled here.
    The remaining writers of the repository (artifact registration, chunk
    rows, LLM runs, the read-model projector) insert into tables of their
    own and call the registry only through these operations. *)

Module System.
Import Store Run Registry Ingestion.

Inductive op : Type :=
| OpAuditWrite (entity_type entity_id action actor correlation_id : string)
    (details : Json.json) (enable_hash_chain : bool)
| OpCreateDocument (title jurisdiction regulation_family instrument_type
    primary_axis primary_axis_source : string)
| OpCreateVersion (document_id tenant_id : string) (effective_year : Z)
    (uploaded_by raw_sha256 : string)
    (version_label effective_date parent_version_id file_id : option string)
    (status : string)
| OpSetVersionFileId (version_id file_id : string)
| OpSetArtifactsJson (version_id : string) (artifacts_json : Json.json)
| OpMarkParentSuperseded (parent_version_id : string)
| OpSetStatusPendingToActive (version_id : string)
| OpSetStatusPendingToFailed (version_id : string)
| OpUpsertPrimaryAxisSuggestion (version_id suggested_axis model_name
    model_version confidence : string) (details_json : Json.json)
| OpCreateEvidence (sha256 : string) (pdf_bytes : Sha256.bytes)
    (document_id version_id : string)
| OpIngestRequest (pdf_bytes : Sha256.bytes) (meta : Meta.t) (actor : string)
    (force_new_version : bool).

(** The call an operation stands for, its result dropped. *)
Definition call (cfg : settings) (o : op) : M unit :=
  match o with
  | OpAuditWrite t i a ac c d e =>
      bind (Audit.write t i a ac c d e) (fun _ => ret tt)
  | OpCreateDocument t j f i pa src =>
      bind (create_document t j f i pa src) (fun _ => ret tt)
  | OpCreateVersion d t y u sha vl ed p f s =>
      bind (create_version d t y u sha vl ed p f s) (fun _ => ret tt)
  | OpSetVersionFileId v f => set_version_file_id v f
  | OpSetArtifactsJson v j => set_artifacts_json v j
  | OpMarkParentSuperseded p => mark_parent_superseded p
  | OpSetStatusPendingToActive v => set_status_pending_to_active v
  | OpSetStatusPendingToFailed v => set_status_pending_to_failed v
  | OpUpsertPrimaryAxisSuggestion v a n mv c d =>
      upsert_primary_axis_suggestion v a n mv c d
  | OpCreateEvidence sha b d v =>
      bind (Evidence.create_evidence sha b d v) (fun _ => ret tt)
  | OpIngestRequest b m a f =>
      bind (ingest_request cfg b m a f) (fun _ => ret tt)
  end.

(** The store after an operation, and after a sequence of them. *)
Definition run (cfg : settings) (o : op) (st : state) : state :=
  snd (call cfg o st).

Definition run_all (cfg : settings) (ops : list op) (st : state) : state :=
  fold_left (fun s o => run cfg o s) ops st.

(** The transitions of section 4.10. *)
Definition allowed (a b : string) : Prop :=
  (a = "PENDING" /\ b = "ACTIVE")
  \/ (a = "PENDING" /\ b = "FAILED")
  \/ (a = "ACTIVE" /\ b = "SUPERSEDED").

(** Zero or more allowed transitions in a row. *)
Definition reach : string -> string -> Prop :=
  clos_refl_trans string allowed.

Definition row_evolves (v v' : Ver.row) : Prop :=
  Ver.version_id v' = Ver.version_id v
  /\ Ver.document_id v' = Ver.document_id v
  /\ reach (Ver.status v) (Ver.status v').

(** The version rows of [st] are all still there in [st'], in place, each
    with a status reached by allowed transitions; rows may have been
    added after them. *)
Definition versions_evolve (st st' : state) : Prop :=
  exists kept added,
    document_versions st' = (kept ++ added)%list
    /\ Forall2 row_evolves (document_versions st) kept.

(** The document rows of [st] are all still there in [st'], unchanged
    and in place; the rows added after them satisfy [P]. *)
Definition documents_grow (P : Doc.row -> Prop) (st st' : state) : Prop :=
  exists added,
    documents st' = (documents st ++ added)%list /\ Forall P added.

(** Only the suggestion table, the audit log, the clock and the
    identifier source may differ. *)
Definition same_truth (st st' : state) : Prop :=
  ref_rules st' = ref_rules st
  /\ documents st' = documents st
  /\ document_versions st' = document_versions st
  /\ evidence_files st' = evidence_files st
  /\ objects st' = objects st.

(** The primary axis and source [ingest_request] gives a document it
    creates. *)
Definition created_by (meta : Meta.t) (d : Doc.row) : Prop :=
  Doc.primary_axis d = Some (fst (fst (resolve_primary_axis meta)))
  /\ Doc.primary_axis_source d = Some (snd (fst (resolve_primary_axis meta))).

End System.

(* ------------------------------------------------------------------ *)
(** ** What the operations keep *)

Module SystemFacts.
Import Store Run Registry Ingestion System.

(** Applies the rules of [keeps] along the structure of a call: [known]
    closes the calls already dealt with, [leaf] the statements. *)
Tactic Notation "keeps_auto" tactic3(known) tactic3(leaf) :=
  repeat match goal with
    | |- PreOrder _ => typeclasses eauto
    | |- keeps _ (bind _ _) => apply keeps_bind; [ | | intros ]
    | |- keeps _ (ret _) => apply keeps_ret
    | |- keeps _ (raise _) => apply keeps_raise
    | |- keeps _ (query _) => apply keeps_query
    | |- keeps _ (execute _) => apply keeps_execute; intros; leaf
    | |- keeps _ uuid4 => apply keeps_uuid4; intros; leaf
    | |- keeps _ (put_bytes_write_once _ _) =>
        apply keeps_put_bytes; [typeclasses eauto | intros; leaf]
    | |- keeps _ (if ?b then _ else _) => destruct b
    | |- keeps _ (match ?x with _ => _ end) => destruct x
    | |- keeps _ _ => known
    end.

Ltac unfold_calls :=
  unfold call, ingest_request, supersede_parent, llm_suggestion,
    _dedupe_match_existing, _rules, Audit.write, Audit.last_hash_for_entity,
    Evidence.create_evidence, Evidence.find_by_sha,
    find_document_by_metadata, create_document, create_version,
    upsert_primary_axis_suggestion.

Ltac unfold_updates :=
  unfold set_version_file_id, set_artifacts_json, mark_parent_superseded,
    set_status_pending_to_active, set_status_pending_to_failed,
    update_versions.

(** *** Documents *)

#[local] Instance documents_grow_preorder (P : Doc.row -> Prop) :
  PreOrder (documents_grow P).
Proof.
  split.
  - intros st. exists []. split; [now rewrite app_nil_r | constructor].
  - intros a b c [l1 [H1 P1]] [l2 [H2 P2]]. exists (l1 ++ l2)%list. split.
    + now rewrite H2, H1, app_assoc.
    + apply Forall_app. now split.
Qed.

Ltac documents_leaf :=
  try match goal with
      | |- context [if ?c then _ else _] => destruct c
      end;
  first
    [ exists []; split; [cbn; now rewrite app_nil_r | constructor]
    | eexists [_]; split;
      [cbn; reflexivity
      | constructor; [try exact I; repeat split; reflexivity | constructor]] ].

Lemma call_keeps_documents (cfg : settings) (o : op) :
  keeps (documents_grow (fun _ => True)) (call cfg o).
Proof.
  destruct o; unfold_calls; unfold_updates; keeps_auto (fail) (documents_leaf).
Qed.

(** No operation but [create_document] and [ingest_request] adds a
    document. *)
Definition creates_no_document (o : op) : Prop :=
  match o with
  | OpCreateDocument _ _ _ _ _ _ => False
  | OpIngestRequest _ _ _ _ => False
  | _ => True
  end.

Lemma call_keeps_documents_same (cfg : settings) (o : op) :
  creates_no_document o ->
  keeps (documents_grow (fun _ => False)) (call cfg o).
Proof.
  destruct o; simpl; intros H; try (now elim H);
    unfold_calls; unfold_updates; keeps_auto (fail) (documents_leaf).
Qed.

Lemma ingest_keeps_created_by (cfg : settings) (pdf_bytes : Sha256.bytes)
    (meta : Meta.t) (actor : string) (force_new_version : bool) :
  keeps (documents_grow (created_by meta))
    (ingest_request cfg pdf_bytes meta actor force_new_version).
Proof.
  unfold created_by. unfold_calls. unfold_updates.
  keeps_auto (fail) (documents_leaf).
Qed.

Lemma documents_grow_nth (P : Doc.row -> Prop) (st st' : state) :
  documents_grow P st st' ->
  forall n d, nth_error (documents st) n = Some d ->
              nth_error (documents st') n = Some d.
Proof.
  intros [added [H _]] n d Hn. rewrite H.
  rewrite nth_error_app1; [assumption |].
  apply nth_error_Some. congruence.
Qed.

Lemma documents_grow_none (st st' : state) :
  documents_grow (fun _ => False) st st' -> documents st' = documents st.
Proof.
  intros [added [H HF]]. destruct added as [|d added].
  - now rewrite app_nil_r in H.
  - inversion HF as [|? ? Hd _]. destruct Hd.
Qed.

Lemma run_all_keeps (R : state -> state -> Prop) {HR : PreOrder R}
    (cfg : settings) :
  (forall o, keeps R (call cfg o)) ->
  forall ops st, R st (run_all cfg ops st).
Proof.
  intros H ops. induction ops as [|o ops IH]; intros st; simpl.
  - reflexivity.
  - transitivity (run cfg o st); [apply H | apply IH].
Qed.

(** *** The truth tables under the suggestion path *)

#[local] Instance same_truth_preorder : PreOrder same_truth.
Proof.
  split.
  - intros st. repeat split.
  - intros a b c (H1 & H2 & H3 & H4 & H5) (G1 & G2 & G3 & G4 & G5).
    repeat split; congruence.
Qed.

Ltac same_truth_leaf :=
  try match goal with
      | |- context [if ?c then _ else _] => destruct c
      end;
  repeat split.

Lemma upsert_keeps_same_truth
    (version_id suggested_axis model_name model_version confidence : string)
    (details_json : Json.json) :
  keeps same_truth
    (upsert_primary_axis_suggestion version_id suggested_axis model_name
       model_version confidence details_json).
Proof. unfold_calls. keeps_auto (fail) (same_truth_leaf). Qed.

Lemma llm_suggestion_keeps_same_truth (cfg : settings) (meta : Meta.t)
    (version_id actor correlation_id : string) :
  keeps same_truth (llm_suggestion cfg meta version_id actor correlation_id).
Proof. unfold_calls. keeps_auto (fail) (same_truth_leaf). Qed.

(** *** Version rows *)

Lemma reach_refl (a : string) : reach a a.
Proof. apply rt_refl. Qed.

Lemma row_evolves_refl (v : Ver.row) : row_evolves v v.
Proof. repeat split. apply reach_refl. Qed.

Lemma row_evolves_trans (a b c : Ver.row) :
  row_evolves a b -> row_evolves b c -> row_evolves a c.
Proof.
  intros (H1 & H2 & H3) (G1 & G2 & G3). repeat split; try congruence.
  now apply rt_trans with (Ver.status b).
Qed.

Lemma Forall2_row_evolves_refl (l : list Ver.row) : Forall2 row_evolves l l.
Proof. induction l; constructor; [apply row_evolves_refl | assumption]. Qed.

Lemma Forall2_row_evolves_trans (a : list Ver.row) :
  forall b c, Forall2 row_evolves a b -> Forall2 row_evolves b c ->
              Forall2 row_evolves a c.
Proof.
  induction a as [|x a IH]; intros b c Hab Hbc.
  - inversion Hab; subst. inversion Hbc; subst. constructor.
  - inversion Hab as [|? y ? b' Hxy Hab']; subst.
    inversion Hbc as [|? z ? c' Hyz Hbc']; subst.
    constructor; [now apply row_evolves_trans with y | now apply IH with b'].
Qed.

#[local] Instance versions_evolve_preorder : PreOrder versions_evolve.
Proof.
  split.
  - intros st. exists (document_versions st), []. split.
    + now rewrite app_nil_r.
    + apply Forall2_row_evolves_refl.
  - intros a b c [k1 [a1 [H1 F1]]] [k2 [a2 [H2 F2]]].
    rewrite H1 in F2. apply Forall2_app_inv_l in F2
      as [k2a [k2b [Fa [Fb ->]]]].
    exists k2a, (k2b ++ a2)%list. split.
    + now rewrite H2, app_assoc.
    + now apply Forall2_row_evolves_trans with k1.
Qed.
















Lemma existsb_version_false (v : string) (rows : list Sug.row) :
  existsb (fun r => String.eqb (Sug.version_id r) v) rows = false ->
  ~ In v (map Sug.version_id rows).
Proof.
  induction rows as [|r rows IH]; simpl; [tauto |].
  intros H. apply orb_false_iff in H as [H1 H2].
  apply String.eqb_neq in H1. intros [E | Hin]; [congruence | now apply IH].
Qed.

(** The store after the upsert: the suggestion table holds the version
    once if it held it at most once before, with the axis suggested. *)
Lemma upsert_unique
    (v a n mv c : string) (d : Json.json) (st : state) :
  let st' := snd (upsert_primary_axis_suggestion v a n mv c d st) in
  audit_log st' = audit_log st
  /\ (NoDup (map Sug.version_id (primary_axis_suggestions st)) ->
      NoDup (map Sug.version_id (primary_axis_suggestions st')))
  /\ exists row, In row (primary_axis_suggestions st')
                 /\ Sug.version_id row = v /\ Sug.suggested_axis row = a.
Proof.
  unfold upsert_primary_axis_suggestion, bind, uuid4, execute. cbn.
  destruct (existsb (fun r => String.eqb (Sug.version_id r) v)
              (primary_axis_suggestions st)) eqn:E; cbn.
  - split; [reflexivity |]. split.
    + intros H. rewrite map_map.
      erewrite map_ext; [exact H |].
      intros r. now destruct (String.eqb (Sug.version_id r) v).
    + apply existsb_exists in E as [r [Hin Hr]].
      eexists. split.
      * apply in_map_iff. exists r. split; [reflexivity | exact Hin].
      * rewrite Hr. cbn. apply String.eqb_eq in Hr. auto.
  - split; [reflexivity |]. split.
    + intros H. rewrite map_app. cbn.
      apply NoDup_app; [assumption | repeat constructor; intros [] |].
      intros x Hx [<- | []]. now apply existsb_version_false in E.
    + eexists. split; [apply in_or_app; right; now left |]. cbn. auto.
Qed.

(** C6: the upsert of a suggestion leaves the rules, the documents, the
    versions, the evidence rows, the object store and the audit log as
    they are and keeps version_id unique in the suggestion table; the
    suggestion step of the orchestrator leaves everything but the
    suggestion table and the audit log as it is; no operation but
    create_document and ingest_request adds a document; create_document
    adds one row with the axis and source it is given; a document added
    by ingest_request carries the axis and source resolved for the
    request; and along any sequence of operations every document row
    stays in place unchanged, primary_axis and primary_axis_source
    included. *)
Theorem primary_axis_set_at_creation_only (cfg : settings) :
  (forall v a n mv c d st,
     let st' := snd (upsert_primary_axis_suggestion v a n mv c d st) in
     same_truth st st'
     /\ audit_log st' = audit_log st
     /\ (NoDup (map Sug.version_id (primary_axis_suggestions st)) ->
         NoDup (map Sug.version_id (primary_axis_suggestions st')))
     /\ exists row, In row (primary_axis_suggestions st')
                    /\ Sug.version_id row = v /\ Sug.suggested_axis row = a)
  /\ (forall meta version_id actor correlation_id st,
        same_truth st
          (snd (llm_suggestion cfg meta version_id actor correlation_id st)))
  /\ (forall o st, creates_no_document o ->
                   documents (run cfg o st) = documents st)
  /\ (forall t j f i pa src st,
        documents (snd (create_document t j f i pa src st))
        = (documents st ++
           [{| Doc.document_id := uuids st (drawn st);
               Doc.title := t;
               Doc.jurisdiction := j;
               Doc.regulation_family := f;
               Doc.instrument_type := i;
               Doc.primary_axis := Some pa;
               Doc.primary_axis_source := Some src |}])%list)
  /\ (forall pdf_bytes meta actor force st,
        documents_grow (created_by meta) st
          (snd (ingest_request cfg pdf_bytes meta actor force st)))
  /\ (forall ops st n d,
        nth_error (documents st) n = Some d ->
        nth_error (documents (run_all cfg ops st)) n = Some d).
Proof.
  split; [| split; [| split; [| split; [| split]]]].
  - intros v a n mv c d st st'. split.
    + apply upsert_keeps_same_truth.
    + apply upsert_unique.
  - intros. apply llm_suggestion_keeps_same_truth.
  - intros o st H. apply documents_grow_none.
    now apply call_keeps_documents_same.
  - reflexivity.
  - intros. apply ingest_keeps_created_by.
  - intros ops st. apply (documents_grow_nth (fun _ => True)).
    apply run_all_keeps; [typeclasses eauto |]. apply call_keeps_documents.
Qed.

End SystemFacts.


(* ------------------------------------------------------------------ *)
(** ** The ingestion orchestrator, step by step *)

Module IngestionFacts.
Import Store Run Registry Ingestion System SystemFacts AuditChain Json PyStr.

Lemma bind_unfold {A B : Type} (c : M A) (k : A -> M B) (st : state) :
  bind c k st
  = match c st with
    | (Ok a, st') => k a st'
    | (Raise e, st') => (Raise e, st')
    end.
Proof. reflexivity. Qed.

(** One step of a run: the first call of a sequence is replaced by its
    result. *)
Ltac run1 :=
  match goal with
  | |- context [bind uuid4 ?k ?s] =>
      rewrite (bind_ok uuid4 k s (draw s) (uuids s (drawn s)) eq_refl)
  | |- context [bind (query ?f) ?k ?s] =>
      rewrite (bind_ok (query f) k s s (f s) eq_refl)
  | |- context [bind (ret ?a) ?k ?s] =>
      rewrite (bind_ok (ret a) k s s a eq_refl)
  | |- context [bind (@raise ?A ?e) ?k ?s] =>
      rewrite (bind_raise (@raise A e) k s s e eq_refl)
  | |- context [bind (execute ?f) ?k ?s] =>
      rewrite (bind_ok (execute f) k s (tick (f s)) tt eq_refl)
  | |- context [bind (Audit.write ?a ?b ?c ?d ?e ?f ?g) ?k ?s] =>
      rewrite (bind_ok _ k s _ _ (write_run a b c d e f g s))
  end; cbv beta.

(** The log of [st'] starts with the log of [st]. *)
Definition audit_grows (st st' : state) : Prop :=
  exists more, audit_log st' = (audit_log st ++ more)%list.

#[local] Instance audit_grows_preorder : PreOrder audit_grows.
Proof.
  split.
  - intros st. exists []. now rewrite app_nil_r.
  - intros a b c [l1 H1] [l2 H2]. exists (l1 ++ l2)%list.
    now rewrite H2, H1, app_assoc.
Qed.

Ltac audit_leaf :=
  try match goal with
      | |- context [if ?c then _ else _] => destruct c
      end;
  first
    [ exists []; cbn; now rewrite app_nil_r
    | eexists [_]; cbn; reflexivity ].

(** C9 (as the code has it): the orchestrator draws the correlation_id,
    then enforces the required fields and the size limit, and writes the
    REQUEST.RECEIVED audit event only when both pass.  A request with a
    missing required field or an oversized payload is rejected with
    status 400 and leaves every table, the audit log included, as it was;
    a request that passes has REQUEST.RECEIVED, under the correlation_id
    drawn first, as the first row it adds to the audit log. *)
Theorem validation_precedes_request_received (cfg : settings)
    (pdf_bytes : Sha256.bytes) (meta : Meta.t) (actor : string)
    (force_new_version : bool) (st : state) :
  let r := ingest_request cfg pdf_bytes meta actor force_new_version st in
  let rules := active_rules cfg st in
  let max_mb := max_mb_of cfg rules in
  match Rules.enforce_upload_rules rules (Meta.get meta) with
  | inl e =>
      r = (Raise e, draw st)
      /\ Rules.status_code e = 400%Z
      /\ audit_log (snd r) = audit_log st
  | inr _ =>
      if too_large max_mb pdf_bytes then
        r = (Raise (Rules.PdfTooLarge max_mb), draw st)
        /\ Rules.status_code (Rules.PdfTooLarge max_mb) = 400%Z
        /\ audit_log (snd r) = audit_log st
      else
        exists row more,
          audit_log (snd r) = (audit_log st ++ row :: more)%list
          /\ Aud.action row = "EPIC1.REQUEST.RECEIVED"
          /\ Aud.entity_type row = "system"
          /\ Aud.entity_id row = "epic1"
          /\ Aud.actor row = actor
          /\ Aud.correlation_id row = uuids st (drawn st)
          /\ Aud.event_id row = uuids st (S (drawn st))
  end.
Proof.
  intros r rules max_mb. subst r. unfold ingest_request, _rules.
  do 2 run1.
  change (active_rules cfg (draw st)) with rules.
  destruct (Rules.enforce_upload_rules rules (Meta.get meta)) as [e | u].
  - split; [reflexivity |]. split; [now destruct e | reflexivity].
  - run1. change (max_mb_of cfg (active_rules cfg (draw st))) with max_mb.
    destruct (too_large max_mb pdf_bytes).
    + repeat split.
    + run1.
      match goal with
      | |- exists row more, audit_log (snd (?c ?s)) = _ /\ _ =>
          assert (K : keeps audit_grows c)
            by (unfold_calls; unfold_updates;
                keeps_auto (fail) (audit_leaf));
          destruct (K s) as [more Hmore]
      end.
      eexists _, more. split; [rewrite Hmore; cbn; now rewrite <- app_assoc |].
      repeat split.
Qed.

(** *** The orchestrator in three parts

    The body of [ingest_request] after the dedupe decision, cut where the
    version row exists ([attach]) and where the file is attached
    ([finish]); [ingest_request_parts] shows that they are the body. *)

Section Parts.

Variable cfg : settings.

Definition finish (meta : Meta.t)
    (version_id actor correlation_id document_id file_id sha : string)
    (evidence_row : option Ev.row) (force_new_version created_new_doc : bool)
    (primary_axis_source_out : option string) : M Response.t :=
  bind (supersede_parent meta version_id actor correlation_id) (fun _ =>
  bind (Audit.write "version" version_id "EPIC1.REGISTRY.VERSION_CREATED"
          actor correlation_id
          (JDict [("document_id", JStr document_id);
                  ("file_id", JStr file_id);
                  ("raw_sha256", JStr sha)]) true) (fun _ =>
  bind (llm_suggestion cfg meta version_id actor correlation_id)
    (fun primary_axis_suggestion =>
  ret {| Response.http_status := 201;
         Response.ingestion_status :=
           match evidence_row, force_new_version with
           | Some _, true => "CREATED_NEW_VERSION_REUSED_FILE"
           | _, _ => if created_new_doc
                     then "CREATED_NEW_DOCUMENT_AND_VERSION"
                     else "CREATED_NEW_VERSION"
           end;
         Response.correlation_id := correlation_id;
         Response.document_id := document_id;
         Response.version_id := version_id;
         Response.file_id := file_id;
         Response.sha256 := sha;
         Response.primary_axis_source := primary_axis_source_out;
         Response.primary_axis_suggestion := primary_axis_suggestion |}))).

Definition attach (pdf_bytes : Sha256.bytes) (meta : Meta.t)
    (actor correlation_id document_id sha : string)
    (force_new_version created_new_doc : bool)
    (primary_axis_source_out : option string) (version_id : string)
  : M Response.t :=
  bind (Evidence.find_by_sha sha) (fun evidence_row =>
  bind (match evidence_row, force_new_version with
        | Some row, true => ret (Ev.file_id row)
        | _, _ =>
            bind (Evidence.create_evidence sha pdf_bytes document_id
                    version_id) (fun r => ret (fst (fst r)))
        end) (fun file_id =>
  bind (Registry.set_version_file_id version_id file_id) (fun _ =>
  finish meta version_id actor correlation_id document_id file_id sha
    evidence_row force_new_version created_new_doc
    primary_axis_source_out))).

Definition after_dedupe (pdf_bytes : Sha256.bytes) (meta : Meta.t)
    (actor : string) (force_new_version : bool) (correlation_id : string)
  : M Response.t :=
  let sha := sha256_bytes pdf_bytes in
  let '(primary_axis_value, primary_axis_source, meta) :=
    resolve_primary_axis meta in
  bind (Registry.find_document_by_metadata (Meta.title meta)
          (Meta.jurisdiction meta) (Meta.regulation_family meta)
          (Meta.instrument_type meta)) (fun doc =>
  bind (match doc with
        | Some d =>
            if primary_axis_mismatch meta d then
              raise (Rules.PrimaryAxisMismatch
                       (or_empty (Doc.primary_axis d))
                       (or_empty (Meta.primary_axis meta)))
            else ret (Doc.document_id d, false, Doc.primary_axis_source d)
        | None =>
            bind (Registry.create_document (Meta.title meta)
                    (Meta.jurisdiction meta) (Meta.regulation_family meta)
                    (Meta.instrument_type meta) primary_axis_value
                    primary_axis_source) (fun document_id =>
            ret (document_id, true, Some primary_axis_source))
        end) (fun found =>
  let '(document_id, created_new_doc, primary_axis_source_out) := found in
  bind (Registry.create_version document_id (Meta.tenant_id meta)
          (Meta.effective_year meta) actor sha (Meta.version_label meta)
          (Meta.effective_date meta) (Meta.parent_version_id meta) None
          "PENDING")
    (attach pdf_bytes meta actor correlation_id document_id sha
       force_new_version created_new_doc primary_axis_source_out))).

(** The store when the dedupe decision is taken: the three audit rows
    are written. *)
Definition checked (pdf_bytes : Sha256.bytes) (meta : Meta.t)
    (actor : string) (force_new_version : bool) (st : state) : state :=
  let correlation_id := uuids st (drawn st) in
  let sha := sha256_bytes pdf_bytes in
  written "system" "epic1" "EPIC1.DEDUP.CHECKED" actor correlation_id
    (JDict [("raw_sha256", JStr sha)]) true
    (written "system" "epic1" "EPIC1.FINGERPRINT.COMPUTED" actor
       correlation_id (JDict [("raw_sha256", JStr sha)]) true
       (written "system" "epic1" "EPIC1.REQUEST.RECEIVED" actor
          correlation_id
          (JDict [("meta", Meta.to_json meta);
                  ("force_new_version", JBool force_new_version)]) true
          (draw st))).

(** The answer of the dedupe shortcut. *)
Definition dedupe_response (correlation_id : string) (ex : Existing.t)
    (st : state) : Response.t :=
  {| Response.http_status := 200;
     Response.ingestion_status := "DEDUP_RETURN_EXISTING";
     Response.correlation_id := correlation_id;
     Response.document_id := Existing.document_id ex;
     Response.version_id := Existing.version_id ex;
     Response.file_id := Existing.file_id ex;
     Response.sha256 := Existing.sha256 ex;
     Response.primary_axis_source :=
       match document_with_id (Existing.document_id ex) st with
       | Some d => Doc.primary_axis_source d
       | None => None
       end;
     Response.primary_axis_suggestion := None |}.

Lemma ingest_request_parts (pdf_bytes : Sha256.bytes) (meta : Meta.t)
    (actor : string) (force_new_version : bool) (st : state) :
  ingest_request cfg pdf_bytes meta actor force_new_version st
  = let rules := active_rules cfg st in
    let correlation_id := uuids st (drawn st) in
    let sha := sha256_bytes pdf_bytes in
    let st3 := checked pdf_bytes meta actor force_new_version st in
    match Rules.enforce_upload_rules rules (Meta.get meta) with
    | inl e => (Raise e, draw st)
    | inr _ =>
        if too_large (max_mb_of cfg rules) pdf_bytes then
          (Raise (Rules.PdfTooLarge (max_mb_of cfg rules)), draw st)
        else
          match dedupe_match sha meta st, force_new_version with
          | Some ex, false =>
              (Ok (dedupe_response correlation_id ex st),
               written "version" (Existing.version_id ex)
                 "EPIC1.DEDUP.SHORTCIRCUIT_RETURNED" actor correlation_id
                 (JDict [("raw_sha256", JStr sha)]) true st3)
          | _, _ =>
              after_dedupe pdf_bytes meta actor force_new_version
                correlation_id st3
          end
    end.
Proof.
  cbv zeta. unfold ingest_request, _rules, _dedupe_match_existing.
  do 2 run1.
  change (active_rules cfg (draw st)) with (active_rules cfg st).
  destruct (Rules.enforce_upload_rules (active_rules cfg st) (Meta.get meta));
    [reflexivity |].
  run1. change (active_rules cfg (draw st)) with (active_rules cfg st).
  destruct (too_large (max_mb_of cfg (active_rules cfg st)) pdf_bytes);
    [reflexivity |].
  do 4 run1.
  match goal with
  | |- context [dedupe_match ?s ?m ?big] =>
      change (dedupe_match s m big) with (dedupe_match s m st)
  end.
  destruct (dedupe_match (sha256_bytes pdf_bytes) meta st) as [ex |];
    destruct force_new_version.
  - reflexivity.
  - do 2 run1. reflexivity.
  - reflexivity.
  - reflexivity.
Qed.

End Parts.

(** *** The mismatch guard *)

(** The primary axis the guard compares with the stored one: the
    caller's value as supplied when it is not blank, the derived value
    otherwise. *)
Definition compared_primary_axis (meta : Meta.t) : string :=
  if primary_axis_supplied meta then or_empty (Meta.primary_axis meta)
  else fst (Rules.derive_primary_axis_deterministic
              (Some (Meta.jurisdiction meta)) (Some (Meta.title meta))
              (Some (Meta.regulation_family meta))
              (Some (Meta.instrument_type meta))).

Lemma derive_truthy (j t f i : option string) :
  truthy (fst (Rules.derive_primary_axis_deterministic j t f i)) = true.
Proof.
  unfold Rules.derive_primary_axis_deterministic.
  destruct (Rules.jurisdiction_given j); [reflexivity |].
  destruct (Rules.any_keyword _ Rules.product_keywords); [reflexivity |].
  destruct (Rules.any_keyword _ Rules.theme_keywords); reflexivity.
Qed.

Lemma compared_truthy (meta : Meta.t) :
  truthy (compared_primary_axis meta) = true.
Proof.
  unfold compared_primary_axis, primary_axis_supplied.
  destruct (Meta.primary_axis meta) as [s |]; [| apply derive_truthy].
  destruct (truthy s) eqn:E; cbn [andb]; [| apply derive_truthy].
  destruct (truthy (strip s)); [| apply derive_truthy].
  now rewrite or_empty_some.
Qed.

(** Resolving the axis writes nothing but [primary_axis] back. *)
Lemma resolve_meta (meta : Meta.t) :
  let meta' := snd (resolve_primary_axis meta) in
  Meta.title meta' = Meta.title meta
  /\ Meta.jurisdiction meta' = Meta.jurisdiction meta
  /\ Meta.regulation_family meta' = Meta.regulation_family meta
  /\ Meta.instrument_type meta' = Meta.instrument_type meta
  /\ Meta.primary_axis meta' = Some (compared_primary_axis meta).
Proof.
  unfold resolve_primary_axis, compared_primary_axis.
  destruct (primary_axis_supplied meta) eqn:E.
  - cbn. repeat split. unfold primary_axis_supplied in E.
    destruct (Meta.primary_axis meta) as [s |]; [| discriminate].
    now rewrite or_empty_some.
  - destruct (Rules.derive_primary_axis_deterministic _ _ _ _)
      as [value source]. cbn. repeat split.
Qed.

(** The guard reads [meta["primary_axis"]] as it stands when the
    document is looked up: when that value and the stored one are not
    empty and differ, the request is rejected and nothing but the three
    audit rows is written. *)
Lemma mismatch_guard_fires (cfg : settings)
    (pdf_bytes : Sha256.bytes) (meta : Meta.t) (actor : string)
    (force_new_version : bool) (st : state) (d : Doc.row)
    (stored : string) :
  Rules.enforce_upload_rules (active_rules cfg st) (Meta.get meta) = inr tt ->
  too_large (max_mb_of cfg (active_rules cfg st)) pdf_bytes = false ->
  force_new_version = true
  \/ dedupe_match (sha256_bytes pdf_bytes) meta st = None ->
  document_with_metadata (Meta.title meta) (Meta.jurisdiction meta)
    (Meta.regulation_family meta) (Meta.instrument_type meta) st = Some d ->
  Doc.primary_axis d = Some stored ->
  stored <> "" ->
  compared_primary_axis meta <> stored ->
  let r := ingest_request cfg pdf_bytes meta actor force_new_version st in
  let e := Rules.PrimaryAxisMismatch stored (compared_primary_axis meta) in
  fst r = Raise e
  /\ Rules.status_code e = 400%Z
  /\ documents (snd r) = documents st
  /\ document_versions (snd r) = document_versions st
  /\ evidence_files (snd r) = evidence_files st
  /\ primary_axis_suggestions (snd r) = primary_axis_suggestions st
  /\ objects (snd r) = objects st
  /\ exists rows,
       audit_log (snd r) = (audit_log st ++ rows)%list
       /\ map Aud.action rows
          = ["EPIC1.REQUEST.RECEIVED"; "EPIC1.FINGERPRINT.COMPUTED";
             "EPIC1.DEDUP.CHECKED"].
Proof.
  intros Hrules Hsize Hnd Hdoc Hstored Hne Hdiff r e. subst r e.
  rewrite ingest_request_parts. cbv zeta. rewrite Hrules, Hsize.
  assert (Hrun :
    match dedupe_match (sha256_bytes pdf_bytes) meta st, force_new_version
    with
    | Some ex, false =>
        (Ok (dedupe_response (uuids st (drawn st)) ex st),
         written "version" (Existing.version_id ex)
           "EPIC1.DEDUP.SHORTCIRCUIT_RETURNED" actor (uuids st (drawn st))
           (JDict [("raw_sha256", JStr (sha256_bytes pdf_bytes))]) true
           (checked pdf_bytes meta actor force_new_version st))
    | _, _ =>
        after_dedupe cfg pdf_bytes meta actor force_new_version
          (uuids st (drawn st))
          (checked pdf_bytes meta actor force_new_version st)
    end
    = (Raise (Rules.PrimaryAxisMismatch stored (compared_primary_axis meta)),
       checked pdf_bytes meta actor force_new_version st)).
  { assert (Hafter :
      after_dedupe cfg pdf_bytes meta actor force_new_version
        (uuids st (drawn st))
        (checked pdf_bytes meta actor force_new_version st)
      = (Raise (Rules.PrimaryAxisMismatch stored
                  (compared_primary_axis meta)),
         checked pdf_bytes meta actor force_new_version st)).
    { unfold after_dedupe. cbv zeta.
      destruct (resolve_meta meta) as (Ht & Hj & Hf & Hi & Hpa).
      destruct (resolve_primary_axis meta) as [[value source] meta'].
      cbn [snd] in Ht, Hj, Hf, Hi, Hpa.
      unfold find_document_by_metadata. run1.
      match goal with
      | |- context [document_with_metadata ?a ?b ?c ?i ?big] =>
          change (document_with_metadata a b c i big)
            with (document_with_metadata a b c i st)
      end.
      rewrite Ht, Hj, Hf, Hi, Hdoc.
      assert (Hmis : primary_axis_mismatch meta' d = true).
      { unfold primary_axis_mismatch. rewrite Hpa, Hstored.
        cbn [truthy_opt]. rewrite !or_empty_some, compared_truthy.
        destruct stored as [| c s]; [now elim Hne |]. cbn [truthy andb].
        apply negb_true_iff. now apply String.eqb_neq. }
      rewrite Hmis. run1. rewrite Hpa, Hstored, !or_empty_some.
      reflexivity. }
    destruct Hnd as [-> | ->];
      [destruct (dedupe_match (sha256_bytes pdf_bytes) meta st) |];
      exact Hafter. }
  rewrite Hrun. cbn [fst snd].
  split; [reflexivity |]. split; [reflexivity |].
  split; [reflexivity |]. split; [reflexivity |].
  split; [reflexivity |]. split; [reflexivity |].
  split; [reflexivity |].
  eexists [_; _; _]. split.
  - unfold checked, written. cbn [audit_log tick set_audit_log draw].
    rewrite <- !app_assoc. reflexivity.
  - reflexivity.
Qed.

(** The resolved primary_axis: the caller's value stripped when it is
    not blank, the derived value otherwise. *)
Definition resolved_primary_axis (meta : Meta.t) : string :=
  fst (fst (resolve_primary_axis meta)).

Lemma resolved_of_compared (meta : Meta.t) :
  resolved_primary_axis meta
  = if primary_axis_supplied meta then strip (compared_primary_axis meta)
    else compared_primary_axis meta.
Proof.
  unfold resolved_primary_axis, resolve_primary_axis, compared_primary_axis.
  destruct (primary_axis_supplied meta); [reflexivity |].
  now destruct (Rules.derive_primary_axis_deterministic _ _ _ _).
Qed.

(** A resolved value that differs from a stored value without
    surrounding whitespace comes from a value of the request that
    differs from it too. *)
Lemma compared_differs (meta : Meta.t) (stored : string) :
  strip stored = stored ->
  resolved_primary_axis meta <> stored ->
  compared_primary_axis meta <> stored.
Proof.
  intros Hs Hr Hc. apply Hr. rewrite resolved_of_compared, Hc.
  now destruct (primary_axis_supplied meta).
Qed.

(** [strip] leaves a stripped string as it is. *)
Lemma rstrip_cons (c : ascii) (s : string) :
  rstrip (String c s)
  = match rstrip s with
    | EmptyString => if isspace c then EmptyString else String c EmptyString
    | r => String c r
    end.
Proof. reflexivity. Qed.

Lemma rstrip_idem (s : string) : rstrip (rstrip s) = rstrip s.
Proof.
  induction s as [|c s IH]; [reflexivity |].
  rewrite rstrip_cons. destruct (rstrip s) as [|a r] eqn:E.
  - destruct (isspace c) eqn:Ec; [reflexivity |].
    rewrite rstrip_cons. cbn [rstrip]. now rewrite Ec.
  - rewrite rstrip_cons, IH. reflexivity.
Qed.

Lemma lstrip_head (s : string) :
  lstrip s = ""
  \/ exists c t, lstrip s = String c t /\ isspace c = false.
Proof.
  induction s as [|c s IH]; [now left |].
  cbn [lstrip]. destruct (isspace c) eqn:E; [exact IH |].
  right. now exists c, s.
Qed.

Lemma strip_idem (s : string) : strip (strip s) = strip s.
Proof.
  unfold strip.
  destruct (lstrip_head s) as [-> | (c & t & -> & Hc)]; [reflexivity |].
  assert (Hhead : exists u, rstrip (String c t) = String c u).
  { rewrite rstrip_cons. destruct (rstrip t) as [|a r].
    - rewrite Hc. now exists "".
    - now exists (String a r). }
  destruct Hhead as [u Hu]. rewrite Hu. cbn [lstrip]. rewrite Hc.
  rewrite <- Hu. apply rstrip_idem.
Qed.

(** The resolved value is not empty and has no surrounding
    whitespace. *)
Lemma resolved_stripped (meta : Meta.t) :
  strip (resolved_primary_axis meta) = resolved_primary_axis meta
  /\ resolved_primary_axis meta <> "".
Proof.
  unfold resolved_primary_axis, resolve_primary_axis.
  destruct (primary_axis_supplied meta) eqn:E.
  - cbn [fst]. split; [apply strip_idem |].
    unfold primary_axis_supplied in E.
    destruct (Meta.primary_axis meta) as [s |]; [| discriminate].
    rewrite or_empty_some.
    destruct (truthy s); [| discriminate]. cbn [andb] in E.
    intros H. rewrite H in E. discriminate.
  - unfold Rules.derive_primary_axis_deterministic.
    destruct (Rules.jurisdiction_given _);
      [split; [reflexivity | discriminate] |].
    destruct (Rules.any_keyword _ Rules.product_keywords);
      [split; [reflexivity | discriminate] |].
    destruct (Rules.any_keyword _ Rules.theme_keywords);
      split; try reflexivity; discriminate.
Qed.

(** So is the primary_axis of every document a request stores. *)
Lemma ingest_request_stores_stripped_axis (cfg : settings)
    (pdf_bytes : Sha256.bytes) (meta : Meta.t) (actor : string)
    (force_new_version : bool) (st : state) :
  exists added,
    documents (snd (ingest_request cfg pdf_bytes meta actor
                      force_new_version st))
    = (documents st ++ added)%list
    /\ Forall (fun d => exists stored,
                          Doc.primary_axis d = Some stored
                          /\ strip stored = stored /\ stored <> "") added.
Proof.
  destruct (ingest_keeps_created_by cfg pdf_bytes meta actor
              force_new_version st) as [added [H Hall]].
  exists added. split; [exact H |].
  apply (Forall_impl _ (P := created_by meta)); [| exact Hall].
  intros d [Hd _]. exists (resolved_primary_axis meta).
  split; [exact Hd | apply resolved_stripped].
Qed.

(** C5 (amended): an upload that passes validation, is not answered by
    the dedupe shortcut, names the metadata of an existing document
    whose stored primary_axis is not empty and has no surrounding
    whitespace, and whose resolved primary_axis (caller-supplied and
    stripped, or derived when the caller left it blank) differs from
    the stored one, is rejected with status 400 by the mismatch guard;
    the documents, versions, evidence rows, suggestions and stored
    objects are as before, and only the three audit rows
    REQUEST.RECEIVED, FINGERPRINT.COMPUTED and DEDUP.CHECKED are
    added. *)
Theorem primary_axis_mismatch_rejected (cfg : settings)
    (pdf_bytes : Sha256.bytes) (meta : Meta.t) (actor : string)
    (force_new_version : bool) (st : state) (d : Doc.row)
    (stored : string) :
  Rules.enforce_upload_rules (active_rules cfg st) (Meta.get meta) = inr tt ->
  too_large (max_mb_of cfg (active_rules cfg st)) pdf_bytes = false ->
  force_new_version = true
  \/ dedupe_match (sha256_bytes pdf_bytes) meta st = None ->
  document_with_metadata (Meta.title meta) (Meta.jurisdiction meta)
    (Meta.regulation_family meta) (Meta.instrument_type meta) st = Some d ->
  Doc.primary_axis d = Some stored ->
  stored <> "" ->
  strip stored = stored ->
  resolved_primary_axis meta <> stored ->
  let r := ingest_request cfg pdf_bytes meta actor force_new_version st in
  (exists provided,
     fst r = Raise (Rules.PrimaryAxisMismatch stored provided)
     /\ Rules.status_code (Rules.PrimaryAxisMismatch stored provided)
        = 400%Z)
  /\ documents (snd r) = documents st
  /\ document_versions (snd r) = document_versions st
  /\ evidence_files (snd r) = evidence_files st
  /\ primary_axis_suggestions (snd r) = primary_axis_suggestions st
  /\ objects (snd r) = objects st
  /\ exists rows,
       audit_log (snd r) = (audit_log st ++ rows)%list
       /\ map Aud.action rows
          = ["EPIC1.REQUEST.RECEIVED"; "EPIC1.FINGERPRINT.COMPUTED";
             "EPIC1.DEDUP.CHECKED"].
Proof.
  intros Hrules Hsize Hnd Hdoc Hstored Hne Hstrip Hdiff.
  destruct (mismatch_guard_fires cfg pdf_bytes meta actor force_new_version
              st d stored Hrules Hsize Hnd Hdoc Hstored Hne
              (compared_differs meta stored Hstrip Hdiff))
    as (H1 & H2 & H3).
  cbv zeta. split; [| exact H3].
  exists (compared_primary_axis meta). now split.
Qed.

(** *** Attaching the evidence file *)

Lemma bind_bind {A B C : Type} (c : M A) (k1 : A -> M B) (k2 : B -> M C)
    (st : state) :
  bind (bind c k1) k2 st = bind c (fun a => bind (k1 a) k2) st.
Proof. unfold bind. now destruct (c st) as [[a | e] st']. Qed.

Lemma put_run (key : string) (data : Sha256.bytes) (st : state) :
  put_bytes_write_once key data st
  = (Ok (uri_prefix st ++ key), snd (put_bytes_write_once key data st)).
Proof.
  unfold put_bytes_write_once. now destruct (existsb _ (objects st)).
Qed.

(** The object store aside, [put_bytes_write_once] leaves the store as
    it is. *)
Lemma put_tables (key : string) (data : Sha256.bytes) (st : state) :
  let st' := snd (put_bytes_write_once key data st) in
  evidence_files st' = evidence_files st
  /\ document_versions st' = document_versions st
  /\ clock st' = clock st.
Proof.
  unfold put_bytes_write_once. now destruct (existsb _ (objects st)).
Qed.

(** The version row keeps what identifies it. *)
Definition same_ids (v v' : Ver.row) : Prop :=
  Ver.version_id v' = Ver.version_id v
  /\ Ver.document_id v' = Ver.document_id v
  /\ Ver.raw_sha256 v' = Ver.raw_sha256 v
  /\ Ver.file_id v' = Ver.file_id v.

(** What [finish] keeps: the evidence rows, and each version row in
    place with its identifiers and its file. *)
Definition finish_keeps (st st' : state) : Prop :=
  evidence_files st' = evidence_files st
  /\ Forall2 same_ids (document_versions st) (document_versions st').

Lemma Forall2_same_ids_refl (l : list Ver.row) : Forall2 same_ids l l.
Proof. induction l; constructor; [repeat split | assumption]. Qed.

Lemma Forall2_compose {A : Type} (R1 R2 R3 : A -> A -> Prop) :
  (forall a b c, R1 a b -> R2 b c -> R3 a c) ->
  forall l1 l2 l3,
    Forall2 R1 l1 l2 -> Forall2 R2 l2 l3 -> Forall2 R3 l1 l3.
Proof.
  intros H l1. induction l1 as [|x l1 IH]; intros l2 l3 H12 H23.
  - inversion H12; subst. inversion H23; subst. constructor.
  - inversion H12 as [|? y ? l2' Hxy H12']; subst.
    inversion H23 as [|? z ? l3' Hyz H23']; subst.
    constructor; [now apply H with y | now apply IH with l2'].
Qed.

Lemma Forall2_singleton {A : Type} (R : A -> A -> Prop) (x : A)
    (l : list A) :
  Forall2 R [x] l -> exists y, l = [y] /\ R x y.
Proof.
  intros H. inversion H as [|? y ? rest Hxy Hnil]; subst.
  inversion Hnil; subst. now exists y.
Qed.

#[local] Instance finish_keeps_preorder : PreOrder finish_keeps.
Proof.
  split.
  - intros st. split; [reflexivity | apply Forall2_same_ids_refl].
  - intros a b c [E1 F1] [E2 F2]. split; [congruence |].
    apply (Forall2_compose same_ids same_ids same_ids)
      with (document_versions b); try assumption.
    intros x y z (H1 & H2 & H3 & H4) (G1 & G2 & G3 & G4).
    repeat split; congruence.
Qed.

Lemma mark_parent_superseded_finish_keeps (id : string) :
  keeps finish_keeps (mark_parent_superseded id).
Proof.
  unfold mark_parent_superseded, update_versions. apply keeps_execute.
  intros st. split; [reflexivity |]. cbn.
  induction (document_versions st) as [|v l IH]; simpl; constructor;
    [| exact IH].
  destruct (_ && _); repeat split.
Qed.

Ltac finish_known :=
  match goal with
  | |- keeps _ (mark_parent_superseded _) =>
      apply mark_parent_superseded_finish_keeps
  end.

Ltac finish_leaf :=
  try match goal with
      | |- context [if ?c then _ else _] => destruct c
      end;
  (split; [reflexivity | exact (Forall2_same_ids_refl _)]).

Section Attach.

Variable cfg : settings.

Lemma finish_keeps_rows (meta : Meta.t)
    (version_id actor correlation_id document_id file_id sha : string)
    (evidence_row : option Ev.row) (force_new_version created_new_doc : bool)
    (source_out : option string) :
  keeps finish_keeps
    (finish cfg meta version_id actor correlation_id document_id file_id sha
       evidence_row force_new_version created_new_doc source_out).
Proof.
  unfold finish. unfold_calls. keeps_auto (idtac; finish_known) (finish_leaf).
Qed.

(** [finish] never raises, and returns the response of a created
    version. *)
Lemma finish_returns (meta : Meta.t)
    (version_id actor correlation_id document_id file_id sha : string)
    (evidence_row : option Ev.row) (force_new_version created_new_doc : bool)
    (source_out : option string) (st : state) :
  exists resp,
    fst (finish cfg meta version_id actor correlation_id document_id file_id
           sha evidence_row force_new_version created_new_doc source_out st)
    = Ok resp
    /\ Response.http_status resp = 201%Z
    /\ Response.ingestion_status resp
       = match evidence_row, force_new_version with
         | Some _, true => "CREATED_NEW_VERSION_REUSED_FILE"
         | _, _ => if created_new_doc
                   then "CREATED_NEW_DOCUMENT_AND_VERSION"
                   else "CREATED_NEW_VERSION"
         end
    /\ Response.document_id resp = document_id
    /\ Response.version_id resp = version_id
    /\ Response.file_id resp = file_id
    /\ Response.sha256 resp = sha.
Proof.
  unfold finish, supersede_parent, llm_suggestion,
    mark_parent_superseded, update_versions,
    upsert_primary_axis_suggestion.
  destruct (truthy_opt (Meta.parent_version_id meta));
    destruct (ENABLE_LLM_PRIMARY_AXIS_SUGGESTION cfg);
    try destruct (_suggest_primary_axis meta) as [[suggested confidence]
                                                    details];
    repeat first [rewrite bind_bind | run1];
    eexists; (split; [reflexivity | repeat split]).
Qed.

(** What a row of [document_versions] becomes when the file is attached
    to the version [version_id]. *)
Definition attached (version_id file_id : string) (v v' : Ver.row) : Prop :=
  Ver.version_id v' = Ver.version_id v
  /\ Ver.document_id v' = Ver.document_id v
  /\ Ver.raw_sha256 v' = Ver.raw_sha256 v
  /\ Ver.file_id v'
     = if String.eqb (Ver.version_id v) version_id then Some file_id
       else Ver.file_id v.

(** What an accepted upload that is not a dedupe leaves behind, seen
    from the store [st] it found: a response with status 201, one more
    version row, last, that carries the file of the response, and either
    the evidence rows as they were, the file being the latest one with
    the hash (forced upload of known bytes), or one more evidence row
    under an identifier drawn for it. *)
Definition upload_outcome (sha : string) (force_new_version : bool)
    (st : state) (resp : Response.t) (st' : state) : Prop :=
  Response.http_status resp = 201%Z
  /\ Response.sha256 resp = sha
  /\ (exists kept v,
        document_versions st' = (kept ++ [v])%list
        /\ List.length kept = List.length (document_versions st)
        /\ Ver.version_id v = Response.version_id resp
        /\ Ver.document_id v = Response.document_id resp
        /\ Ver.raw_sha256 v = sha
        /\ Ver.file_id v = Some (Response.file_id resp))
  /\ match Evidence.latest_with_sha sha st, force_new_version with
     | Some row, true =>
         Response.ingestion_status resp = "CREATED_NEW_VERSION_REUSED_FILE"
         /\ Response.file_id resp = Ev.file_id row
         /\ evidence_files st' = evidence_files st
     | _, _ =>
         Response.ingestion_status resp <> "CREATED_NEW_VERSION_REUSED_FILE"
         /\ exists e,
              evidence_files st' = (evidence_files st ++ [e])%list
              /\ Ev.file_id e = Response.file_id resp
              /\ Ev.sha256 e = sha
              /\ Ev.version_id e = Response.version_id resp
              /\ exists k, (drawn st <= k)%nat
                           /\ Response.file_id resp = uuids st k
     end.

Lemma upload_outcome_transfer (sha : string) (force_new_version : bool)
    (st0 st : state) (resp : Response.t) (st' : state) :
  evidence_files st = evidence_files st0 ->
  List.length (document_versions st) = List.length (document_versions st0) ->
  uuids st = uuids st0 ->
  (drawn st0 <= drawn st)%nat ->
  upload_outcome sha force_new_version st resp st' ->
  upload_outcome sha force_new_version st0 resp st'.
Proof.
  intros He Hv Hu Hd (H1 & H2 & (kept & v & Hk) & H4).
  split; [assumption |]. split; [assumption |]. split.
  - exists kept, v. rewrite <- Hv. exact Hk.
  - unfold Evidence.latest_with_sha in *. rewrite He in H4.
    destruct (hd_error _) as [row |]; [destruct force_new_version |].
    + exact H4.
    + destruct H4 as (Hs & e & G1 & G2 & G3 & G4 & k & Gk & Gu).
      split; [assumption |]. exists e. rewrite <- Hu.
      repeat split; try assumption. exists k. split; [lia | assumption].
    + destruct H4 as (Hs & e & G1 & G2 & G3 & G4 & k & Gk & Gu).
      split; [assumption |]. exists e. rewrite <- Hu.
      repeat split; try assumption. exists k. split; [lia | assumption].
Qed.

Lemma status_not_reused (created_new_doc : bool) :
  (if created_new_doc then "CREATED_NEW_DOCUMENT_AND_VERSION"
   else "CREATED_NEW_VERSION") <> "CREATED_NEW_VERSION_REUSED_FILE".
Proof. destruct created_new_doc; discriminate. Qed.

Lemma attach_rows (version_id file_id : string) (now : timestamp)
    (l : list Ver.row) (l' : list Ver.row) :
  Forall2 same_ids
    (map (fun v =>
            if String.eqb (Ver.version_id v) version_id then
              {| Ver.version_id := Ver.version_id v;
                 Ver.document_id := Ver.document_id v;
                 Ver.version_label := Ver.version_label v;
                 Ver.effective_date := Ver.effective_date v;
                 Ver.status := Ver.status v;
                 Ver.parent_version_id := Ver.parent_version_id v;
                 Ver.tenant_id := Ver.tenant_id v;
                 Ver.effective_year := Ver.effective_year v;
                 Ver.uploaded_by := Ver.uploaded_by v;
                 Ver.raw_sha256 := Ver.raw_sha256 v;
                 Ver.file_id := Some file_id;
                 Ver.uploaded_at := Some now;
                 Ver.updated_at := Some now;
                 Ver.artifacts_json := Ver.artifacts_json v |}
            else v) l) l' ->
  Forall2 (attached version_id file_id) l l'.
Proof.
  revert l'. induction l as [|v l IH]; intros l' H; simpl in H.
  - inversion H. constructor.
  - inversion H as [|? v' ? l'' (H1 & H2 & H3 & H4) Hrest]; subst.
    constructor; [| now apply IH].
    unfold attached.
    destruct (String.eqb (Ver.version_id v) version_id); simpl in *;
      repeat split; assumption.
Qed.

Lemma attach_rows_update (version_id file_id : string) (st : state)
    (l' : list Ver.row) :
  Forall2 same_ids
    (document_versions (snd (set_version_file_id version_id file_id st)))
    l' ->
  Forall2 (attached version_id file_id) (document_versions st) l'.
Proof. apply attach_rows. Qed.

Lemma create_evidence_run (sha : string) (pdf_bytes : Sha256.bytes)
    (document_id version_id : string) (st : state) :
  exists key uri e st1,
    Evidence.create_evidence sha pdf_bytes document_id version_id st
    = (Ok (uuids st (drawn st), key, uri), st1)
    /\ evidence_files st1 = (evidence_files st ++ [e])%list
    /\ Ev.file_id e = uuids st (drawn st)
    /\ Ev.sha256 e = sha
    /\ Ev.version_id e = version_id
    /\ document_versions st1 = document_versions st.
Proof.
  set (key := "evidence/" ++ document_id ++ "/" ++ version_id ++ "/"
              ++ uuids st (drawn st) ++ ".pdf").
  set (st' := snd (put_bytes_write_once key pdf_bytes (draw st))).
  destruct (put_tables key pdf_bytes (draw st)) as (He & Hv & _).
  fold st' in He, Hv.
  exists key, (uri_prefix (draw st) ++ key),
    {| Ev.file_id := uuids st (drawn st);
       Ev.version_id := version_id;
       Ev.sha256 := sha;
       Ev.mime_type := "application/pdf";
       Ev.size_bytes := Z.of_nat (List.length pdf_bytes);
       Ev.storage_uri := uri_prefix (draw st) ++ key;
       Ev.created_at := clock st' |},
    (tick (set_evidence_files
             (evidence_files st' ++
              [{| Ev.file_id := uuids st (drawn st);
                  Ev.version_id := version_id;
                  Ev.sha256 := sha;
                  Ev.mime_type := "application/pdf";
                  Ev.size_bytes := Z.of_nat (List.length pdf_bytes);
                  Ev.storage_uri := uri_prefix (draw st) ++ key;
                  Ev.created_at := clock st' |}]) st')).
  split.
  - unfold Evidence.create_evidence, bind, uuid4. cbv beta iota.
    fold key. rewrite (put_run key pdf_bytes (draw st)). reflexivity.
  - cbn [evidence_files document_versions tick set_evidence_files
           Ev.file_id Ev.sha256 Ev.version_id].
    rewrite He, Hv. repeat split.
Qed.

(** The rest of an upload once the file is known: [st] holds the new
    version row last, the file is attached to it in [st1]. *)
Lemma finish_outcome (meta : Meta.t)
    (version_id actor correlation_id document_id file_id sha : string)
    (evidence_row : option Ev.row) (force_new_version created_new_doc : bool)
    (source_out : option string) (st0 st1 : state) (new : Ver.row)
    (resp : Response.t) :
  document_versions st1 = (document_versions st0 ++ [new])%list ->
  Ver.version_id new = version_id ->
  Ver.document_id new = document_id ->
  Ver.raw_sha256 new = sha ->
  let r := finish cfg meta version_id actor correlation_id document_id
             file_id sha evidence_row force_new_version created_new_doc
             source_out (snd (set_version_file_id version_id file_id st1)) in
  fst r = Ok resp ->
  Response.http_status resp = 201%Z
  /\ Response.sha256 resp = sha
  /\ (exists kept v,
        document_versions (snd r) = (kept ++ [v])%list
        /\ List.length kept = List.length (document_versions st0)
        /\ Ver.version_id v = Response.version_id resp
        /\ Ver.document_id v = Response.document_id resp
        /\ Ver.raw_sha256 v = sha
        /\ Ver.file_id v = Some (Response.file_id resp))
  /\ Response.ingestion_status resp
     = match evidence_row, force_new_version with
       | Some _, true => "CREATED_NEW_VERSION_REUSED_FILE"
       | _, _ => if created_new_doc
                 then "CREATED_NEW_DOCUMENT_AND_VERSION"
                 else "CREATED_NEW_VERSION"
       end
  /\ Response.file_id resp = file_id
  /\ Response.version_id resp = version_id
  /\ evidence_files (snd r) = evidence_files st1.
Proof.
  intros Hv Hid Hdoc Hsha r Hr. subst r.
  set (s1 := snd (set_version_file_id version_id file_id st1)) in *.
  destruct (finish_returns meta version_id actor correlation_id document_id
              file_id sha evidence_row force_new_version created_new_doc
              source_out s1)
    as (resp' & Hfst & R1 & R2 & R3 & R4 & R5 & R6).
  rewrite Hfst in Hr. injection Hr as <-.
  destruct (finish_keeps_rows meta version_id actor correlation_id
              document_id file_id sha evidence_row force_new_version
              created_new_doc source_out s1) as [Kev Krows].
  split; [assumption |]. split; [assumption |]. split.
  - apply attach_rows_update in Krows. rewrite Hv in Krows.
    apply Forall2_app_inv_l in Krows as (kept & last & Hkept & Hlast & Heq).
    apply Forall2_singleton in Hlast as (v & -> & G1 & G2 & G3 & G4).
    exists kept, v. split; [exact Heq |].
    split; [symmetry; now apply Forall2_length in Hkept |].
    rewrite G1, G2, G3, G4, R3, R4, R5, Hid, Hdoc, Hsha, String.eqb_refl.
    auto.
  - repeat split; assumption.
Qed.

(** An upload whose version row is written, run to its end. *)
Lemma attach_outcome (pdf_bytes : Sha256.bytes) (meta : Meta.t)
    (actor correlation_id document_id sha : string)
    (force_new_version created_new_doc : bool)
    (source_out : option string) (version_id : string)
    (st0 st : state) (new : Ver.row) (resp : Response.t) :
  document_versions st = (document_versions st0 ++ [new])%list ->
  Ver.version_id new = version_id ->
  Ver.document_id new = document_id ->
  Ver.raw_sha256 new = sha ->
  evidence_files st = evidence_files st0 ->
  uuids st = uuids st0 ->
  (drawn st0 <= drawn st)%nat ->
  let r := attach cfg pdf_bytes meta actor correlation_id document_id sha
             force_new_version created_new_doc source_out version_id st in
  fst r = Ok resp ->
  upload_outcome sha force_new_version st0 resp (snd r).
Proof.
  intros Hv Hid Hdoc Hsha He Hu Hd r Hr.
  assert (Hlatest : Evidence.latest_with_sha sha st0
                    = Evidence.latest_with_sha sha st)
    by (unfold Evidence.latest_with_sha; now rewrite He).
  unfold upload_outcome. rewrite Hlatest.
  destruct (create_evidence_run sha pdf_bytes document_id version_id st)
    as (key & uri & e & st1 & Hce & E1 & E2 & E3 & E4 & E5).
  destruct (Evidence.latest_with_sha sha st) as [row |] eqn:Erow;
    [destruct force_new_version |].
  - assert (Hatt :
      attach cfg pdf_bytes meta actor correlation_id document_id sha true
        created_new_doc source_out version_id st
      = finish cfg meta version_id actor correlation_id document_id
          (Ev.file_id row) sha (Some row) true created_new_doc source_out
          (snd (set_version_file_id version_id (Ev.file_id row) st))).
    { unfold attach, Evidence.find_by_sha. run1. rewrite Erow. run1.
      unfold set_version_file_id at 1, update_versions at 1. run1.
      reflexivity. }
    subst r. rewrite Hatt in Hr |- *.
    destruct (finish_outcome meta version_id actor correlation_id
                document_id (Ev.file_id row) sha (Some row) true
                created_new_doc source_out st0 st new resp Hv Hid Hdoc Hsha
                Hr)
      as (F1 & F2 & F3 & F4 & F5 & F6 & F7).
    repeat split; try assumption. now rewrite F7.
  - assert (Hatt :
      attach cfg pdf_bytes meta actor correlation_id document_id sha false
        created_new_doc source_out version_id st
      = finish cfg meta version_id actor correlation_id document_id
          (uuids st (drawn st)) sha (Some row) false created_new_doc
          source_out
          (snd (set_version_file_id version_id (uuids st (drawn st)) st1))).
    { unfold attach, Evidence.find_by_sha. run1. rewrite Erow.
      rewrite bind_bind, (bind_ok _ _ _ _ _ Hce). cbn [fst]. run1.
      unfold set_version_file_id at 1, update_versions at 1. run1.
      reflexivity. }
    subst r. rewrite Hatt in Hr |- *.
    destruct (finish_outcome meta version_id actor correlation_id
                document_id (uuids st (drawn st)) sha (Some row) false
                created_new_doc source_out st0 st1 new resp
                ltac:(now rewrite E5) Hid Hdoc Hsha Hr)
      as (F1 & F2 & F3 & F4 & F5 & F6 & F7).
    split; [assumption |]. split; [assumption |]. split; [assumption |].
    split; [rewrite F4; apply status_not_reused |].
    exists e. rewrite F7, E1, He, F5, F6, E2, Hu.
    repeat split; try assumption.
    exists (drawn st). split; [assumption | reflexivity].
  - assert (Hatt :
      attach cfg pdf_bytes meta actor correlation_id document_id sha
        force_new_version created_new_doc source_out version_id st
      = finish cfg meta version_id actor correlation_id document_id
          (uuids st (drawn st)) sha None force_new_version created_new_doc
          source_out
          (snd (set_version_file_id version_id (uuids st (drawn st)) st1))).
    { unfold attach, Evidence.find_by_sha. run1. rewrite Erow.
      rewrite bind_bind, (bind_ok _ _ _ _ _ Hce). cbn [fst]. run1.
      unfold set_version_file_id at 1, update_versions at 1. run1.
      reflexivity. }
    subst r. rewrite Hatt in Hr |- *.
    destruct (finish_outcome meta version_id actor correlation_id
                document_id (uuids st (drawn st)) sha None force_new_version
                created_new_doc source_out st0 st1 new resp
                ltac:(now rewrite E5) Hid Hdoc Hsha Hr)
      as (F1 & F2 & F3 & F4 & F5 & F6 & F7).
    split; [assumption |]. split; [assumption |]. split; [assumption |].
    split; [rewrite F4; apply status_not_reused |].
    exists e. rewrite F7, E1, He, F5, F6, E2, Hu.
    repeat split; try assumption.
    exists (drawn st). split; [assumption | reflexivity].
Qed.

End Attach.

(** *** From the dedupe decision to the end *)

Section Outcome.

Variable cfg : settings.

(** The version row [create_version] writes for a pending version with
    no file: either the parent check raises and nothing is written, or
    the row is added last under a drawn identifier. *)
Lemma create_version_cases (document_id tenant_id : string)
    (effective_year : Z) (uploaded_by raw_sha256 : string)
    (version_label effective_date parent_version_id : option string)
    (st : state) :
  (exists e,
     create_version document_id tenant_id effective_year uploaded_by
       raw_sha256 version_label effective_date parent_version_id None
       "PENDING" st = (Raise e, st))
  \/ (exists new st1,
        create_version document_id tenant_id effective_year uploaded_by
          raw_sha256 version_label effective_date parent_version_id None
          "PENDING" st = (Ok (uuids st (drawn st)), st1)
        /\ document_versions st1 = (document_versions st ++ [new])%list
        /\ Ver.version_id new = uuids st (drawn st)
        /\ Ver.document_id new = document_id
        /\ Ver.raw_sha256 new = raw_sha256
        /\ Ver.status new = "PENDING"
        /\ Ver.file_id new = None
        /\ evidence_files st1 = evidence_files st
        /\ documents st1 = documents st
        /\ uuids st1 = uuids st
        /\ drawn st1 = S (drawn st)).
Proof.
  unfold create_version.
  change (negb (existsb (String.eqb "PENDING") ALLOWED_STATUSES))
    with false.
  cbv iota. run1.
  destruct (truthy_opt parent_version_id).
  - rewrite bind_bind. run1.
    destruct (version_with_id parent_version_id st) as [pv |].
    + destruct (negb (String.eqb (Ver.document_id pv) document_id)).
      * left. run1. now eexists.
      * right. do 3 run1. eexists _, _. split; [reflexivity |].
        repeat split.
    + left. run1. now eexists.
  - right. do 3 run1. eexists _, _. split; [reflexivity |]. repeat split.
Qed.

(** [create_version] accepts the parent it is given: none, or a version
    of the same document. *)
Definition parent_ok (document_id : string)
    (parent_version_id : option string) (st : state) : bool :=
  if truthy_opt parent_version_id then
    match version_with_id parent_version_id st with
    | Some pv => String.eqb (Ver.document_id pv) document_id
    | None => false
    end
  else true.

(** The checks between the dedupe decision and the first write: the
    mismatch guard when the document exists, and the parent check of
    [create_version], against the found document or against the one
    about to be created under [new_document_id]. *)
Definition accepted_with (new_document_id : string) (meta : Meta.t)
    (st : state) : bool :=
  match document_with_metadata (Meta.title meta) (Meta.jurisdiction meta)
          (Meta.regulation_family meta) (Meta.instrument_type meta) st with
  | Some d =>
      negb (primary_axis_mismatch (snd (resolve_primary_axis meta)) d)
      && parent_ok (Doc.document_id d) (Meta.parent_version_id meta) st
  | None => parent_ok new_document_id (Meta.parent_version_id meta) st
  end.

Lemma resolve_parent (meta : Meta.t) :
  Meta.parent_version_id (snd (resolve_primary_axis meta))
  = Meta.parent_version_id meta.
Proof.
  unfold resolve_primary_axis.
  destruct (primary_axis_supplied meta); [reflexivity |].
  now destruct (Rules.derive_primary_axis_deterministic _ _ _ _).
Qed.

Lemma create_version_accepted (document_id tenant_id : string)
    (effective_year : Z) (uploaded_by raw_sha256 : string)
    (version_label effective_date parent_version_id : option string)
    (st : state) :
  parent_ok document_id parent_version_id st = true ->
  exists st1,
    create_version document_id tenant_id effective_year uploaded_by
      raw_sha256 version_label effective_date parent_version_id None
      "PENDING" st = (Ok (uuids st (drawn st)), st1).
Proof.
  unfold parent_ok, create_version.
  change (negb (existsb (String.eqb "PENDING") ALLOWED_STATUSES))
    with false.
  cbv iota. run1.
  destruct (truthy_opt parent_version_id).
  - rewrite bind_bind. run1.
    destruct (version_with_id parent_version_id st) as [pv |];
      [| discriminate].
    intros ->. cbn [negb]. do 3 run1. now eexists.
  - intros _. do 3 run1. now eexists.
Qed.

(** Once the version row is written nothing raises. *)
Lemma attach_returns (pdf_bytes : Sha256.bytes) (meta : Meta.t)
    (actor correlation_id document_id sha : string)
    (force_new_version created_new_doc : bool)
    (source_out : option string) (version_id : string) (st : state) :
  exists resp,
    fst (attach cfg pdf_bytes meta actor correlation_id document_id sha
           force_new_version created_new_doc source_out version_id st)
    = Ok resp.
Proof.
  destruct (create_evidence_run sha pdf_bytes document_id version_id st)
    as (key & uri & e & st1 & Hce & _).
  destruct (Evidence.latest_with_sha sha st) as [row |] eqn:Erow;
    [destruct force_new_version |];
    unfold attach, Evidence.find_by_sha; run1; rewrite Erow;
    try (rewrite bind_bind, (bind_ok _ _ _ _ _ Hce); cbn [fst]);
    run1; unfold set_version_file_id at 1, update_versions at 1; run1;
    match goal with
    | |- exists r, fst (finish _ ?a ?b ?c ?d ?e ?f ?g ?h ?i ?j ?k ?s) = Ok r =>
        destruct (finish_returns cfg a b c d e f g h i j k s) as (resp & H & _);
        exists resp; exact H
    end.
Qed.

Lemma after_dedupe_returns (pdf_bytes : Sha256.bytes) (meta : Meta.t)
    (actor : string) (force_new_version : bool) (correlation_id : string)
    (st : state) :
  accepted_with (uuids st (drawn st)) meta st = true ->
  exists resp,
    fst (after_dedupe cfg pdf_bytes meta actor force_new_version
           correlation_id st) = Ok resp.
Proof.
  unfold accepted_with, after_dedupe. cbv zeta.
  destruct (resolve_meta meta) as (Ht & Hj & Hf & Hi & _).
  pose proof (resolve_parent meta) as Hp.
  destruct (resolve_primary_axis meta) as [[value source] meta'].
  cbn [snd] in *.
  unfold find_document_by_metadata. run1. rewrite Ht, Hj, Hf, Hi.
  destruct (document_with_metadata _ _ _ _ st) as [d |].
  - intros H. apply andb_true_iff in H as [Hm Hpar].
    apply negb_true_iff in Hm. rewrite Hm. run1. cbv iota.
    rewrite bind_unfold.
    match goal with
    | |- context [create_version ?a ?b ?c ?d ?e ?f ?g ?h None _ ?s] =>
        destruct (create_version_accepted a b c d e f g h s) as [st1 H];
          [rewrite Hp; exact Hpar | rewrite H; cbv iota beta]
    end.
    apply attach_returns.
  - intros Hpar. rewrite bind_bind. unfold create_document.
    rewrite bind_bind. run1. rewrite bind_bind. do 3 run1.
    cbv iota. rewrite bind_unfold.
    match goal with
    | |- context [create_version ?a ?b ?c ?d ?e ?f ?g ?h None _ ?s] =>
        destruct (create_version_accepted a b c d e f g h s) as [st1 H];
          [rewrite Hp; exact Hpar | rewrite H; cbv iota beta]
    end.
    apply attach_returns.
Qed.

Lemma after_dedupe_outcome (pdf_bytes : Sha256.bytes) (meta : Meta.t)
    (actor : string) (force_new_version : bool) (correlation_id : string)
    (st : state) (resp : Response.t) :
  let r := after_dedupe cfg pdf_bytes meta actor force_new_version
             correlation_id st in
  fst r = Ok resp ->
  upload_outcome (sha256_bytes pdf_bytes) force_new_version st resp (snd r).
Proof.
  intros r. subst r. unfold after_dedupe. cbv zeta.
  destruct (resolve_primary_axis meta) as [[value source] meta'].
  unfold find_document_by_metadata. run1.
  destruct (document_with_metadata _ _ _ _ st) as [d |].
  - destruct (primary_axis_mismatch meta' d).
    + run1. discriminate.
    + run1. cbv iota. rewrite bind_unfold.
      match goal with
      | |- context [create_version ?a ?b ?c ?d ?e ?f ?g ?h None _ ?s] =>
          destruct (create_version_cases a b c d e f g h s)
            as [[e' H] | (new & st1 & H & V1 & V2 & V3 & V4 & _ & _ & V5
                          & _ & V6 & V7)];
          rewrite H; cbv iota beta
      end.
      * discriminate.
      * apply attach_outcome with new; try assumption. lia.
  - rewrite bind_bind. unfold create_document.
    rewrite bind_bind. run1. rewrite bind_bind. do 3 run1.
    cbv iota. rewrite bind_unfold.
    match goal with
    | |- context [create_version ?a ?b ?c ?d ?e ?f ?g ?h None _ ?s] =>
        destruct (create_version_cases a b c d e f g h s)
          as [[e' H] | (new & st1 & H & V1 & V2 & V3 & V4 & _ & _ & V5
                        & _ & V6 & V7)];
        rewrite H; cbv iota beta
    end.
    + discriminate.
    + apply attach_outcome with new; try assumption.
      cbn [drawn tick set_documents draw] in V7. lia.
Qed.

Lemma latest_none_dedupe_none (sha : string) (meta : Meta.t) (st : state) :
  Evidence.latest_with_sha sha st = None -> dedupe_match sha meta st = None.
Proof.
  unfold Evidence.latest_with_sha, dedupe_match. intros H.
  destruct (order_by_desc _ _) as [|x l] eqn:E; [| discriminate].
  apply order_by_desc_nil in E.
  destruct (List.find _ (evidence_files st)) as [f |] eqn:Ef;
    [| reflexivity].
  apply find_some in Ef.
  assert (Hin : In f (filter (fun f => String.eqb (Ev.sha256 f) sha)
                        (evidence_files st)))
    by (apply filter_In; exact Ef).
  rewrite E in Hin. destruct Hin.
Qed.

(** C7 (amended): an upload that passes validation, is not answered by
    the dedupe shortcut (force_new_version is set, or no version with
    the same metadata is found on the file, or no evidence row has the
    hash) and passes the mismatch guard and the parent check, is
    accepted with status 201 and adds one version row, last, that carries the file of
    the response.  When an evidence row with the hash exists and
    force_new_version is set, the status is
    CREATED_NEW_VERSION_REUSED_FILE, the file is that of the latest such
    row and the evidence rows are as before; otherwise one evidence row
    is added, under an identifier drawn for it, with the hash, and the
    status is not CREATED_NEW_VERSION_REUSED_FILE. *)
Theorem evidence_reused_or_created (pdf_bytes : Sha256.bytes)
    (meta : Meta.t) (actor : string) (force_new_version : bool)
    (st : state) :
  let sha := sha256_bytes pdf_bytes in
  let r := ingest_request cfg pdf_bytes meta actor force_new_version st in
  Rules.enforce_upload_rules (active_rules cfg st) (Meta.get meta) = inr tt ->
  too_large (max_mb_of cfg (active_rules cfg st)) pdf_bytes = false ->
  force_new_version = true
  \/ dedupe_match sha meta st = None
  \/ Evidence.latest_with_sha sha st = None ->
  accepted_with (uuids st (4 + drawn st)) meta st = true ->
  exists resp,
    fst r = Ok resp /\ upload_outcome sha force_new_version st resp (snd r).
Proof.
  intros sha r Hrules Hsize Hnd Hacc. subst r.
  rewrite ingest_request_parts. cbv zeta. rewrite Hrules, Hsize.
  assert (Hnd' : force_new_version = true
                 \/ dedupe_match sha meta st = None).
  { destruct Hnd as [H | [H | H]]; auto.
    right. now apply latest_none_dedupe_none. }
  set (st3 := checked pdf_bytes meta actor force_new_version st).
  assert (Hgoal :
    exists resp,
      fst (after_dedupe cfg pdf_bytes meta actor force_new_version
             (uuids st (drawn st)) st3) = Ok resp
      /\ upload_outcome sha force_new_version st resp
           (snd (after_dedupe cfg pdf_bytes meta actor force_new_version
                   (uuids st (drawn st)) st3))).
  { destruct (after_dedupe_returns pdf_bytes meta actor force_new_version
                (uuids st (drawn st)) st3 Hacc) as [resp H].
    exists resp. split; [exact H |].
    apply upload_outcome_transfer with st3.
    - reflexivity.
    - reflexivity.
    - reflexivity.
    - unfold st3, checked, written. cbn [drawn tick set_audit_log draw].
      lia.
    - now apply after_dedupe_outcome. }
  fold sha.
  destruct (dedupe_match sha meta st) as [ex |]; destruct force_new_version.
  - exact Hgoal.
  - destruct Hnd' as [H | H]; discriminate.
  - exact Hgoal.
  - exact Hgoal.
Qed.

End Outcome.

(** *** Worked requests *)

(** An identifier source: [u0], [u1], ... *)
Definition sample_uuids (n : nat) : string :=
  "u" ++ DecimalString.NilZero.string_of_uint (Nat.to_uint n).

Definition sample_settings : settings :=
  {| MAX_PDF_MB := 50;
     ENABLE_LLM_PRIMARY_AXIS_SUGGESTION := false;
     LLM_MODEL_NAME := "stub-llm";
     LLM_MODEL_VERSION := "0" |}.

Definition empty_store : state :=
  {| ref_rules := []; documents := []; document_versions := [];
     evidence_files := []; audit_log := []; primary_axis_suggestions := [];
     objects := []; uri_prefix := "s3://epic1/"; clock := 0;
     uuids := sample_uuids; drawn := 0 |}.

Definition sample_meta (title : string) (primary_axis : option string)
  : Meta.t :=
  {| Meta.jurisdiction := "EU";
     Meta.title := title;
     Meta.regulation_family := "carbon";
     Meta.instrument_type := "regulation";
     Meta.primary_axis := primary_axis;
     Meta.tenant_id := "t1";
     Meta.effective_year := 2026;
     Meta.effective_date := None;
     Meta.version_label := None;
     Meta.parent_version_id := None |}.

(** The four bytes [%PDF]. *)
Definition sample_pdf : Sha256.bytes :=
  [Byte.x25; Byte.x50; Byte.x44; Byte.x46].

(** The status and the ingestion status of an answer. *)
Definition answer (o : outcome Response.t) : option (Z * string) :=
  match o with
  | Ok resp => Some (Response.http_status resp,
                     Response.ingestion_status resp)
  | Raise _ => None
  end.

Definition upload (title : string) (primary_axis : option string)
    (force_new_version : bool) (st : state) : outcome Response.t * state :=
  ingest_request sample_settings sample_pdf (sample_meta title primary_axis)
    "op" force_new_version st.

(** A store whose active upload rules require a title. *)
Definition title_required : state :=
  set_documents []
    {| ref_rules := [{| Rule.rule_key := "EPIC1_UPLOAD_RULES";
                        Rule.rule_json :=
                          {| Rules.required_fields := Some ["title"];
                             Rules.max_pdf_mb := Some 50%Z |};
                        Rule.is_active := true |}];
       documents := []; document_versions := []; evidence_files := [];
       audit_log := []; primary_axis_suggestions := []; objects := [];
       uri_prefix := "s3://epic1/"; clock := 0; uuids := sample_uuids;
       drawn := 0 |}.

(** A store that holds one document, filed under jurisdiction, one
    version of it and the file of that version, whose bytes are
    [sample_pdf]. *)
Definition one_version : state :=
  {| ref_rules := [];
     documents :=
       [{| Doc.document_id := "d1"; Doc.title := "EU CBAM";
           Doc.jurisdiction := "EU"; Doc.regulation_family := "carbon";
           Doc.instrument_type := "regulation";
           Doc.primary_axis := Some "jurisdiction";
           Doc.primary_axis_source := Some "DETERMINISTIC_RULE" |}];
     document_versions :=
       [{| Ver.version_id := "v1"; Ver.document_id := "d1";
           Ver.version_label := None; Ver.effective_date := None;
           Ver.status := "ACTIVE"; Ver.parent_version_id := None;
           Ver.tenant_id := "t1"; Ver.effective_year := 2026;
           Ver.uploaded_by := "op";
           Ver.raw_sha256 := sha256_bytes sample_pdf;
           Ver.file_id := Some "f1"; Ver.uploaded_at := Some 1;
           Ver.updated_at := Some 1; Ver.artifacts_json := None |}];
     evidence_files :=
       [{| Ev.file_id := "f1"; Ev.version_id := "v1";
           Ev.sha256 := sha256_bytes sample_pdf;
           Ev.mime_type := "application/pdf"; Ev.size_bytes := 4;
           Ev.storage_uri := "s3://epic1/evidence/d1/v1/f1.pdf";
           Ev.created_at := 1 |}];
     audit_log := []; primary_axis_suggestions := [];
     objects := [("evidence/d1/v1/f1.pdf", sample_pdf)];
     uri_prefix := "s3://epic1/"; clock := 2; uuids := sample_uuids;
     drawn := 0 |}.

(** C9, as worded, fails: with rules that require a title, an upload
    without one is refused with the missing-fields error and the audit
    log holds no REQUEST.RECEIVED row; an upload over the size limit
    likewise. *)
Lemma validation_failure_leaves_no_audit_row :
  let r := upload "" None false title_required in
  let r' := ingest_request
              {| MAX_PDF_MB := 0;
                 ENABLE_LLM_PRIMARY_AXIS_SUGGESTION := false;
                 LLM_MODEL_NAME := "stub-llm";
                 LLM_MODEL_VERSION := "0" |}
              sample_pdf (sample_meta "EU CBAM" None) "op" false
              empty_store in
  fst r = Raise (Rules.MissingRequiredFields ["title"])
  /\ ~ (exists row, In row (audit_log (snd r))
                    /\ Aud.action row = "EPIC1.REQUEST.RECEIVED")
  /\ fst r' = Raise (Rules.PdfTooLarge 0)
  /\ ~ (exists row, In row (audit_log (snd r'))
                    /\ Aud.action row = "EPIC1.REQUEST.RECEIVED").
Proof.
  cbv zeta. split; [vm_compute; reflexivity |].
  split; [intros (row & Hin & _); vm_compute in Hin; exact Hin |].
  split; [vm_compute; reflexivity |].
  intros (row & Hin & _). vm_compute in Hin. exact Hin.
Qed.

(** C5, as worded, fails: the document is stored under jurisdiction, the
    upload of the same bytes and metadata names theme, and it is
    answered by the dedupe shortcut with status 200; no error is
    raised. *)
Lemma mismatch_answered_by_dedupe :
  let meta := sample_meta "EU CBAM" (Some "theme") in
  let r := ingest_request sample_settings sample_pdf meta "op" false
             one_version in
  map Doc.primary_axis (documents one_version) = [Some "jurisdiction"]
  /\ resolved_primary_axis meta = "theme"
  /\ answer (fst r) = Some (200%Z, "DEDUP_RETURN_EXISTING")
  /\ document_versions (snd r) = document_versions one_version.
Proof.
  cbv zeta. split; [reflexivity |]. split; [reflexivity |].
  split; vm_compute; reflexivity.
Qed.

(** The mismatch guard at work: the same upload, forced. *)
Lemma primary_axis_mismatch_rejected_witness :
  let meta := sample_meta "EU CBAM" (Some "theme") in
  let r := ingest_request sample_settings sample_pdf meta "op" true
             one_version in
  (exists provided,
     fst r = Raise (Rules.PrimaryAxisMismatch "jurisdiction" provided))
  /\ document_versions (snd r) = document_versions one_version.
Proof.
  cbv zeta.
  destruct (primary_axis_mismatch_rejected sample_settings sample_pdf
              (sample_meta "EU CBAM" (Some "theme")) "op" true one_version
              {| Doc.document_id := "d1"; Doc.title := "EU CBAM";
                 Doc.jurisdiction := "EU";
                 Doc.regulation_family := "carbon";
                 Doc.instrument_type := "regulation";
                 Doc.primary_axis := Some "jurisdiction";
                 Doc.primary_axis_source := Some "DETERMINISTIC_RULE" |}
              "jurisdiction")
    as ((provided & H1 & _) & _ & H4 & _).
  - reflexivity.
  - reflexivity.
  - left. reflexivity.
  - reflexivity.
  - reflexivity.
  - discriminate.
  - vm_compute. reflexivity.
  - vm_compute. discriminate.
  - split; [now exists provided | exact H4].
Defined.

(** A forced upload of known bytes under the metadata of their
    document. *)
Lemma evidence_reused_or_created_witness :
  let r := ingest_request sample_settings sample_pdf
             (sample_meta "EU CBAM" None) "op" true one_version in
  exists resp,
    fst r = Ok resp
    /\ upload_outcome (sha256_bytes sample_pdf) true one_version resp
         (snd r).
Proof.
  apply (evidence_reused_or_created sample_settings sample_pdf
           (sample_meta "EU CBAM" None) "op" true one_version).
  - reflexivity.
  - reflexivity.
  - left. reflexivity.
  - vm_compute. reflexivity.
Defined.

(** C7, as worded, fails: the bytes are known and the upload is forced,
    but it names theme for a document stored under jurisdiction; it is
    rejected by the mismatch guard and no version row is added.  And an
    upload of unknown bytes that fails validation adds no evidence
    row. *)
Lemma forced_upload_of_known_bytes_rejected :
  let sha := sha256_bytes sample_pdf in
  let r := ingest_request sample_settings sample_pdf
             (sample_meta "EU CBAM" (Some "theme")) "op" true one_version in
  let r' := upload "" None false title_required in
  map Ev.sha256 (evidence_files one_version) = [sha]
  /\ fst r = Raise (Rules.PrimaryAxisMismatch "jurisdiction" "theme")
  /\ document_versions (snd r) = document_versions one_version
  /\ evidence_files title_required = []
  /\ fst r' = Raise (Rules.MissingRequiredFields ["title"])
  /\ evidence_files (snd r') = [].
Proof. cbv zeta. repeat split; vm_compute; reflexivity. Qed.

(** C1 at a failing input: the same bytes are uploaded under title A,
    then under title B, then under title B again, never forced.  The
    third upload repeats the second, and is answered 201
    CREATED_NEW_VERSION with one more version row and one more evidence
    row.  Whichever evidence row with the hash the first query of
    [_dedupe_match_existing] returns after the second upload, one of the
    two documents is not found from it. *)
Theorem dedupe_misses_shared_bytes :
  let first := upload "A" None false empty_store in
  let second := upload "B" None false (snd first) in
  let third := upload "B" None false (snd second) in
  let sha := sha256_bytes sample_pdf in
  answer (fst first) = Some (201%Z, "CREATED_NEW_DOCUMENT_AND_VERSION")
  /\ answer (fst second) = Some (201%Z, "CREATED_NEW_DOCUMENT_AND_VERSION")
  /\ answer (fst third) = Some (201%Z, "CREATED_NEW_VERSION")
  /\ List.length (document_versions (snd second)) = 2%nat
  /\ List.length (document_versions (snd third)) = 3%nat
  /\ List.length (evidence_files (snd second)) = 2%nat
  /\ List.length (evidence_files (snd third)) = 3%nat
  /\ forallb
       (fun f =>
          match dedupe_on_file f sha (sample_meta "A" None) (snd second),
                dedupe_on_file f sha (sample_meta "B" None) (snd second)
          with
          | Some _, Some _ => false
          | _, _ => true
          end)
       (filter (fun f => String.eqb (Ev.sha256 f) sha)
          (evidence_files (snd second))) = true.
Proof. vm_compute. repeat split. Qed.

End IngestionFacts.

(* ------------------------------------------------------------------ *)
(** ** Lists: facts used below *)

Module ListFacts.
Import Sorted.

Lemma find_app_none {A : Type} (p : A -> bool) (l l' : list A) :
  List.find p l = None -> List.find p (l ++ l') = List.find p l'.
Proof.
  induction l as [|x l IH]; simpl; [reflexivity |].
  destruct (p x); [discriminate | exact IH].
Qed.

Lemma find_app_some {A : Type} (p : A -> bool) (l l' : list A) (x : A) :
  List.find p l = Some x -> List.find p (l ++ l') = Some x.
Proof.
  induction l as [|y l IH]; simpl; [discriminate |].
  destruct (p y); [trivial | exact IH].
Qed.

Lemma existsb_find_none {A : Type} (p : A -> bool) (l : list A) :
  existsb p l = false <-> List.find p l = None.
Proof.
  induction l as [|x l IH]; simpl; [tauto |].
  destruct (p x); simpl; [split; discriminate | exact IH].
Qed.

Lemma find_map_same {A : Type} (q : A -> bool) (upd : A -> A)
    (l : list A) :
  (forall r, q (upd r) = q r) ->
  List.find q (map upd l) = option_map upd (List.find q l).
Proof.
  intros Hq. induction l as [|r l IH]; simpl; [reflexivity |].
  rewrite Hq. destruct (q r); [reflexivity | apply IH].
Qed.

Lemma sorted_filter {A : Type} (R : A -> A -> Prop) (p : A -> bool)
    (l : list A) :
  StronglySorted R l -> StronglySorted R (filter p l).
Proof.
  induction 1 as [|a l Hs IH Ha]; simpl; [constructor |].
  destruct (p a); [| exact IH]. constructor; [exact IH |].
  apply Forall_forall. intros x Hx. apply filter_In in Hx as [Hx _].
  rewrite Forall_forall in Ha. now apply Ha.
Qed.

Lemma sorted_snoc {A : Type} (R : A -> A -> Prop) (l : list A) (x : A) :
  StronglySorted R l -> Forall (fun y => R y x) l ->
  StronglySorted R (l ++ [x]).
Proof.
  induction 1 as [|a l Hs IH Ha]; intros Hx; simpl.
  - repeat constructor.
  - inversion Hx as [|? ? Hax Hlx]; subst.
    constructor; [now apply IH |].
    apply Forall_app. split; [assumption | now constructor].
Qed.

Lemma skipn_two {A : Type} (l : list A) (k : nat) (a b : A) :
  nth_error l k = Some a -> nth_error l (S k) = Some b ->
  exists rest, skipn k l = a :: b :: rest.
Proof.
  revert l. induction k as [|k IH]; intros l Ha Hb.
  - destruct l as [|x [|y l]]; try discriminate.
    injection Ha as ->. injection Hb as ->. now exists l.
  - destruct l as [|x l]; [discriminate |]. simpl. now apply IH.
Qed.

Lemma NoDup_snoc {A : Type} (x : A) (l : list A) :
  NoDup l -> ~ In x l -> NoDup (l ++ [x]).
Proof.
  induction 1 as [|y l Hy Hl IH]; simpl; intros Hx.
  - constructor; [intros [] | constructor].
  - constructor.
    + rewrite in_app_iff. simpl. intros [H | [H | []]]; [now apply Hy |].
      apply Hx. now left.
    + apply IH. intros H. apply Hx. now right.
Qed.

End ListFacts.

(* ------------------------------------------------------------------ *)
(** ** The audit log as a whole *)

Module AuditLogFacts.
Import Store Run Registry Ingestion Audit AuditChain System SystemFacts Json.
Import Sorted.

(** The hash a row should carry, computed again from its own columns as
    [write] computes it. *)
Definition recomputed_hash (r : Aud.row) : string :=
  Sha256.sha256_text
    (_stable_json
       (payload (Aud.event_id r) (Aud.entity_type r) (Aud.entity_id r)
          (Aud.action r) (Aud.actor r) (Aud.correlation_id r)
          (Aud.details_json r) (Aud.prev_event_hash r))).

(** The hash of the last hashed row of the entity, in the order of the
    log. *)
Definition chain_head (entity_type entity_id : string) (log : list Aud.row)
  : option string :=
  match rev (filter (fun r => same_entity entity_type entity_id r
                              && has_hash r) log) with
  | r :: _ => Aud.event_hash r
  | [] => None
  end.

Definition opt_eqb (a b : option string) : bool :=
  match a, b with
  | None, None => true
  | Some x, Some y => String.eqb x y
  | _, _ => false
  end.

(** A row with a hash checks against the rows [before] it: its hash is
    the one recomputed from its columns, and its prev_event_hash is the
    hash of the last hashed row of its entity before it. *)
Definition row_checks (before : list Aud.row) (r : Aud.row) : bool :=
  match Aud.event_hash r with
  | None => true
  | Some h =>
      String.eqb h (recomputed_hash r)
      && opt_eqb (Aud.prev_event_hash r)
           (chain_head (Aud.entity_type r) (Aud.entity_id r) before)
  end.

(** The check an auditor runs over a log, oldest row first. *)
Fixpoint verify_from (before rest : list Aud.row) : bool :=
  match rest with
  | [] => true
  | r :: rest' => row_checks before r && verify_from (before ++ [r]) rest'
  end.

Definition verify_chain (log : list Aud.row) : bool := verify_from [] log.

(** The rows of the log carry growing timestamps, all before the
    clock. *)
Definition well_timed (st : state) : Prop :=
  StronglySorted (fun a b => (Aud.at_ a < Aud.at_ b)%nat) (audit_log st)
  /\ Forall (fun r => (Aud.at_ r < clock st)%nat) (audit_log st).

Definition audit_sound (st : state) : Prop :=
  well_timed st /\ verify_chain (audit_log st) = true.

Definition keeps_audit_sound (st st' : state) : Prop :=
  audit_sound st -> audit_sound st'.

#[local] Instance keeps_audit_sound_preorder : PreOrder keeps_audit_sound.
Proof.
  split.
  - intros st H. exact H.
  - intros a b c H1 H2 H. apply H2, H1, H.
Qed.

Lemma opt_eqb_refl (a : option string) : opt_eqb a a = true.
Proof. destruct a; simpl; [apply String.eqb_refl | reflexivity]. Qed.

Lemma verify_from_app (before l : list Aud.row) (r : Aud.row) :
  verify_from before (l ++ [r])
  = verify_from before l && row_checks (before ++ l) r.
Proof.
  revert before. induction l as [|x l IH]; intros before; simpl.
  - now rewrite app_nil_r, andb_true_r.
  - rewrite IH, <- app_assoc, andb_assoc. reflexivity.
Qed.

Lemma insert_desc_last {A : Type} (key : A -> timestamp) (x : A)
    (l : list A) :
  Forall (fun y => (key x < key y)%nat) l ->
  insert_desc (fun r => Some (key r)) x l = (l ++ [x])%list.
Proof.
  induction 1 as [|y l Hy _ IH]; simpl; [reflexivity |].
  assert (E : (key y <=? key x)%nat = false) by (apply Nat.leb_gt; lia).
  rewrite E, IH. reflexivity.
Qed.

(** On rows in growing order, [ORDER BY ... DESC] is the reverse. *)
Lemma order_by_desc_sorted {A : Type} (key : A -> timestamp) (l : list A) :
  StronglySorted (fun a b => (key a < key b)%nat) l ->
  order_by_desc (fun r => Some (key r)) l = rev l.
Proof.
  induction 1 as [|x l Hs IH Hx]; simpl; [reflexivity |].
  rewrite IH. apply insert_desc_last.
  apply Forall_forall. intros y Hy. apply in_rev in Hy.
  rewrite Forall_forall in Hx. now apply Hx.
Qed.

(** With timestamps in order, the row [last_hash_for_entity] selects is
    the last hashed row of the entity in the log. *)
Lemma last_hash_chain_head (entity_type entity_id : string)
    (log : list Aud.row) :
  StronglySorted (fun a b => (Aud.at_ a < Aud.at_ b)%nat) log ->
  last_hash entity_type entity_id log = chain_head entity_type entity_id log.
Proof.
  intros H. unfold last_hash, chain_rows, chain_head.
  rewrite (order_by_desc_sorted Aud.at_); [reflexivity |].
  now apply ListFacts.sorted_filter.
Qed.

Lemma audit_sound_frame (st st' : state) :
  audit_log st' = audit_log st -> (clock st <= clock st')%nat ->
  keeps_audit_sound st st'.
Proof.
  intros Hl Hc [[Hs Hb] Hv]. unfold audit_sound, well_timed.
  rewrite Hl. repeat split; try assumption.
  eapply Forall_impl; [| exact Hb]. simpl. intros r Hr. lia.
Qed.

Lemma write_keeps_audit_sound
    (entity_type entity_id action actor correlation_id : string)
    (details : json) (enable_hash_chain : bool) :
  keeps keeps_audit_sound
    (write entity_type entity_id action actor correlation_id details
       enable_hash_chain).
Proof.
  intros st. rewrite write_run. cbn [snd].
  intros [[Hs Hb] Hv]. unfold audit_sound, well_timed, written.
  cbn [audit_log clock tick set_audit_log draw].
  split; [split |].
  - apply ListFacts.sorted_snoc; [assumption |].
    eapply Forall_impl; [| exact Hb]. simpl. intros r Hr. exact Hr.
  - apply Forall_app. split.
    + eapply Forall_impl; [| exact Hb]. simpl. intros r Hr. lia.
    + constructor; [simpl; lia | constructor].
  - unfold verify_chain in *. rewrite verify_from_app, Hv. simpl.
    unfold row_checks, written_row. destruct enable_hash_chain; simpl;
      [| reflexivity].
    unfold recomputed_hash. simpl. rewrite String.eqb_refl. simpl.
    rewrite last_hash_chain_head by assumption. apply opt_eqb_refl.
Qed.

Ltac audit_sound_known :=
  match goal with
  | |- keeps _ (write _ _ _ _ _ _ _) => apply write_keeps_audit_sound
  end.

Ltac audit_sound_leaf :=
  try match goal with
      | |- context [if ?c then _ else _] => destruct c
      end;
  (apply audit_sound_frame; [reflexivity | cbn; lia]).

Lemma call_keeps_audit_sound (cfg : settings) (o : op) :
  keeps keeps_audit_sound (call cfg o).
Proof.
  destruct o;
    unfold call, ingest_request, supersede_parent, llm_suggestion,
      _dedupe_match_existing, _rules, Evidence.create_evidence,
      Evidence.find_by_sha, find_document_by_metadata, create_document,
      create_version, upsert_primary_axis_suggestion;
    unfold_updates;
    keeps_auto (idtac; audit_sound_known) (audit_sound_leaf).
Qed.

(** The audit log stays verifiable: from a store whose log passes the
    auditor's check with timestamps in order, every sequence of
    operations leaves a log that passes it: each hashed row carries the
    hash of its own columns and the hash of the hashed row of its entity
    before it. *)
Theorem audit_log_stays_verifiable (cfg : settings) (ops : list op)
    (st : state) :
  well_timed st ->
  verify_chain (audit_log st) = true ->
  well_timed (run_all cfg ops st)
  /\ verify_chain (audit_log (run_all cfg ops st)) = true.
Proof.
  intros Ht Hv.
  apply (run_all_keeps keeps_audit_sound cfg (call_keeps_audit_sound cfg)
           ops st).
  now split.
Qed.

Lemma audit_log_stays_verifiable_witness :
  let st :=
    run_all IngestionFacts.sample_settings
      [OpIngestRequest IngestionFacts.sample_pdf
         (IngestionFacts.sample_meta "EU CBAM" None) "op" false;
       OpAuditWrite "system" "epic1" "EPIC1.NOTE" "op" "c0" JNull false;
       OpIngestRequest IngestionFacts.sample_pdf
         (IngestionFacts.sample_meta "EU CBAM" None) "op" true]
      IngestionFacts.empty_store in
  well_timed st /\ verify_chain (audit_log st) = true.
Proof.
  apply audit_log_stays_verifiable.
  - split; constructor.
  - reflexivity.
Defined.

End AuditLogFacts.

(* ------------------------------------------------------------------ *)
(** ** [app/infra/storage.py]: reading the object store *)

Module Storage.
Import Store.

(** [StorageAdapter.get_bytes]: the bytes under the key; [None] stands
    for the exception of a missing object. *)
Definition get_bytes (key : string) (st : state) : option Sha256.bytes :=
  option_map snd
    (List.find (fun kv => String.eqb (fst kv) key) (objects st)).

End Storage.

Module StorageFacts.
Import Store Run Storage Evidence.

(** After a write the key holds the bytes it held before, or the given
    ones if it held none. *)
Lemma put_bytes_then_get (key : string) (data : Sha256.bytes) (st : state) :
  get_bytes key (snd (put_bytes_write_once key data st))
  = Some match get_bytes key st with
         | Some old => old
         | None => data
         end.
Proof.
  unfold put_bytes_write_once, get_bytes.
  destruct (existsb (fun kv => String.eqb (fst kv) key) (objects st)) eqn:E;
    cbn [snd].
  - apply existsb_exists in E as [[k v] [Hin Hk]].
    destruct (List.find _ (objects st)) as [kv |] eqn:F; [reflexivity |].
    eapply find_none in F; [| exact Hin]. now rewrite Hk in F.
  - pose proof (proj1 (ListFacts.existsb_find_none _ _) E) as F.
    cbn [objects set_objects].
    rewrite F, (ListFacts.find_app_none _ _ _ F). simpl.
    now rewrite String.eqb_refl.
Qed.

(** A row that is more recent than all the others comes first under
    [ORDER BY ... DESC], wherever it stands in the table. *)
Lemma order_by_desc_newest {A : Type} (key : A -> timestamp) (l : list A)
    (x : A) :
  Forall (fun y => (key y < key x)%nat) l ->
  hd_error (order_by_desc (fun r => Some (key r)) (l ++ [x])) = Some x.
Proof.
  induction l as [|y l IH]; intros H; simpl; [reflexivity |].
  inversion H as [|? ? Hy Hl]; subst. specialize (IH Hl).
  destruct (order_by_desc (fun r => Some (key r)) (l ++ [x]))
    as [|h t] eqn:E; [discriminate |].
  injection IH as ->. simpl.
  assert (G : (key x <=? key y)%nat = false) by (apply Nat.leb_gt; lia).
  now rewrite G.
Qed.

(** After [create_evidence] the file can be found again: the returned
    key and URI are those of the file, the object store holds bytes
    under the key (the given ones when the key was free), [find_by_sha]
    returns the new row when the rows already there are older than the
    clock, and [get] returns it when its identifier was not in use. *)
Theorem create_evidence_then_lookup (sha : string)
    (pdf_bytes : Sha256.bytes) (document_id version_id : string)
    (st : state) :
  Forall (fun f => (Ev.created_at f < clock st)%nat) (evidence_files st) ->
  Forall (fun f => Ev.file_id f <> uuids st (drawn st)) (evidence_files st) ->
  let r := create_evidence sha pdf_bytes document_id version_id st in
  let file_id := uuids st (drawn st) in
  let key := "evidence/" ++ document_id ++ "/" ++ version_id ++ "/"
             ++ file_id ++ ".pdf" in
  let row := {| Ev.file_id := file_id;
                Ev.version_id := version_id;
                Ev.sha256 := sha;
                Ev.mime_type := "application/pdf";
                Ev.size_bytes := Z.of_nat (List.length pdf_bytes);
                Ev.storage_uri := uri_prefix st ++ key;
                Ev.created_at := clock st |} in
  fst r = Ok (file_id, key, uri_prefix st ++ key)
  /\ evidence_files (snd r) = (evidence_files st ++ [row])%list
  /\ fst (find_by_sha sha (snd r)) = Ok (Some row)
  /\ fst (get file_id (snd r)) = Ok (Some row)
  /\ get_bytes key (snd r)
     = Some match get_bytes key st with
            | Some old => old
            | None => pdf_bytes
            end.
Proof.
  intros Hold Hfresh r file_id key row. subst r.
  pose proof (put_bytes_then_get key pdf_bytes (draw st)) as Hget.
  assert (Hrun :
    create_evidence sha pdf_bytes document_id version_id st
    = (Ok (file_id, key, uri_prefix st ++ key),
       tick (set_evidence_files
               (evidence_files st ++ [row])
               (snd (put_bytes_write_once key pdf_bytes (draw st)))))).
  { unfold create_evidence, bind, uuid4, execute, ret. fold file_id.
    fold key. unfold put_bytes_write_once.
    destruct (existsb _ (objects (draw st))); reflexivity. }
  rewrite Hrun. cbn [fst snd].
  split; [reflexivity |]. split; [reflexivity |]. split; [| split].
  - unfold find_by_sha, query, latest_with_sha. cbn [fst].
    cbn [evidence_files tick set_evidence_files].
    rewrite filter_app. cbn [filter Ev.sha256 row].
    rewrite String.eqb_refl.
    rewrite (order_by_desc_newest Ev.created_at); [reflexivity |].
    apply Forall_forall. intros f Hf. apply filter_In in Hf as [Hf _].
    rewrite Forall_forall in Hold. now apply Hold.
  - unfold get, query. cbn [fst evidence_files tick set_evidence_files].
    rewrite ListFacts.find_app_none.
    + simpl. now rewrite String.eqb_refl.
    + destruct (List.find _ (evidence_files st)) as [f |] eqn:F;
        [| reflexivity].
      apply find_some in F as [Hin Heq]. apply String.eqb_eq in Heq.
      rewrite Forall_forall in Hfresh. now elim (Hfresh f Hin).
  - exact Hget.
Qed.

Lemma create_evidence_then_lookup_witness :
  let st := IngestionFacts.one_version in
  let r := create_evidence "ab" IngestionFacts.sample_pdf "d1" "v2" st in
  exists row,
    fst (find_by_sha "ab" (snd r)) = Ok (Some row)
    /\ Ev.file_id row = "u0"
    /\ get_bytes "evidence/d1/v2/u0.pdf" (snd r)
       = Some IngestionFacts.sample_pdf.
Proof.
  destruct (create_evidence_then_lookup "ab" IngestionFacts.sample_pdf
              "d1" "v2" IngestionFacts.one_version)
    as (_ & _ & H3 & _ & H5).
  - repeat constructor.
  - repeat constructor. discriminate.
  - eexists. split; [exact H3 |]. split; [reflexivity | exact H5].
Defined.

End StorageFacts.

(* ------------------------------------------------------------------ *)
(** ** Evidence is append-only *)

Module EvidenceFacts.
Import Store Run Storage Evidence Registry Ingestion System SystemFacts.

(** The evidence rows and the stored objects of [st] are all still
    there in [st'], unchanged and in place; rows and objects may have
    been added after them. *)
Definition evidence_kept (st st' : state) : Prop :=
  (exists added, evidence_files st' = (evidence_files st ++ added)%list)
  /\ (exists added, objects st' = (objects st ++ added)%list).

#[local] Instance evidence_kept_preorder : PreOrder evidence_kept.
Proof.
  split.
  - intros st. split; exists []; now rewrite app_nil_r.
  - intros a b c [[e1 E1] [o1 O1]] [[e2 E2] [o2 O2]]. split.
    + exists (e1 ++ e2)%list. now rewrite E2, E1, app_assoc.
    + exists (o1 ++ o2)%list. now rewrite O2, O1, app_assoc.
Qed.

Lemma put_bytes_keeps_evidence (key : string) (data : Sha256.bytes) :
  keeps evidence_kept (put_bytes_write_once key data).
Proof.
  intros st. unfold put_bytes_write_once.
  destruct (existsb _ _); cbn [snd]; [reflexivity |].
  split; [exists []; cbn; now rewrite app_nil_r |].
  now exists [(key, data)].
Qed.

Ltac evidence_leaf :=
  try match goal with
      | |- context [if ?c then _ else _] => destruct c
      end;
  split;
  first [ exists []; cbn; now rewrite app_nil_r
        | eexists [_]; cbn; reflexivity ].

Lemma call_keeps_evidence (cfg : settings) (o : op) :
  keeps evidence_kept (call cfg o).
Proof.
  destruct o; unfold_calls; unfold_updates;
    keeps_auto (apply put_bytes_keeps_evidence) (evidence_leaf).
Qed.

(** Evidence is append-only: whatever operations run, every row of
    [evidence_files] stays where it was with the columns it had, and
    every key of the object store that held bytes holds the same bytes
    afterwards. *)
Theorem evidence_is_never_rewritten (cfg : settings) (ops : list op)
    (st : state) :
  (forall n row,
     nth_error (evidence_files st) n = Some row ->
     nth_error (evidence_files (run_all cfg ops st)) n = Some row)
  /\ (forall key data,
        get_bytes key st = Some data ->
        get_bytes key (run_all cfg ops st) = Some data).
Proof.
  destruct (run_all_keeps evidence_kept cfg (call_keeps_evidence cfg) ops st)
    as [[rows Hrows] [objs Hobjs]].
  split.
  - intros n row Hn. rewrite Hrows, nth_error_app1; [assumption |].
    apply nth_error_Some. congruence.
  - intros key data. unfold get_bytes. rewrite Hobjs.
    destruct (List.find _ (objects st)) as [kv |] eqn:F; [| discriminate].
    now rewrite (ListFacts.find_app_some _ _ _ _ F).
Qed.

End EvidenceFacts.

(* ------------------------------------------------------------------ *)
(** ** The registry, call by call *)

Module RegistryFacts.
Import Store Run Registry PyStr.
Import IngestionFacts.

Lemma existsb_allowed (status : string) :
  existsb (String.eqb status) ALLOWED_STATUSES = true
  <-> In status ALLOWED_STATUSES.
Proof.
  rewrite existsb_exists. split.
  - intros [x [Hin Heq]]. apply String.eqb_eq in Heq. now subst.
  - intros H. exists status. split; [assumption | apply String.eqb_refl].
Qed.

(** [create_version] checks the status, then the parent, and writes
    only when both pass: a call that raises leaves the store as it was,
    with status 400; it raises exactly when the status is not an allowed
    one, or a parent is named (not None, not empty) that does not exist
    or belongs to another document; a call that returns adds one row,
    last, under the identifier it returns, with the columns it was
    given, and touches no other row. *)
Theorem create_version_checks_then_writes (document_id tenant_id : string)
    (effective_year : Z) (uploaded_by raw_sha256 : string)
    (version_label effective_date parent_version_id file_id : option string)
    (status : string) (st : state) :
  let r := create_version document_id tenant_id effective_year uploaded_by
             raw_sha256 version_label effective_date parent_version_id
             file_id status st in
  let rejected :=
    ~ In status ALLOWED_STATUSES
    \/ (truthy_opt parent_version_id = true
        /\ forall pv, version_with_id parent_version_id st = Some pv ->
                      Ver.document_id pv <> document_id) in
  (forall e, fst r = Raise e -> snd r = st /\ Rules.status_code e = 400%Z)
  /\ (~ In status ALLOWED_STATUSES ->
      fst r = Raise (Rules.InvalidStatus status))
  /\ ((exists e, fst r = Raise e) <-> rejected)
  /\ (forall id, fst r = Ok id ->
        id = uuids st (drawn st)
        /\ document_versions (snd r)
           = (document_versions st ++
              [{| Ver.version_id := id;
                  Ver.document_id := document_id;
                  Ver.version_label := version_label;
                  Ver.effective_date := effective_date;
                  Ver.status := status;
                  Ver.parent_version_id := parent_version_id;
                  Ver.tenant_id := tenant_id;
                  Ver.effective_year := effective_year;
                  Ver.uploaded_by := uploaded_by;
                  Ver.raw_sha256 := raw_sha256;
                  Ver.file_id := file_id;
                  Ver.uploaded_at := None;
                  Ver.updated_at := None;
                  Ver.artifacts_json := None |}])%list
        /\ documents (snd r) = documents st
        /\ evidence_files (snd r) = evidence_files st
        /\ audit_log (snd r) = audit_log st).
Proof.
  intros r rejected. subst r rejected. unfold create_version.
  destruct (existsb (String.eqb status) ALLOWED_STATUSES) eqn:Es; cbn [negb];
    cbv iota.
  - pose proof (proj1 (existsb_allowed status) Es) as Hin. run1.
    destruct (truthy_opt parent_version_id) eqn:Ep.
    + rewrite bind_bind. run1.
      destruct (version_with_id parent_version_id st) as [pv |] eqn:Ev.
      * destruct (String.eqb (Ver.document_id pv) document_id) eqn:Ed;
          cbn [negb]; cbv iota.
        -- apply String.eqb_eq in Ed. do 3 run1. cbn [fst snd].
           split; [discriminate |]. split; [intros H; now elim H |].
           split.
           ++ split; [intros [e He]; discriminate |].
              intros [H | [_ H]]; [now elim H |]. now elim (H pv eq_refl).
           ++ intros id [= <-]. repeat split.
        -- apply String.eqb_neq in Ed. run1. cbn [fst snd].
           split; [intros e [= <-]; now split |].
           split; [intros H; now elim H |]. split.
           ++ split; [| intros _; now eexists].
              intros _. right. split; [reflexivity |].
              intros pv' [= <-]. exact Ed.
           ++ discriminate.
      * run1. cbn [fst snd].
        split; [intros e [= <-]; now split |].
        split; [intros H; now elim H |]. split.
        -- split; [| intros _; now eexists].
           intros _. right. split; [reflexivity | discriminate].
        -- discriminate.
    + do 3 run1. cbn [fst snd].
      split; [discriminate |]. split; [intros H; now elim H |]. split.
      * split; [intros [e He]; discriminate |].
        intros [H | [H _]]; [now elim H | discriminate].
      * intros id [= <-]. repeat split.
  - assert (Hnot : ~ In status ALLOWED_STATUSES).
    { intros H. apply existsb_allowed in H. congruence. }
    run1. cbn [fst snd].
    split; [intros e [= <-]; now split |].
    split; [reflexivity |]. split.
    + split; [intros _; now left | intros _; now eexists].
    + discriminate.
Qed.

(** [find_document_by_metadata] after [create_document], on metadata
    that no document has: the call adds one row, last, under the
    identifier it returns, with the columns it was given; the metadata
    then answers with that document; other metadata answers as
    before. *)
Theorem create_document_then_find
    (title jurisdiction regulation_family instrument_type primary_axis
       primary_axis_source : string) (st : state) :
  document_with_metadata title jurisdiction regulation_family
    instrument_type st = None ->
  let r := create_document title jurisdiction regulation_family
             instrument_type primary_axis primary_axis_source st in
  let new := {| Doc.document_id := uuids st (drawn st);
                Doc.title := title;
                Doc.jurisdiction := jurisdiction;
                Doc.regulation_family := regulation_family;
                Doc.instrument_type := instrument_type;
                Doc.primary_axis := Some primary_axis;
                Doc.primary_axis_source := Some primary_axis_source |} in
  fst r = Ok (uuids st (drawn st))
  /\ documents (snd r) = (documents st ++ [new])%list
  /\ fst (find_document_by_metadata title jurisdiction regulation_family
            instrument_type (snd r)) = Ok (Some new)
  /\ (forall t j f i,
        (t, j, f, i)
        <> (title, jurisdiction, regulation_family, instrument_type) ->
        document_with_metadata t j f i (snd r)
        = document_with_metadata t j f i st).
Proof.
  intros Hnone r new. subst r. unfold create_document. do 2 run1.
  unfold ret. cbn [fst snd].
  split; [reflexivity |].
  split; [reflexivity |].
  unfold find_document_by_metadata, query, document_with_metadata in *.
  cbn [fst documents tick set_documents draw]. fold new. split.
  - rewrite (ListFacts.find_app_none _ _ _ Hnone). simpl.
    now rewrite !String.eqb_refl.
  - clear Hnone. intros t j f i Hne.
    destruct (List.find _ (documents st)) as [old |] eqn:F.
    + now rewrite (ListFacts.find_app_some _ _ _ _ F).
    + rewrite (ListFacts.find_app_none _ _ _ F). simpl.
      destruct (String.eqb title t) eqn:E1; [| reflexivity].
      destruct (String.eqb jurisdiction j) eqn:E2; [| reflexivity].
      destruct (String.eqb regulation_family f) eqn:E3; [| reflexivity].
      destruct (String.eqb instrument_type i) eqn:E4; [| reflexivity].
      apply String.eqb_eq in E1, E2, E3, E4. subst. now elim Hne.
Qed.

Lemma create_document_then_find_witness :
  let r := create_document "EU CBAM" "EU" "carbon" "regulation"
             "jurisdiction" "DETERMINISTIC_RULE" empty_store in
  fst r = Ok "u0"
  /\ fst (find_document_by_metadata "EU CBAM" "EU" "carbon" "regulation"
            (snd r))
     = Ok (Some {| Doc.document_id := "u0"; Doc.title := "EU CBAM";
                   Doc.jurisdiction := "EU";
                   Doc.regulation_family := "carbon";
                   Doc.instrument_type := "regulation";
                   Doc.primary_axis := Some "jurisdiction";
                   Doc.primary_axis_source := Some "DETERMINISTIC_RULE" |}).
Proof.
  destruct (create_document_then_find "EU CBAM" "EU" "carbon" "regulation"
              "jurisdiction" "DETERMINISTIC_RULE" empty_store eq_refl)
    as (H1 & _ & H3 & _).
  split; [exact H1 | exact H3].
Defined.

(** A conditional status update that has run leaves no row for a second
    update with the same condition. *)
Lemma update_status_twice (id from to to' : string) (now now' : timestamp)
    (l : list Ver.row) :
  to <> from ->
  map (fun v => if String.eqb (Ver.version_id v) id
                   && String.eqb (Ver.status v) from
                then with_status to' now' v else v)
    (map (fun v => if String.eqb (Ver.version_id v) id
                      && String.eqb (Ver.status v) from
                   then with_status to now v else v) l)
  = map (fun v => if String.eqb (Ver.version_id v) id
                     && String.eqb (Ver.status v) from
                  then with_status to now v else v) l.
Proof.
  intros Hne. rewrite map_map. apply map_ext. intros v.
  destruct (String.eqb (Ver.version_id v) id
            && String.eqb (Ver.status v) from) eqn:E.
  - cbn [with_status Ver.version_id Ver.status].
    apply andb_true_iff in E as [E _]. rewrite E. cbn [andb].
    destruct (String.eqb to from) eqn:E2; [| reflexivity].
    apply String.eqb_eq in E2. now elim Hne.
  - now rewrite E.
Qed.

(** The status updates can be delivered twice: a second
    [mark_parent_superseded], [set_status_pending_to_active] or
    [set_status_pending_to_failed] on the same version changes no row,
    and of [set_status_pending_to_active] and
    [set_status_pending_to_failed] the first to run wins. *)
Theorem status_updates_apply_once (id : string) (st : state) :
  let after (c : M unit) (s : state) := snd (c s) in
  let superseded := after (mark_parent_superseded id) in
  let active := after (set_status_pending_to_active id) in
  let failed := after (set_status_pending_to_failed id) in
  document_versions (superseded (superseded st))
  = document_versions (superseded st)
  /\ document_versions (active (active st)) = document_versions (active st)
  /\ document_versions (failed (failed st)) = document_versions (failed st)
  /\ document_versions (failed (active st)) = document_versions (active st)
  /\ document_versions (active (failed st)) = document_versions (failed st).
Proof.
  cbv zeta.
  unfold mark_parent_superseded, set_status_pending_to_active,
    set_status_pending_to_failed, update_versions, execute.
  cbn [snd document_versions tick set_document_versions].
  repeat split; apply update_status_twice; discriminate.
Qed.

(** The row the table [primary_axis_suggestions] holds for a version. *)
Definition suggestion_row (version_id : string) (st : state)
  : option Sug.row :=
  List.find (fun r => String.eqb (Sug.version_id r) version_id)
    (primary_axis_suggestions st).

(** [upsert_primary_axis_suggestion] is an upsert on [version_id]:
    afterwards the row of the version carries the values just given
    (the last write wins), under the identifier of the row the version
    had before if it had one, the identifier drawn for the call being
    dropped; the table has one row more only when the version had none;
    the rows of other versions are as before. *)
Theorem upsert_suggestion_last_write_wins
    (version_id suggested_axis model_name model_version confidence : string)
    (details_json : Json.json) (st : state) :
  let st1 := snd (upsert_primary_axis_suggestion version_id suggested_axis
                    model_name model_version confidence details_json st) in
  let before := suggestion_row version_id st in
  (exists row,
     suggestion_row version_id st1 = Some row
     /\ Sug.version_id row = version_id
     /\ Sug.suggested_axis row = suggested_axis
     /\ Sug.model_name row = model_name
     /\ Sug.model_version row = model_version
     /\ Sug.confidence row = confidence
     /\ Sug.details_json row = details_json
     /\ Sug.suggestion_id row
        = match before with
          | Some old => Sug.suggestion_id old
          | None => uuids st (drawn st)
          end)
  /\ List.length (primary_axis_suggestions st1)
     = match before with
       | Some _ => List.length (primary_axis_suggestions st)
       | None => S (List.length (primary_axis_suggestions st))
       end
  /\ (forall other, other <> version_id ->
        suggestion_row other st1 = suggestion_row other st).
Proof.
  cbv zeta. unfold upsert_primary_axis_suggestion. run1.
  unfold execute, suggestion_row.
  cbn [fst snd primary_axis_suggestions tick draw].
  set (rows := primary_axis_suggestions st).
  set (p := fun r : Sug.row => String.eqb (Sug.version_id r) version_id).
  destruct (existsb p rows) eqn:E;
    cbn [primary_axis_suggestions set_primary_axis_suggestions draw].
  - pose proof (fun q upd H => ListFacts.find_map_same q upd rows H) as Hfind.
    split; [| split].
    + destruct (List.find p rows) as [old |] eqn:F.
      * eexists. split.
        -- rewrite Hfind; [rewrite F; reflexivity |].
           intros r. subst p. cbv beta.
           destruct (String.eqb (Sug.version_id r) version_id) eqn:G; cbn;
             now rewrite G.
        -- apply find_some in F as [_ F]. subst p. cbv beta in F |- *.
           rewrite F. cbn. apply String.eqb_eq in F. repeat split.
           assumption.
      * apply ListFacts.existsb_find_none in F. congruence.
    + destruct (List.find p rows) as [old |] eqn:F.
      * now rewrite length_map.
      * apply ListFacts.existsb_find_none in F. congruence.
    + intros other Hne. rewrite Hfind.
      * destruct (List.find _ rows) as [r |] eqn:F; [| reflexivity].
        apply find_some in F as [_ F]. apply String.eqb_eq in F. simpl.
        destruct (String.eqb (Sug.version_id r) version_id) eqn:G;
          [| reflexivity].
        apply String.eqb_eq in G. congruence.
      * intros r.
        destruct (String.eqb (Sug.version_id r) version_id); reflexivity.
  - pose proof (proj1 (ListFacts.existsb_find_none _ _) E) as F.
    fold p in F. rewrite F. split; [| split].
    + eexists. split.
      * rewrite (ListFacts.find_app_none _ _ _ F). simpl. subst p.
        cbv beta. cbn. rewrite String.eqb_refl. reflexivity.
      * repeat split.
    + rewrite length_app. simpl. lia.
    + intros other Hne.
      destruct (List.find (fun r => String.eqb (Sug.version_id r) other)
                  rows) as [r |] eqn:G.
      * now rewrite (ListFacts.find_app_some _ _ _ _ G).
      * rewrite (ListFacts.find_app_none _ _ _ G). simpl.
        destruct (String.eqb version_id other) eqn:K; [| reflexivity].
        apply String.eqb_eq in K. now elim Hne.
Qed.

End RegistryFacts.

(* ------------------------------------------------------------------ *)
(** ** [app/refdata/loader.py] *)

Module Loader.
Import Store Ingestion.

Section Defaults.

Variable cfg : settings.

Definition DEFAULT_RULES : Rules.rule_json :=
  {| Rules.required_fields :=
       Some ["title"; "jurisdiction"; "regulation_family";
             "instrument_type"; "primary_axis"; "tenant_id";
             "effective_year"];
     Rules.max_pdf_mb := Some (MAX_PDF_MB cfg) |}.

Definition is_upload_rules (r : Rule.row) : bool :=
  String.eqb (Rule.rule_key r) "EPIC1_UPLOAD_RULES".

(** [INSERT INTO ref_rules ... ON CONFLICT (rule_key) DO UPDATE SET
    rule_json=EXCLUDED.rule_json, is_active=true] *)
Definition ensure_default_rules : M unit :=
  execute (fun st =>
    let rows := ref_rules st in
    {| ref_rules :=
         if existsb is_upload_rules rows then
           map (fun r =>
                  if is_upload_rules r then
                    {| Rule.rule_key := Rule.rule_key r;
                       Rule.rule_json := DEFAULT_RULES;
                       Rule.is_active := true |}
                  else r) rows
         else (rows ++ [{| Rule.rule_key := "EPIC1_UPLOAD_RULES";
                           Rule.rule_json := DEFAULT_RULES;
                           Rule.is_active := true |}])%list;
       documents := documents st;
       document_versions := document_versions st;
       evidence_files := evidence_files st;
       audit_log := audit_log st;
       primary_axis_suggestions := primary_axis_suggestions st;
       objects := objects st;
       uri_prefix := uri_prefix st;
       clock := clock st;
       uuids := uuids st;
       drawn := drawn st |}).

End Defaults.

End Loader.

Module LoaderFacts.
Import Store Run Registry Ingestion Loader PyStr.
Import IngestionFacts.

(** [enforce_upload_rules] passes exactly when no required field is
    None or empty; when it raises, the error has status 400 and lists
    the required fields that are, in the order of the rule. *)
Lemma enforce_upload_rules_spec (rules : Rules.rule_json)
    (payload_get : string -> Rules.pyval) :
  let required := match Rules.required_fields rules with
                  | Some l => l
                  | None => []
                  end in
  (Rules.enforce_upload_rules rules payload_get = inr tt
   <-> Forall (fun f => Rules.is_blank_value (payload_get f) = false)
         required)
  /\ (forall e, Rules.enforce_upload_rules rules payload_get = inl e ->
        e = Rules.MissingRequiredFields
              (filter (fun f => Rules.is_blank_value (payload_get f))
                 required)
        /\ Rules.status_code e = 400%Z).
Proof.
  intros required. unfold Rules.enforce_upload_rules. fold required.
  destruct (filter _ required) as [|f l] eqn:E.
  - split; [| discriminate]. split; [| reflexivity]. intros _.
    apply Forall_forall. intros f Hf.
    destruct (Rules.is_blank_value (payload_get f)) eqn:B; [| reflexivity].
    assert (Hin : In f (filter
                          (fun f => Rules.is_blank_value (payload_get f))
                          required))
      by (apply filter_In; now split).
    rewrite E in Hin. destruct Hin.
  - split.
    + split; [discriminate |]. intros H.
      assert (Hin : In f (f :: l)) by now left.
      rewrite <- E in Hin. apply filter_In in Hin as [Hin Hb].
      rewrite Forall_forall in H. rewrite (H f Hin) in Hb. discriminate.
    + intros e [= <-]. now split.
Qed.

Lemma upsert_rules_found (cfg : settings) (rows : list Rule.row) :
  existsb is_upload_rules rows = true ->
  option_map Rule.rule_json
    (List.find
       (fun r => String.eqb (Rule.rule_key r) "EPIC1_UPLOAD_RULES"
                 && Rule.is_active r)
       (map (fun r =>
               if is_upload_rules r then
                 {| Rule.rule_key := Rule.rule_key r;
                    Rule.rule_json := DEFAULT_RULES cfg;
                    Rule.is_active := true |}
               else r) rows))
  = Some (DEFAULT_RULES cfg).
Proof.
  induction rows as [|r l IH]; [discriminate |].
  cbn [existsb map List.find].
  destruct (is_upload_rules r) eqn:U; unfold is_upload_rules in U.
  - intros _. cbn [Rule.rule_key Rule.is_active]. rewrite U. reflexivity.
  - rewrite U. cbn [orb andb]. exact IH.
Qed.

Lemma no_rules_not_found (rows : list Rule.row) :
  existsb is_upload_rules rows = false ->
  List.find
    (fun r => String.eqb (Rule.rule_key r) "EPIC1_UPLOAD_RULES"
              && Rule.is_active r) rows = None.
Proof.
  induction rows as [|r l IH]; [reflexivity |].
  cbn [existsb List.find].
  destruct (is_upload_rules r) eqn:U; unfold is_upload_rules in U;
    [discriminate |].
  rewrite U. exact IH.
Qed.

Lemma active_after_ensure (cfg : settings) (st : state) :
  active_rules cfg (snd (ensure_default_rules cfg st)) = DEFAULT_RULES cfg.
Proof.
  unfold active_rules, ensure_default_rules, execute.
  cbn [snd ref_rules tick].
  destruct (existsb is_upload_rules (ref_rules st)) eqn:E.
  - pose proof (upsert_rules_found cfg _ E) as H.
    destruct (List.find _ _) as [row |]; [| discriminate].
    now injection H.
  - rewrite (ListFacts.find_app_none _ _ _ (no_rules_not_found _ E)).
    reflexivity.
Qed.

(** After [ensure_default_rules], which runs at start-up, the active
    rules are the default ones, whatever the rule table held, and they
    require primary_axis: an upload whose primary_axis is None or empty
    is rejected with the missing-fields error naming it, before anything
    is written.  An upload that passes and has its primary_axis derived
    by the deterministic rule carries a primary_axis that is not empty
    and is whitespace only. *)
Theorem default_rules_require_primary_axis (cfg : settings)
    (pdf_bytes : Sha256.bytes) (meta : Meta.t) (actor : string)
    (force_new_version : bool) (st : state) :
  let st1 := snd (ensure_default_rules cfg st) in
  let r := ingest_request cfg pdf_bytes meta actor force_new_version st1 in
  active_rules cfg st1 = DEFAULT_RULES cfg
  /\ (Meta.primary_axis meta = None \/ Meta.primary_axis meta = Some "" ->
      exists missing,
        r = (Raise (Rules.MissingRequiredFields missing), draw st1)
        /\ In "primary_axis" missing)
  /\ (Rules.enforce_upload_rules (active_rules cfg st1) (Meta.get meta)
      = inr tt ->
      snd (fst (resolve_primary_axis meta)) = "DETERMINISTIC_RULE" ->
      exists s, Meta.primary_axis meta = Some s /\ s <> "" /\ strip s = "").
Proof.
  intros st1 r. pose proof (active_after_ensure cfg st) as Hact.
  fold st1 in Hact. split; [exact Hact |].
  assert (Hblank : forall f l,
            Rules.required_fields (DEFAULT_RULES cfg) = Some l ->
            In f l -> Rules.is_blank_value (Meta.get meta f) = true ->
            exists missing,
              Rules.enforce_upload_rules (DEFAULT_RULES cfg) (Meta.get meta)
              = inl (Rules.MissingRequiredFields missing)
              /\ In f missing).
  { intros f l Hl Hin Hb. unfold Rules.enforce_upload_rules. rewrite Hl.
    assert (Hf : In f (filter
                         (fun f => Rules.is_blank_value (Meta.get meta f))
                         l)) by (apply filter_In; now split).
    destruct (filter _ l) as [|x t]; [destruct Hf |].
    eexists. split; [reflexivity | exact Hf]. }
  split.
  - intros Hpa.
    destruct (Hblank "primary_axis" _ eq_refl) as [missing [He Hin]].
    + simpl. tauto.
    + unfold Meta.get. simpl. destruct Hpa as [-> | ->]; reflexivity.
    + exists missing. split; [| exact Hin].
      subst r. rewrite ingest_request_parts. cbv zeta.
      rewrite Hact, He. reflexivity.
  - rewrite Hact. intros Hpass Hsrc.
    apply (proj1 (proj1 (enforce_upload_rules_spec _ _))) in Hpass.
    simpl in Hpass. rewrite Forall_forall in Hpass.
    assert (Hpa : Rules.is_blank_value (Meta.get meta "primary_axis")
                  = false) by (apply Hpass; simpl; tauto).
    unfold Meta.get in Hpa. simpl in Hpa.
    unfold resolve_primary_axis, primary_axis_supplied in Hsrc.
    destruct (Meta.primary_axis meta) as [s |]; [| discriminate].
    exists s. split; [reflexivity |].
    destruct s as [|c s]; [discriminate |]. split; [discriminate |].
    cbn [truthy andb] in Hsrc.
    destruct (strip (String c s)) eqn:Es; [reflexivity |].
    simpl in Hsrc. discriminate.
Qed.

End LoaderFacts.

(* ------------------------------------------------------------------ *)
(** ** The orchestrator: the dedupe shortcut and the audit trail *)

Module RequestFacts.
Import Store Run Registry Ingestion System SystemFacts AuditChain Json PyStr.
Import IngestionFacts.

Lemma dedupe_match_sha (sha : string) (meta : Meta.t) (st : state)
    (ex : Existing.t) :
  dedupe_match sha meta st = Some ex -> Existing.sha256 ex = sha.
Proof.
  unfold dedupe_match, dedupe_on_file.
  destruct (List.find _ (evidence_files st)) as [f |]; [| discriminate].
  destruct (List.find _ (versions_of_file sha (Ev.file_id f) st));
    [| discriminate].
  now intros [= <-].
Qed.

(** What [_dedupe_match_existing] returns exists: an evidence row with
    the hash, a version on that file with the hash, and the document of
    that version, whose four metadata columns are those of the
    request. *)
Theorem dedupe_match_is_sound (sha : string) (meta : Meta.t) (st : state)
    (ex : Existing.t) :
  dedupe_match sha meta st = Some ex ->
  Existing.sha256 ex = sha
  /\ exists f v d,
       In f (evidence_files st) /\ In v (document_versions st)
       /\ In d (documents st)
       /\ Ev.sha256 f = sha
       /\ Ev.file_id f = Existing.file_id ex
       /\ Ver.raw_sha256 v = sha
       /\ Ver.file_id v = Some (Existing.file_id ex)
       /\ Ver.version_id v = Existing.version_id ex
       /\ Ver.document_id v = Existing.document_id ex
       /\ Doc.document_id d = Existing.document_id ex
       /\ Doc.title d = Meta.title meta
       /\ Doc.jurisdiction d = Meta.jurisdiction meta
       /\ Doc.regulation_family d = Meta.regulation_family meta
       /\ Doc.instrument_type d = Meta.instrument_type meta.
Proof.
  unfold dedupe_match, dedupe_on_file.
  destruct (List.find _ (evidence_files st)) as [f |] eqn:Ff;
    [| discriminate].
  destruct (List.find _ (versions_of_file sha (Ev.file_id f) st))
    as [[v d] |] eqn:Fv; [| discriminate].
  intros [= <-]. cbn [Existing.sha256 Existing.file_id Existing.version_id
                       Existing.document_id fst].
  split; [reflexivity |].
  apply find_some in Ff as [Hf Hsha]. apply String.eqb_eq in Hsha.
  apply find_some in Fv as [Hin Hmeta]. cbn [snd] in Hmeta.
  unfold versions_of_file in Hin. apply order_by_desc_in in Hin.
  apply in_flat_map in Hin as [v' [Hv Hd]].
  apply in_map_iff in Hd as [d' [[= -> ->] Hd]].
  apply filter_In in Hv as [Hv Hcond].
  apply filter_In in Hd as [Hd Hid].
  apply andb_true_iff in Hcond as [Hvsha Hfile].
  apply String.eqb_eq in Hvsha, Hid.
  destruct (Ver.file_id v) as [fid |] eqn:Efid; [| discriminate].
  apply String.eqb_eq in Hfile. subst fid.
  unfold same_metadata in Hmeta.
  apply andb_true_iff in Hmeta as [Hmeta Hi].
  apply andb_true_iff in Hmeta as [Hmeta Ht].
  apply andb_true_iff in Hmeta as [Hj Hfam].
  apply String.eqb_eq in Hi, Ht, Hj, Hfam.
  exists f, v, d. repeat split; assumption.
Qed.

Lemma dedupe_match_is_sound_witness :
  dedupe_match (sha256_bytes sample_pdf) (sample_meta "EU CBAM" None)
    one_version
  = Some {| Existing.document_id := "d1"; Existing.version_id := "v1";
            Existing.file_id := "f1";
            Existing.sha256 := sha256_bytes sample_pdf |}
  /\ exists f v d,
       In f (evidence_files one_version)
       /\ In v (document_versions one_version)
       /\ In d (documents one_version)
       /\ Ev.file_id f = "f1" /\ Ver.version_id v = "v1"
       /\ Doc.document_id d = "d1" /\ Doc.title d = "EU CBAM".
Proof.
  assert (H : dedupe_match (sha256_bytes sample_pdf)
                (sample_meta "EU CBAM" None) one_version
              = Some {| Existing.document_id := "d1";
                        Existing.version_id := "v1";
                        Existing.file_id := "f1";
                        Existing.sha256 := sha256_bytes sample_pdf |})
    by (vm_compute; reflexivity).
  split; [exact H |].
  destruct (dedupe_match_is_sound _ _ _ _ H)
    as (_ & f & v & d & Hf & Hv & Hd & _ & Ef & _ & _ & Ev & _ & Ed & Et & _).
  exists f, v, d. repeat split; assumption.
Defined.

(** The dedupe shortcut: an upload that passes validation, is not
    forced, and for which [_dedupe_match_existing] finds a version, is
    answered 200 DEDUP_RETURN_EXISTING with the identifiers found, the
    hash, and the primary_axis_source the document has now; it writes no
    document, version, evidence row, suggestion or object, and adds four
    audit rows, the last one on the version found. *)
Theorem dedupe_shortcut_writes_audit_only (cfg : settings)
    (pdf_bytes : Sha256.bytes) (meta : Meta.t) (actor : string)
    (st : state) (ex : Existing.t) :
  Rules.enforce_upload_rules (active_rules cfg st) (Meta.get meta) = inr tt ->
  too_large (max_mb_of cfg (active_rules cfg st)) pdf_bytes = false ->
  dedupe_match (sha256_bytes pdf_bytes) meta st = Some ex ->
  let r := ingest_request cfg pdf_bytes meta actor false st in
  (exists resp,
     fst r = Ok resp
     /\ Response.http_status resp = 200%Z
     /\ Response.ingestion_status resp = "DEDUP_RETURN_EXISTING"
     /\ Response.document_id resp = Existing.document_id ex
     /\ Response.version_id resp = Existing.version_id ex
     /\ Response.file_id resp = Existing.file_id ex
     /\ Response.sha256 resp = sha256_bytes pdf_bytes
     /\ Response.primary_axis_source resp
        = match document_with_id (Existing.document_id ex) st with
          | Some d => Doc.primary_axis_source d
          | None => None
          end
     /\ Response.primary_axis_suggestion resp = None)
  /\ documents (snd r) = documents st
  /\ document_versions (snd r) = document_versions st
  /\ evidence_files (snd r) = evidence_files st
  /\ primary_axis_suggestions (snd r) = primary_axis_suggestions st
  /\ objects (snd r) = objects st
  /\ exists rows last,
       audit_log (snd r) = (audit_log st ++ rows ++ [last])%list
       /\ map Aud.action rows
          = ["EPIC1.REQUEST.RECEIVED"; "EPIC1.FINGERPRINT.COMPUTED";
             "EPIC1.DEDUP.CHECKED"]
       /\ Aud.action last = "EPIC1.DEDUP.SHORTCIRCUIT_RETURNED"
       /\ Aud.entity_type last = "version"
       /\ Aud.entity_id last = Existing.version_id ex.
Proof.
  intros Hrules Hsize Hex r. subst r.
  rewrite ingest_request_parts. cbv zeta. rewrite Hrules, Hsize, Hex.
  cbn [fst snd]. split.
  - eexists. split; [reflexivity |].
    unfold dedupe_response. cbn.
    repeat split. exact (dedupe_match_sha _ _ _ _ Hex).
  - split; [reflexivity |]. split; [reflexivity |]. split; [reflexivity |].
    split; [reflexivity |]. split; [reflexivity |].
    eexists [_; _; _], _. split.
    + unfold written, checked, written.
      cbn [audit_log tick set_audit_log draw].
      rewrite <- !app_assoc. reflexivity.
    + repeat split.
Qed.

Lemma dedupe_shortcut_writes_audit_only_witness :
  let r := ingest_request sample_settings sample_pdf
             (sample_meta "EU CBAM" None) "op" false one_version in
  answer (fst r) = Some (200%Z, "DEDUP_RETURN_EXISTING")
  /\ document_versions (snd r) = document_versions one_version
  /\ evidence_files (snd r) = evidence_files one_version.
Proof.
  destruct (dedupe_shortcut_writes_audit_only sample_settings sample_pdf
              (sample_meta "EU CBAM" None) "op" one_version
              {| Existing.document_id := "d1";
                 Existing.version_id := "v1";
                 Existing.file_id := "f1";
                 Existing.sha256 := sha256_bytes sample_pdf |})
    as ((resp & Hr & H200 & Hst & _) & _ & Hv & He & _).
  - reflexivity.
  - reflexivity.
  - vm_compute. reflexivity.
  - cbv zeta. rewrite Hr. cbn [answer]. rewrite H200, Hst.
    split; [reflexivity |]. split; assumption.
Defined.

(** *** One correlation identifier per request *)

(** The rows added to the log carry the correlation identifier and the
    actor. *)
Definition audit_tagged (correlation_id actor : string) (st st' : state)
  : Prop :=
  exists added,
    audit_log st' = (audit_log st ++ added)%list
    /\ Forall (fun r => Aud.correlation_id r = correlation_id
                        /\ Aud.actor r = actor) added.

#[local] Instance audit_tagged_preorder (correlation_id actor : string) :
  PreOrder (audit_tagged correlation_id actor).
Proof.
  split.
  - intros st. exists []. split; [now rewrite app_nil_r | constructor].
  - intros a b c [l1 [H1 P1]] [l2 [H2 P2]]. exists (l1 ++ l2)%list. split.
    + now rewrite H2, H1, app_assoc.
    + apply Forall_app. now split.
Qed.

Ltac tagged_leaf :=
  try match goal with
      | |- context [if ?c then _ else _] => destruct c
      end;
  first
    [ exists []; split; [cbn; now rewrite app_nil_r | constructor]
    | eexists [_]; split;
      [cbn; reflexivity | constructor; [now split | constructor]] ].

(** A call returns only values that satisfy [P]. *)
Definition returns {A : Type} (P : A -> Prop) (c : M A) : Prop :=
  forall st a, fst (c st) = Ok a -> P a.

Lemma returns_bind {A B : Type} (P : B -> Prop) (c : M A) (k : A -> M B) :
  (forall a, returns P (k a)) -> returns P (bind c k).
Proof.
  intros H st b. unfold bind. destruct (c st) as [[a | e] st'].
  - apply H.
  - discriminate.
Qed.

Lemma returns_ret {A : Type} (P : A -> Prop) (a : A) :
  P a -> returns P (ret a).
Proof. intros H st b [= <-]. exact H. Qed.

Lemma returns_raise {A : Type} (P : A -> Prop) (e : Rules.http_exception) :
  returns P (@raise A e).
Proof. intros st b. discriminate. Qed.

Ltac returns_auto :=
  repeat match goal with
    | |- returns _ (bind _ _) => apply returns_bind; intros
    | |- returns _ (ret _) => apply returns_ret; reflexivity
    | |- returns _ (raise _) => apply returns_raise
    | |- returns _ (if ?b then _ else _) => destruct b
    | |- returns _ (match ?x with _ => _ end) => destruct x
    end.

(** Every request works under one correlation identifier, the first
    identifier it draws: every audit row the request adds carries it,
    with the actor of the request, whether the request is answered or
    rejected, and the answer names it. *)
Theorem one_correlation_id_per_request (cfg : settings)
    (pdf_bytes : Sha256.bytes) (meta : Meta.t) (actor : string)
    (force_new_version : bool) (st : state) :
  let r := ingest_request cfg pdf_bytes meta actor force_new_version st in
  let correlation_id := uuids st (drawn st) in
  (exists added,
     audit_log (snd r) = (audit_log st ++ added)%list
     /\ Forall (fun row => Aud.correlation_id row = correlation_id
                           /\ Aud.actor row = actor) added)
  /\ (forall resp, fst r = Ok resp ->
        Response.correlation_id resp = correlation_id).
Proof.
  intros r correlation_id. subst r. unfold ingest_request. run1.
  fold correlation_id. split.
  - match goal with
    | |- context [snd (?c (draw st))] =>
        assert (K : keeps (audit_tagged correlation_id actor) c)
          by (unfold_calls; unfold_updates; keeps_auto (fail) (tagged_leaf));
        exact (K (draw st))
    end.
  - match goal with
    | |- context [fst (?c (draw st))] =>
        assert (K : returns
                      (fun resp => Response.correlation_id resp
                                   = correlation_id) c)
          by (unfold llm_suggestion, supersede_parent; returns_auto);
        exact (K (draw st))
    end.
Qed.

End RequestFacts.

(* ------------------------------------------------------------------ *)
(** ** What an upload does to the statuses *)

Module StatusFacts.
Import Store Run Registry Ingestion System SystemFacts Json PyStr.
Import IngestionFacts.

(** The version rows of [st] are all still there in [st'], in place;
    a row [v] has the status [f v] in [st']; rows may have been added
    after them. *)
Definition moved (f : Ver.row -> string) (st st' : state) : Prop :=
  exists kept added,
    document_versions st' = (kept ++ added)%list
    /\ Forall2 (fun v v' => Ver.version_id v' = Ver.version_id v
                            /\ Ver.status v' = f v)
         (document_versions st) kept.

Lemma Forall2_same_status (l : list Ver.row) :
  Forall2 (fun v v' => Ver.version_id v' = Ver.version_id v
                       /\ Ver.status v' = Ver.status v) l l.
Proof. induction l; constructor; [now split | assumption]. Qed.

Lemma moved_same (st st' : state) :
  document_versions st' = document_versions st -> moved Ver.status st st'.
Proof.
  intros H. exists (document_versions st), []. rewrite app_nil_r.
  split; [exact H | apply Forall2_same_status].
Qed.

Lemma moved_compose (f g h : Ver.row -> string) (a b c : state) :
  (forall v v', Ver.version_id v' = Ver.version_id v ->
                Ver.status v' = f v -> g v' = h v) ->
  moved f a b -> moved g b c -> moved h a c.
Proof.
  intros Hfg (k1 & a1 & E1 & F1) (k2 & a2 & E2 & F2).
  rewrite E1 in F2. apply Forall2_app_inv_l in F2
    as (k21 & k22 & F21 & F22 & ->).
  exists k21, (k22 ++ a2)%list. split; [now rewrite E2, app_assoc |].
  eapply Forall2_compose; [| exact F1 | exact F21].
  intros v v' v'' [I1 S1] [I2 S2]. split; [congruence |].
  cbv beta in *. rewrite S2. now apply Hfg.
Qed.

#[local] Instance moved_status_preorder : PreOrder (moved Ver.status).
Proof.
  split.
  - intros st. now apply moved_same.
  - intros a b c Hab Hbc.
    apply (moved_compose Ver.status Ver.status Ver.status a b c);
      [| assumption | assumption].
    intros v v' _ H. exact H.
Qed.

Lemma update_keeps_status (cond : Ver.row -> bool)
    (f : timestamp -> Ver.row -> Ver.row) :
  (forall now v, Ver.version_id (f now v) = Ver.version_id v
                 /\ Ver.status (f now v) = Ver.status v) ->
  keeps (moved Ver.status) (update_versions cond f).
Proof.
  intros Hf st. unfold update_versions, execute. cbn [snd].
  eexists _, []. rewrite app_nil_r.
  split; [cbn [document_versions tick set_document_versions];
          reflexivity |].
  induction (document_versions st) as [|v l IH]; cbn [map]; constructor;
    [| exact IH].
  destruct (cond v); [apply Hf | now split].
Qed.

Ltac status_known :=
  match goal with
  | |- keeps _ (set_version_file_id _ _) =>
      apply update_keeps_status; intros; now split
  | |- keeps _ (set_artifacts_json _ _) =>
      apply update_keeps_status; intros; now split
  end.

Ltac status_leaf :=
  try match goal with
      | |- context [if ?c then _ else _] => destruct c
      end;
  first
    [ apply moved_same; reflexivity
    | eexists _, [_]; split;
      [cbn [document_versions tick set_document_versions]; reflexivity
      | apply Forall2_same_status] ].

(** The status of a version row after an upload: the parent the upload
    names is superseded if the upload created a version and the parent
    was ACTIVE. *)
Definition status_after (created : bool) (meta : Meta.t) (v : Ver.row)
  : string :=
  if created
     && truthy_opt (Meta.parent_version_id meta)
     && String.eqb (Ver.version_id v) (or_empty (Meta.parent_version_id meta))
     && String.eqb (Ver.status v) "ACTIVE"
  then "SUPERSEDED" else Ver.status v.

(** The upload was answered 201. *)
Definition created (o : outcome Response.t) : bool :=
  match o with
  | Ok resp => (Response.http_status resp =? 201)%Z
  | Raise _ => false
  end.

Section Upload.

Variable cfg : settings.

Lemma finish_moves (meta : Meta.t)
    (version_id actor correlation_id document_id file_id sha : string)
    (evidence_row : option Ev.row) (force_new_version created_new_doc : bool)
    (source_out : option string) (st : state) :
  let r := finish cfg meta version_id actor correlation_id document_id
             file_id sha evidence_row force_new_version created_new_doc
             source_out st in
  created (fst r) = true /\ moved (status_after true meta) st (snd r).
Proof.
  cbv zeta. split.
  - destruct (finish_returns cfg meta version_id actor correlation_id
                document_id file_id sha evidence_row force_new_version
                created_new_doc source_out st) as (resp & -> & H201 & _).
    cbn [created]. now rewrite H201.
  - unfold finish. rewrite bind_unfold.
    assert (Hsup :
      exists s1,
        supersede_parent meta version_id actor correlation_id st
        = (Ok tt, s1)
        /\ moved (status_after true meta) st s1).
    { unfold supersede_parent, status_after. cbn [andb].
      destruct (truthy_opt (Meta.parent_version_id meta)); cbn [andb].
      - unfold mark_parent_superseded, update_versions.
        do 2 run1. unfold ret. eexists. split; [reflexivity |].
        eexists _, []. rewrite app_nil_r. split; [reflexivity |].
        cbn [document_versions tick set_document_versions draw].
        induction (document_versions st) as [|v l IH]; cbn [map];
          constructor; [| exact IH].
        destruct (String.eqb (Ver.version_id v) _ && _); now split.
      - eexists. split; [reflexivity |].
        exists (document_versions st), []. rewrite app_nil_r.
        split; [reflexivity | apply Forall2_same_status]. }
    destruct Hsup as (s1 & -> & Hs1). cbv iota beta.
    match goal with
    | |- moved _ st (snd (?c s1)) =>
        assert (K : keeps (moved Ver.status) c)
          by (unfold_calls; keeps_auto (fail) (status_leaf))
    end.
    apply (moved_compose (status_after true meta) Ver.status
             (status_after true meta) st s1); [| exact Hs1 | apply K].
    intros v v' _ H. exact H.
Qed.

Lemma attach_moves (pdf_bytes : Sha256.bytes) (meta : Meta.t)
    (actor correlation_id document_id sha : string)
    (force_new_version created_new_doc : bool)
    (source_out : option string) (version_id : string) (st : state) :
  let r := attach cfg pdf_bytes meta actor correlation_id document_id sha
             force_new_version created_new_doc source_out version_id st in
  created (fst r) = true /\ moved (status_after true meta) st (snd r).
Proof.
  cbv zeta.
  assert (Hatt :
    exists file_id evidence_row s1,
      attach cfg pdf_bytes meta actor correlation_id document_id sha
        force_new_version created_new_doc source_out version_id st
      = finish cfg meta version_id actor correlation_id document_id
          file_id sha evidence_row force_new_version created_new_doc
          source_out (snd (set_version_file_id version_id file_id s1))
      /\ document_versions s1 = document_versions st).
  { destruct (create_evidence_run sha pdf_bytes document_id version_id st)
      as (key & uri & e & s1 & Hce & _ & _ & _ & _ & E5).
    unfold attach, Evidence.find_by_sha. run1.
    destruct (Evidence.latest_with_sha sha st) as [row |];
      [destruct force_new_version |].
    - exists (Ev.file_id row), (Some row), st. split; [| reflexivity].
      run1. unfold set_version_file_id at 1, update_versions at 1. run1.
      reflexivity.
    - exists (uuids st (drawn st)), (Some row), s1. split; [| exact E5].
      rewrite bind_bind, (bind_ok _ _ _ _ _ Hce). cbn [fst]. run1.
      unfold set_version_file_id at 1, update_versions at 1. run1.
      reflexivity.
    - exists (uuids st (drawn st)), None, s1. split; [| exact E5].
      rewrite bind_bind, (bind_ok _ _ _ _ _ Hce). cbn [fst]. run1.
      unfold set_version_file_id at 1, update_versions at 1. run1.
      reflexivity. }
  destruct Hatt as (file_id & evidence_row & s1 & -> & H1).
  destruct (finish_moves meta version_id actor correlation_id document_id
              file_id sha evidence_row force_new_version created_new_doc
              source_out (snd (set_version_file_id version_id file_id s1)))
    as [Hc Hm].
  split; [exact Hc |].
  apply (moved_compose Ver.status (status_after true meta)
           (status_after true meta) st
           (snd (set_version_file_id version_id file_id s1)));
    [| | exact Hm].
  - intros v v' Hid Hst. unfold status_after. now rewrite Hid, Hst.
  - transitivity s1; [now apply moved_same |].
    unfold set_version_file_id. apply update_keeps_status.
    intros now v. now split.
Qed.

Lemma after_dedupe_moves (pdf_bytes : Sha256.bytes) (meta : Meta.t)
    (actor : string) (force_new_version : bool) (correlation_id : string)
    (st : state) :
  let r := after_dedupe cfg pdf_bytes meta actor force_new_version
             correlation_id st in
  moved (status_after (created (fst r)) meta) st (snd r).
Proof.
  cbv zeta. unfold after_dedupe. cbv zeta.
  pose proof (resolve_parent meta) as Hp.
  destruct (resolve_primary_axis meta) as [[value source] meta'].
  cbn [snd] in Hp.
  assert (Hmeta : forall b v, status_after b meta' v = status_after b meta v)
    by (intros b v; unfold status_after; now rewrite Hp).
  assert (Hrest :
    forall document_id created_new_doc source_out s,
      document_versions s = document_versions st ->
      let r := bind (create_version document_id (Meta.tenant_id meta')
                       (Meta.effective_year meta') actor
                       (sha256_bytes pdf_bytes) (Meta.version_label meta')
                       (Meta.effective_date meta')
                       (Meta.parent_version_id meta') None "PENDING")
                 (attach cfg pdf_bytes meta' actor correlation_id
                    document_id (sha256_bytes pdf_bytes) force_new_version
                    created_new_doc source_out) s in
      moved (status_after (created (fst r)) meta) st (snd r)).
  { intros document_id created_new_doc source_out s Hs. cbv zeta.
    rewrite bind_unfold.
    match goal with
    | |- context [create_version ?a ?b ?c ?d ?e ?f ?g ?h None _ ?s] =>
        destruct (create_version_cases a b c d e f g h s)
          as [[e' H] | (new & st1 & H & V1 & _)];
        rewrite H; cbv iota beta
    end.
    - cbn [fst snd created]. now apply moved_same.
    - destruct (attach_moves pdf_bytes meta' actor correlation_id
                  document_id (sha256_bytes pdf_bytes) force_new_version
                  created_new_doc source_out (uuids s (drawn s)) st1)
        as [-> Hm].
      apply (moved_compose Ver.status (status_after true meta')
               (status_after true meta) st st1); [| | exact Hm].
      + intros v v' Hid Hst. rewrite Hmeta. unfold status_after.
        now rewrite Hid, Hst.
      + exists (document_versions st), [new]. rewrite V1, Hs.
        split; [reflexivity | apply Forall2_same_status]. }
  unfold find_document_by_metadata. run1.
  destruct (document_with_metadata _ _ _ _ st) as [d |].
  - destruct (primary_axis_mismatch meta' d).
    + run1. cbn [fst snd created]. now apply moved_same.
    + run1. cbv iota. now apply Hrest.
  - rewrite bind_bind. unfold create_document.
    rewrite bind_bind. run1. rewrite bind_bind. do 3 run1. cbv iota.
    now apply Hrest.
Qed.

End Upload.

(** An upload changes the status of no version but the parent it
    names: every version row is still in place afterwards; if the
    upload was answered 201 and names a parent_version_id, the rows of
    that version that were ACTIVE are SUPERSEDED; every other row,
    and every row when the upload is rejected, answered by the dedupe
    shortcut or names no parent, has the status it had. *)
Theorem upload_supersedes_only_active_parent (cfg : settings)
    (pdf_bytes : Sha256.bytes) (meta : Meta.t) (actor : string)
    (force_new_version : bool) (st : state) :
  let r := ingest_request cfg pdf_bytes meta actor force_new_version st in
  exists kept added,
    document_versions (snd r) = (kept ++ added)%list
    /\ Forall2 (fun v v' =>
                  Ver.version_id v' = Ver.version_id v
                  /\ Ver.status v' = status_after (created (fst r)) meta v)
         (document_versions st) kept.
Proof.
  cbv zeta. fold (moved (status_after
                           (created (fst (ingest_request cfg pdf_bytes meta
                                            actor force_new_version st)))
                           meta) st
                    (snd (ingest_request cfg pdf_bytes meta actor
                            force_new_version st))).
  rewrite ingest_request_parts. cbv zeta.
  destruct (Rules.enforce_upload_rules _ _);
    [now apply moved_same |].
  destruct (too_large _ _); [now apply moved_same |].
  assert (Hafter :
    moved (status_after
             (created (fst (after_dedupe cfg pdf_bytes meta actor
                              force_new_version (uuids st (drawn st))
                              (checked pdf_bytes meta actor
                                 force_new_version st))))
             meta) st
      (snd (after_dedupe cfg pdf_bytes meta actor force_new_version
              (uuids st (drawn st))
              (checked pdf_bytes meta actor force_new_version st)))).
  { eapply (moved_compose Ver.status);
      [| apply (moved_same st
                  (checked pdf_bytes meta actor force_new_version st));
         reflexivity
       | apply after_dedupe_moves].
    intros v v' Hid Hst. unfold status_after. now rewrite Hid, Hst. }
  destruct (dedupe_match _ _ _) as [ex |]; destruct force_new_version;
    try exact Hafter.
  now apply moved_same.
Qed.

End StatusFacts.

(* ------------------------------------------------------------------ *)
(** ** One document per metadata *)

Module DocumentFacts.
Import Store Run Registry Ingestion System SystemFacts IngestionFacts.

#[local] Existing Instance SystemFacts.documents_grow_preorder.

(** The four columns [find_document_by_metadata] selects on. *)
Definition metadata (d : Doc.row) : string * string * string * string :=
  (Doc.title d, Doc.jurisdiction d, Doc.regulation_family d,
   Doc.instrument_type d).

(** No two documents have the same four columns. *)
Definition metadata_unique (st : state) : Prop :=
  NoDup (map metadata (documents st)).

Lemma document_with_metadata_none (t j f i : string) (st : state) :
  document_with_metadata t j f i st = None ->
  ~ In (t, j, f, i) (map metadata (documents st)).
Proof.
  unfold document_with_metadata. intros H Hin.
  apply in_map_iff in Hin as [d [Hd Hin]].
  apply (find_none _ _ H) in Hin. unfold metadata in Hd.
  injection Hd as <- <- <- <-. now rewrite !String.eqb_refl in Hin.
Qed.

Lemma version_steps_keep_documents (cfg : settings)
    (pdf_bytes : Sha256.bytes) (meta : Meta.t)
    (actor correlation_id document_id sha : string)
    (force_new_version created_new_doc : bool)
    (primary_axis_source_out : option string) (parent : option string) :
  keeps (documents_grow (fun _ => False))
    (bind (create_version document_id (Meta.tenant_id meta)
             (Meta.effective_year meta) actor sha (Meta.version_label meta)
             (Meta.effective_date meta) parent None "PENDING")
       (attach cfg pdf_bytes meta actor correlation_id document_id sha
          force_new_version created_new_doc primary_axis_source_out)).
Proof.
  unfold attach, finish. unfold_calls. unfold_updates.
  keeps_auto (fail) (documents_leaf).
Qed.

(** A request leaves the documents as they were, or adds one document
    with the metadata of the request, and this only when no document
    had them. *)
Lemma ingest_request_documents (cfg : settings) (pdf_bytes : Sha256.bytes)
    (meta : Meta.t) (actor : string) (force_new_version : bool)
    (st : state) :
  let st' := snd (ingest_request cfg pdf_bytes meta actor force_new_version
                    st) in
  documents st' = documents st
  \/ (document_with_metadata (Meta.title meta) (Meta.jurisdiction meta)
        (Meta.regulation_family meta) (Meta.instrument_type meta) st = None
      /\ exists d,
           documents st' = (documents st ++ [d])%list
           /\ metadata d
              = (Meta.title meta, Meta.jurisdiction meta,
                 Meta.regulation_family meta, Meta.instrument_type meta)).
Proof.
  cbv zeta. rewrite ingest_request_parts. cbv zeta.
  destruct (Rules.enforce_upload_rules _ _); [now left |].
  destruct (too_large _ _); [now left |].
  assert (Hafter :
    forall st3 : state,
      documents st3 = documents st ->
      let st' := snd (after_dedupe cfg pdf_bytes meta actor force_new_version
                        (uuids st (drawn st)) st3) in
      documents st' = documents st
      \/ (document_with_metadata (Meta.title meta) (Meta.jurisdiction meta)
            (Meta.regulation_family meta) (Meta.instrument_type meta) st
          = None
          /\ exists d,
               documents st' = (documents st ++ [d])%list
               /\ metadata d
                  = (Meta.title meta, Meta.jurisdiction meta,
                     Meta.regulation_family meta,
                     Meta.instrument_type meta))).
  { intros st3 H3. cbv zeta. unfold after_dedupe. cbv zeta.
    destruct (resolve_meta meta) as (Ht & Hj & Hf & Hi & _).
    destruct (resolve_primary_axis meta) as [[value source] meta'].
    cbn [snd] in *.
    unfold find_document_by_metadata. run1. rewrite Ht, Hj, Hf, Hi.
    replace (document_with_metadata (Meta.title meta)
               (Meta.jurisdiction meta) (Meta.regulation_family meta)
               (Meta.instrument_type meta) st3)
      with (document_with_metadata (Meta.title meta)
              (Meta.jurisdiction meta) (Meta.regulation_family meta)
              (Meta.instrument_type meta) st)
      by (unfold document_with_metadata; now rewrite H3).
    destruct (document_with_metadata _ _ _ _ st) as [d |] eqn:Hfind.
    - left. destruct (primary_axis_mismatch meta' d).
      + run1. exact H3.
      + run1. cbv iota.
        match goal with
        | |- documents (snd (?c st3)) = _ =>
            assert (K : keeps (documents_grow (fun _ => False)) c)
              by apply version_steps_keep_documents
        end.
        rewrite (documents_grow_none _ _ (K st3)). exact H3.
    - right. split; [reflexivity |].
      rewrite bind_bind. unfold create_document.
      rewrite bind_bind. run1. rewrite bind_bind. do 3 run1. cbv iota.
      match goal with
      | |- exists d, documents (snd (?c ?s)) = _ /\ _ =>
          assert (K : keeps (documents_grow (fun _ => False)) c)
            by apply version_steps_keep_documents;
          rewrite (documents_grow_none _ _ (K s))
      end.
      cbn [documents tick set_documents draw]. rewrite H3.
      eexists. split; [reflexivity |]. reflexivity. }
  destruct (dedupe_match _ _ _) as [ex |]; destruct force_new_version;
    try (apply Hafter; reflexivity).
  now left.
Qed.

(** Uploads keep the metadata a key of the documents: when no two
    documents have the same title, jurisdiction, regulation family and
    instrument type, this still holds after any sequence of operations
    other than a direct [create_document]. *)
Theorem uploads_keep_metadata_unique (cfg : settings) (ops : list op)
    (st : state) :
  Forall (fun o => match o with
                   | OpCreateDocument _ _ _ _ _ _ => False
                   | _ => True
                   end) ops ->
  metadata_unique st ->
  metadata_unique (run_all cfg ops st).
Proof.
  intros Hops. revert st.
  induction Hops as [|o ops Ho _ IH]; intros st Hst; [exact Hst |].
  cbn [run_all fold_left]. apply IH. clear IH.
  assert (Hsame : creates_no_document o -> metadata_unique (run cfg o st)).
  { intros Hc. unfold metadata_unique, run.
    now rewrite (documents_grow_none _ _
                   (call_keeps_documents_same cfg o Hc st)). }
  destruct o; try (now elim Ho); try (apply Hsame; exact I).
  unfold run, call. rewrite bind_unfold.
  pose proof (ingest_request_documents cfg pdf_bytes meta actor
                force_new_version st) as H. cbv zeta in H.
  destruct (ingest_request cfg pdf_bytes meta actor force_new_version st)
    as [[resp | e] st']; cbn [snd ret] in *;
    unfold metadata_unique in *;
    (destruct H as [-> | [Hnone [d [-> Hd]]]]; [exact Hst |]);
    rewrite map_app; cbn [map]; rewrite Hd;
    (apply ListFacts.NoDup_snoc;
     [exact Hst | now apply document_with_metadata_none]).
Qed.

Lemma uploads_keep_metadata_unique_witness :
  metadata_unique
    (run_all sample_settings
       [OpIngestRequest sample_pdf (sample_meta "EU CBAM" None) "op" false;
        OpIngestRequest sample_pdf (sample_meta "EU CBAM" None) "op" true;
        OpIngestRequest sample_pdf (sample_meta "EU ETS" None) "op" false]
       empty_store).
Proof.
  apply uploads_keep_metadata_unique.
  - repeat constructor.
  - unfold metadata_unique. simpl. constructor.
Defined.

End DocumentFacts.

(* ------------------------------------------------------------------ *)
(** ** [_stable_json]: the order of the keys does not matter *)

Module JsonFacts.
Import PyStr Json.
Import Sorted Permutation.
#[local] Set Warnings "-register-all".

Lemma nat_of_ascii_inj (x y : ascii) :
  nat_of_ascii x = nat_of_ascii y -> x = y.
Proof.
  intros H. rewrite <- (ascii_nat_embedding x), <- (ascii_nat_embedding y).
  now rewrite H.
Qed.

Lemma str_leb_total (a : string) :
  forall b, str_leb a b = false -> str_leb b a = true.
Proof.
  induction a as [|x a IH]; intros [|y b]; simpl; try discriminate;
    try reflexivity.
  destruct (nat_of_ascii x <? nat_of_ascii y)%nat eqn:L1; [discriminate |].
  destruct (nat_of_ascii y <? nat_of_ascii x)%nat eqn:L2; [reflexivity |].
  apply IH.
Qed.

Lemma str_leb_antisym (a : string) :
  forall b, str_leb a b = true -> str_leb b a = true -> a = b.
Proof.
  induction a as [|x a IH]; intros [|y b]; simpl; try discriminate;
    try reflexivity.
  destruct (nat_of_ascii x <? nat_of_ascii y)%nat eqn:L1;
    destruct (nat_of_ascii y <? nat_of_ascii x)%nat eqn:L2;
    try discriminate.
  - apply Nat.ltb_lt in L1, L2. lia.
  - intros H1 H2. apply Nat.ltb_ge in L1, L2.
    rewrite (nat_of_ascii_inj x y) by lia. f_equal. now apply IH.
Qed.

Lemma str_leb_trans (a : string) :
  forall b c, str_leb a b = true -> str_leb b c = true -> str_leb a c = true.
Proof.
  induction a as [|x a IH]; intros [|y b] [|z c]; simpl; try discriminate;
    try reflexivity.
  destruct (Nat.ltb_spec (nat_of_ascii x) (nat_of_ascii y));
    destruct (Nat.ltb_spec (nat_of_ascii y) (nat_of_ascii x));
    destruct (Nat.ltb_spec (nat_of_ascii y) (nat_of_ascii z));
    destruct (Nat.ltb_spec (nat_of_ascii z) (nat_of_ascii y));
    destruct (Nat.ltb_spec (nat_of_ascii x) (nat_of_ascii z));
    destruct (Nat.ltb_spec (nat_of_ascii z) (nat_of_ascii x));
    try discriminate; try reflexivity; try lia.
  apply IH.
Qed.

(** The order [sorted] compares the items in. *)
Definition key_le (kv kv' : string * string) : Prop :=
  str_leb (fst kv) (fst kv') = true.

Lemma insert_item_perm (kv : string * string) (l : list (string * string)) :
  Permutation (insert_item kv l) (kv :: l).
Proof.
  induction l as [|kv' l IH]; simpl; [reflexivity |].
  destruct (str_leb (fst kv') (fst kv)); [| reflexivity].
  rewrite IH. apply perm_swap.
Qed.

Lemma insert_item_sorted (kv : string * string)
    (l : list (string * string)) :
  StronglySorted key_le l -> StronglySorted key_le (insert_item kv l).
Proof.
  induction 1 as [|kv' l Hl IH Hall]; simpl.
  - constructor; constructor.
  - destruct (str_leb (fst kv') (fst kv)) eqn:E.
    + constructor; [exact IH |].
      apply (Permutation_Forall (Permutation_sym (insert_item_perm kv l))).
      constructor; assumption.
    + apply str_leb_total in E.
      constructor; [constructor; assumption |].
      constructor; [exact E |].
      apply (Forall_impl _ (P := key_le kv')); [| exact Hall].
      intros x Hx. unfold key_le in *.
      now apply (str_leb_trans _ (fst kv')).
Qed.

Lemma fold_insert_sorted (l : list (string * string)) :
  forall acc,
    StronglySorted key_le acc ->
    StronglySorted key_le (fold_left (fun acc kv => insert_item kv acc) l acc)
    /\ Permutation (fold_left (fun acc kv => insert_item kv acc) l acc)
         (acc ++ l).
Proof.
  induction l as [|kv l IH]; intros acc Hacc; simpl.
  - rewrite app_nil_r. now split.
  - destruct (IH (insert_item kv acc) (insert_item_sorted kv acc Hacc))
      as [Hs Hp].
    split; [exact Hs |]. rewrite Hp, insert_item_perm.
    apply Permutation_cons_app. reflexivity.
Qed.

Lemma sort_items_sorted (l : list (string * string)) :
  StronglySorted key_le (sort_items l) /\ Permutation (sort_items l) l.
Proof. apply (fold_insert_sorted l []). constructor. Qed.

(** Two sorted lists with the same items are the same list, when no key
    comes twice. *)
Lemma sorted_unique (l1 : list (string * string)) :
  forall l2,
    StronglySorted key_le l1 -> StronglySorted key_le l2 ->
    Permutation l1 l2 -> NoDup (map fst l1) -> l1 = l2.
Proof.
  induction l1 as [|a t1 IH]; intros l2 S1 S2 P N.
  - apply Permutation_nil in P. now subst.
  - destruct l2 as [|b t2];
      [apply Permutation_sym, Permutation_nil in P; discriminate |].
    inversion S1 as [|? ? S1' F1]; subst.
    inversion S2 as [|? ? S2' F2]; subst.
    inversion N as [|? ? Na N']; subst.
    assert (E : a = b).
    { assert (Hb : In b (a :: t1))
        by (apply (Permutation_in _ (Permutation_sym P)); now left).
      assert (Ha : In a (b :: t2))
        by (apply (Permutation_in _ P); now left).
      destruct Hb as [Hb | Hb]; [exact Hb |].
      destruct Ha as [Ha | Ha]; [now symmetry |].
      rewrite Forall_forall in F1, F2.
      pose proof (str_leb_antisym _ _ (F1 b Hb) (F2 a Ha)) as K.
      elim Na. rewrite K. now apply in_map. }
    subst b. f_equal. apply IH; try assumption.
    now apply Permutation_cons_inv in P.
Qed.

Lemma sort_items_perm (l l' : list (string * string)) :
  Permutation l l' -> NoDup (map fst l) -> sort_items l = sort_items l'.
Proof.
  intros P N.
  destruct (sort_items_sorted l) as [S1 P1].
  destruct (sort_items_sorted l') as [S2 P2].
  apply sorted_unique; try assumption.
  - now rewrite P1, P2.
  - apply (Permutation_NoDup (l := map fst l)); [| exact N].
    apply Permutation_map. now symmetry.
Qed.

(** [b] is [a] with the items of some of its objects, at any depth,
    listed in another order. *)
Inductive reordered : json -> json -> Prop :=
| reordered_same (j : json) : reordered j j
| reordered_list (l l' : list json) :
    Forall2 reordered l l' -> reordered (JList l) (JList l')
| reordered_dict (l m l' : list (string * json)) :
    Forall2 (fun kv kv' => fst kv = fst kv' /\ reordered (snd kv) (snd kv'))
      l m ->
    Permutation m l' ->
    reordered (JDict l) (JDict l').

(** The keys of every object, at any depth, are distinct, as the keys
    of a [dict] are. *)
Inductive distinct_keys : json -> Prop :=
| distinct_null : distinct_keys JNull
| distinct_bool (b : bool) : distinct_keys (JBool b)
| distinct_int (z : Z) : distinct_keys (JInt z)
| distinct_float (r : string) : distinct_keys (JFloat r)
| distinct_str (s : string) : distinct_keys (JStr s)
| distinct_list (l : list json) :
    Forall distinct_keys l -> distinct_keys (JList l)
| distinct_dict (l : list (string * json)) :
    NoDup (map fst l) -> Forall (fun kv => distinct_keys (snd kv)) l ->
    distinct_keys (JDict l).

Definition rendered (kv : string * json) : string * string :=
  match kv with
  | (k, v) => (k, dumps v)
  end.

Lemma dumps_reordered :
  forall a b, reordered a b -> distinct_keys a -> dumps a = dumps b.
Proof.
  fix IH 3. intros a b H. destruct H as [j | l l' H | l m l' H P].
  - reflexivity.
  - intros D. inversion D as [| | | | | ? Dl |]; subst.
    cbn [dumps]. do 3 f_equal. clear D.
    induction H as [|x y l l' Hxy H IHl]; [reflexivity |].
    inversion Dl; subst. cbn [map]. f_equal.
    + now apply IH.
    + now apply IHl.
  - intros D. inversion D as [| | | | | | ? N Dl]; subst.
    cbn [dumps]. do 4 f_equal. fold rendered.
    assert (E : map rendered l = map rendered m /\ map fst l = map fst m).
    { clear N D P. induction H as [|x y l m [Hk Hxy] H IHl];
        [now split |].
      inversion Dl; subst. destruct IHl as [I1 I2]; [assumption |].
      cbn [map]. rewrite I1, I2, Hk. split; [| reflexivity].
      f_equal. destruct x as [k v], y as [k' v']. cbn in *. subst k'.
      f_equal. now apply IH. }
    destruct E as [E1 E2]. rewrite E1.
    apply sort_items_perm.
    + now apply Permutation_map.
    + replace (map fst (map rendered m)) with (map fst m).
      * now rewrite <- E2.
      * rewrite map_map. apply map_ext. now intros [k v].
Qed.

(** The canonical text, and so the event hash computed from it, does
    not depend on the order in which the keys of the details were
    inserted: two values that differ only in the order of the items of
    their objects, at any depth, have the same [_stable_json]. *)
Theorem stable_json_ignores_key_order (a b : json) :
  distinct_keys a -> reordered a b -> _stable_json a = _stable_json b.
Proof. intros D H. unfold _stable_json. now apply dumps_reordered. Qed.

Lemma stable_json_ignores_key_order_witness :
  _stable_json
    (JDict [("meta", JDict [("title", JStr "t"); ("tenant_id", JNull)]);
            ("force_new_version", JBool false)])
  = _stable_json
      (JDict [("force_new_version", JBool false);
              ("meta", JDict [("tenant_id", JNull); ("title", JStr "t")])]).
Proof.
  apply stable_json_ignores_key_order.
  - repeat (constructor; simpl; try (intros H; intuition discriminate)).
  - apply (reordered_dict _
             [("meta", JDict [("tenant_id", JNull); ("title", JStr "t")]);
              ("force_new_version", JBool false)]);
      [| apply perm_swap].
    constructor; [split; [reflexivity |] |].
    + cbn [snd].
      apply (reordered_dict _ [("title", JStr "t"); ("tenant_id", JNull)]);
        [| apply perm_swap].
      repeat (constructor; try (split; [reflexivity | apply reordered_same])).
    + repeat (constructor; try (split; [reflexivity | apply reordered_same])).
Defined.

End JsonFacts.

(* ------------------------------------------------------------------ *)
(** ** The chunker: what the chunks are *)

Module ChunkingFacts.
Import PyStr Chunking.
Import Sorted.
Local Open Scope list_scope.
Local Open Scope Z_scope.

(** The two things [emit] can do. *)
Lemma emit_cases (text : list ascii) (page_map : list Page.t)
    (chunks : list Chunk.t) (s e : Z) :
  (emit text page_map chunks s e = chunks
   /\ truthy (strip (string_of_list_ascii (slice text s e))) = false)
  \/ (emit text page_map chunks s e
      = chunks ++ [{| Chunk.start_char := s;
                      Chunk.end_char := e;
                      Chunk.page_start := _page_for_offset page_map s;
                      Chunk.page_end :=
                        _page_for_offset page_map (Z.max s (e - 1));
                      Chunk.text_sha256 :=
                        Sha256.sha256_text
                          (string_of_list_ascii (slice text s e)) |}]
      /\ truthy (strip (string_of_list_ascii (slice text s e))) = true).
Proof.
  unfold emit.
  destruct (truthy (strip (string_of_list_ascii (slice text s e))));
    simpl; auto.
Qed.

Lemma next_start_bounds (overlap start end_ : Z) :
  0 <= overlap -> start + 1 <= end_ ->
  start + 1 <= next_start overlap start end_ <= end_.
Proof. intros H0 H. unfold next_start. destruct (overlap =? 0); lia. Qed.

Lemma effective_overlap_bounds (max_len overlap_chars : Z) :
  1 <= max_len ->
  0 <= effective_overlap max_len overlap_chars < max_len.
Proof.
  intros H. unfold effective_overlap. destruct (1 <? max_len) eqn:E; lia.
Qed.

Section Trace.

Variable text : list ascii.
Variable page_map : list Page.t.
Variables max_len overlap : Z.

(** What holds of the chunks emitted so far when the cursor stands at a
    position. *)
Variable Inv : list Chunk.t -> Z -> Prop.

Hypothesis max_len_pos : 1 <= max_len.
Hypothesis overlap_nonneg : 0 <= overlap.

Hypothesis I_emit : forall i chunks s,
  0 <= i < Z.of_nat (List.length text) ->
  i <= s < paragraph_end text i ->
  Inv chunks s ->
  Inv (emit text page_map chunks s
       (Z.min (s + max_len) (paragraph_end text i)))
    (next_start overlap s (Z.min (s + max_len) (paragraph_end text i))).

Hypothesis I_skip : forall i chunks,
  0 <= i < Z.of_nat (List.length text) ->
  Inv chunks (paragraph_end text i) -> Inv chunks (paragraph_end text i + 2).

Lemma paragraph_loop_keeps (fuel : nat) :
  forall i chunks start r,
    0 <= i < Z.of_nat (List.length text) ->
    i <= start <= paragraph_end text i ->
    Inv chunks start ->
    paragraph_loop text page_map max_len overlap fuel chunks start
      (paragraph_end text i) = Some r ->
    Inv r (paragraph_end text i).
Proof.
  induction fuel as [|fuel IH]; intros i chunks start r Hi Hs HI; simpl;
    destruct (start <? paragraph_end text i) eqn:E;
    try discriminate.
  - intros [= <-]. replace (paragraph_end text i) with start by lia.
    exact HI.
  - set (e := Z.min (start + max_len) (paragraph_end text i)).
    pose proof (next_start_bounds overlap start e overlap_nonneg
                  ltac:(subst e; lia)) as Hn.
    apply IH; [assumption | subst e; lia |].
    apply I_emit; [assumption | lia | assumption].
  - intros [= <-]. replace (paragraph_end text i) with start by lia.
    exact HI.
Qed.

Lemma text_loop_keeps (inner fuel : nat) :
  forall chunks i r,
    0 <= i -> Inv chunks i ->
    text_loop text page_map max_len overlap inner fuel chunks i = Some r ->
    exists j, Z.of_nat (List.length text) <= j /\ Inv r j.
Proof.
  induction fuel as [|fuel IH]; intros chunks i r H0 HI; simpl;
    destruct (i <? Z.of_nat (List.length text)) eqn:E;
    try discriminate.
  - intros [= <-]. exists i. split; [lia | assumption].
  - destruct (paragraph_loop text page_map max_len overlap inner chunks i
                (paragraph_end text i)) as [chunks1 |] eqn:E1;
      [| discriminate].
    pose proof (paragraph_end_bounds text i ltac:(lia)) as Hpe.
    apply (paragraph_loop_keeps inner i chunks i chunks1) in E1;
      [| lia | lia | assumption].
    apply IH; [lia |]. apply I_skip; [lia | assumption].
  - intros [= <-]. exists i. split; [lia | assumption].
Qed.

End Trace.

(** A run of [chunk]: what [Inv] says of no chunk at position 0 and
    [emit] and the step over a paragraph break keep, holds of the chunks
    returned, past the end of the text. *)
Lemma chunk_keeps (Inv : list Chunk.t -> Z -> Prop) (self_max_chars : Z)
    (stable_text : string) (page_map : list Page.t) (m overlap_chars : Z) :
  let text := str stable_text in
  let overlap := effective_overlap m overlap_chars in
  1 <= m ->
  Inv [] 0 ->
  (forall i chunks s,
     0 <= i < Z.of_nat (List.length text) ->
     i <= s < paragraph_end text i ->
     Inv chunks s ->
     Inv (emit text page_map chunks s
          (Z.min (s + m) (paragraph_end text i)))
       (next_start overlap s (Z.min (s + m) (paragraph_end text i)))) ->
  (forall i chunks,
     0 <= i < Z.of_nat (List.length text) ->
     Inv chunks (paragraph_end text i) -> Inv chunks (paragraph_end text i + 2)) ->
  exists chunks mf j,
    chunk self_max_chars stable_text page_map (Some m) overlap_chars
    = Some (chunks, mf)
    /\ Chunking.max_chars mf = m
    /\ Chunking.overlap_chars mf = overlap
    /\ count mf = Z.of_nat (List.length chunks)
    /\ Z.of_nat (List.length text) <= j
    /\ Inv chunks j.
Proof.
  intros text overlap Hm H0 Hemit Hskip.
  destruct (chunk_runs (fun _ => True) self_max_chars stable_text page_map
              m overlap_chars Hm)
    as [chunks [mf [Hrun _]]].
  { intros chunks s e _ _ _ _. apply Forall_forall. intros; exact Logic.I. }
  assert (Hmax : effective_max_len self_max_chars (Some m) = m).
  { unfold effective_max_len. destruct (m =? 0) eqn:E; [lia | reflexivity]. }
  unfold chunk, chunk_with_fuel in Hrun. rewrite Hmax in Hrun.
  fold (str stable_text) in Hrun. fold text in Hrun. fold overlap in Hrun.
  destruct (text_loop text page_map m overlap (String.length stable_text)
              (String.length stable_text) [] 0) as [chunks' |] eqn:E;
    [| discriminate].
  injection Hrun as <- <-.
  destruct (text_loop_keeps text page_map m overlap Inv Hm
              (proj1 (effective_overlap_bounds m overlap_chars Hm))
              Hemit Hskip _ _ [] 0 chunks' ltac:(lia) H0 E)
    as [j [Hj HI]].
  eexists chunks', _, j. split.
  - unfold chunk, chunk_with_fuel. rewrite Hmax.
    fold (str stable_text). fold text. fold overlap. rewrite E. reflexivity.
  - repeat split; assumption.
Qed.


(** *** Sizes, order, hashes *)

(** What a chunk records about [text]: at most [m] characters, the
    hash of its own text, and the pages of its first and last
    character. *)
Definition describes (text : list ascii) (page_map : list Page.t) (m : Z)
    (c : Chunk.t) : Prop :=
  0 <= Chunk.start_char c
  /\ Chunk.end_char c - Chunk.start_char c <= m
  /\ Chunk.text_sha256 c
     = Sha256.sha256_text
         (string_of_list_ascii
            (slice text (Chunk.start_char c) (Chunk.end_char c)))
  /\ Chunk.page_start c = _page_for_offset page_map (Chunk.start_char c)
  /\ Chunk.page_end c = _page_for_offset page_map (Chunk.end_char c - 1).

Definition starts_before (a b : Chunk.t) : Prop :=
  Chunk.start_char a < Chunk.start_char b.

Definition ends_before (a b : Chunk.t) : Prop :=
  Chunk.end_char a <= Chunk.start_char b.

Definition sized_and_ordered (text : list ascii) (page_map : list Page.t)
    (m overlap : Z) (chunks : list Chunk.t) (cursor : Z) : Prop :=
  Forall (fun c => describes text page_map m c
                   /\ Chunk.start_char c < cursor
                   /\ (overlap = 0 -> Chunk.end_char c <= cursor)) chunks
  /\ StronglySorted starts_before chunks
  /\ (overlap = 0 -> StronglySorted ends_before chunks).

Lemma sized_and_ordered_later text page_map m overlap chunks cursor later :
  cursor <= later ->
  sized_and_ordered text page_map m overlap chunks cursor ->
  sized_and_ordered text page_map m overlap chunks later.
Proof.
  intros Hle (H1 & H2 & H3). split; [| now split].
  eapply Forall_impl; [| exact H1]. cbv beta.
  intros c (Hd & Hs & He). split; [assumption |]. split; [lia |].
  intros H. specialize (He H). lia.
Qed.

(** The chunks come in the order of the text and within the policy:
    with max_chars at least 1 the chunker returns; the manifest records
    max_chars, an overlap between 0 and max_chars - 1 and the number of
    chunks; every chunk has at most max_chars characters, carries the
    SHA-256 of its own text and the pages of its first and last
    character; the chunks start at growing offsets; and when the
    recorded overlap is 0 each chunk ends before the next starts. *)
Theorem chunks_sized_and_ordered (self_max_chars : Z) (stable_text : string)
    (page_map : list Page.t) (m overlap_chars : Z) :
  1 <= m ->
  exists chunks mf,
    chunk self_max_chars stable_text page_map (Some m) overlap_chars
    = Some (chunks, mf)
    /\ Chunking.max_chars mf = m
    /\ 0 <= Chunking.overlap_chars mf < m
    /\ Chunking.count mf = Z.of_nat (List.length chunks)
    /\ Forall (describes (str stable_text) page_map m) chunks
    /\ StronglySorted starts_before chunks
    /\ (Chunking.overlap_chars mf = 0 -> StronglySorted ends_before chunks).
Proof.
  intros Hm.
  set (text := str stable_text).
  set (overlap := effective_overlap m overlap_chars).
  destruct (chunk_keeps (sized_and_ordered text page_map m overlap)
              self_max_chars stable_text page_map m overlap_chars Hm)
    as (chunks & mf & j & Hrun & Hmax & Hov & Hcount & _ & HI & Hs & Hd).
  - split; [constructor |]. split; [constructor | intros _; constructor].
  - fold text overlap. intros i chunks s Hi Hs (H1 & H2 & H3).
    set (e := Z.min (s + m) (paragraph_end text i)).
    pose proof (next_start_bounds overlap s e
                  (proj1 (effective_overlap_bounds m overlap_chars Hm))
                  ltac:(subst e; lia)) as Hn.
    destruct (emit_cases text page_map chunks s e) as [[-> _] | [-> _]].
    + apply sized_and_ordered_later with s; [lia | now split].
    + split; [| split].
      * apply Forall_app. split.
        -- eapply Forall_impl; [| exact H1]. cbv beta.
           intros c (Hc & Hcs & Hce). split; [assumption |].
           split; [lia |]. intros H. specialize (Hce H). lia.
        -- constructor; [| constructor]. unfold describes. cbn.
           replace (Z.max s (e - 1)) with (e - 1) by (subst e; lia).
           repeat split; try reflexivity; try lia; try (subst e; lia).
           intros H. unfold next_start. rewrite H. simpl. lia.
      * apply ListFacts.sorted_snoc; [assumption |].
        eapply Forall_impl; [| exact H1]. cbv beta.
        intros c (_ & Hcs & _). unfold starts_before. cbn. lia.
      * intros H. apply ListFacts.sorted_snoc; [now apply H3 |].
        eapply Forall_impl; [| exact H1]. cbv beta.
        intros c (_ & _ & Hce). unfold ends_before. cbn. now apply Hce.
  - fold text overlap. intros i chunks Hi H.
    apply sized_and_ordered_later with (paragraph_end text i); [lia |].
    exact H.
  - exists chunks, mf. rewrite Hov.
    split; [assumption |]. split; [assumption |].
    split; [apply effective_overlap_bounds; assumption |].
    split; [assumption |]. split.
    + eapply Forall_impl; [| exact HI]. cbv beta. tauto.
    + split; [assumption |]. exact Hd.
Qed.

Lemma chunks_sized_and_ordered_witness :
  exists chunks mf,
    chunk 1500 sample_text sample_page_map (Some 2) 0 = Some (chunks, mf)
    /\ Forall (describes (str sample_text) sample_page_map 2) chunks
    /\ StronglySorted starts_before chunks.
Proof.
  destruct (chunks_sized_and_ordered 1500 sample_text sample_page_map 2 0
              ltac:(lia))
    as (chunks & mf & Hrun & _ & _ & _ & Hd & Hs & _).
  now exists chunks, mf.
Defined.

(** *** Nothing but whitespace is left out *)

Lemma slice_within {A : Type} (l : list A) (s e : Z) :
  0 <= s -> s <= e -> e <= Z.of_nat (List.length l) ->
  slice l s e = firstn (Z.to_nat (e - s)) (skipn (Z.to_nat s) l).
Proof.
  intros H0 Hse He. unfold slice.
  destruct (s <? 0) eqn:E1; [lia |]. destruct (e <? 0) eqn:E2; [lia |].
  now rewrite !Z.min_l by lia.
Qed.

Lemma nth_error_slice {A : Type} (l : list A) (s e : Z) (k : nat) :
  0 <= s -> s <= e -> e <= Z.of_nat (List.length l) ->
  Z.of_nat k < e - s ->
  nth_error (slice l s e) k = nth_error l (Z.to_nat s + k).
Proof.
  intros H0 Hse He Hk. rewrite slice_within by assumption.
  rewrite nth_error_firstn.
  replace (k <? Z.to_nat (e - s))%nat with true
    by (symmetry; apply Nat.ltb_lt; lia).
  apply nth_error_skipn.
Qed.

Lemma blank_all_space (l : list ascii) :
  truthy (strip (string_of_list_ascii l)) = false ->
  forall ch, In ch l -> isspace ch = true.
Proof.
  intros H. apply truthy_false_iff in H. apply strip_empty_iff in H.
  induction l as [|c l IH]; intros ch Hin; [destruct Hin |].
  simpl in H. apply andb_true_iff in H as [Hc Hl].
  destruct Hin as [<- | Hin]; [assumption | now apply IH].
Qed.

Lemma find_at_found (sub l : list ascii) :
  forall pos j,
    find_at sub l pos = j -> j <> -1 -> 0 <= pos ->
    pos <= j /\ is_prefix sub (skipn (Z.to_nat (j - pos)) l) = true.
Proof.
  induction l as [|a l IH]; intros pos j; simpl.
  - destruct (is_prefix sub []) eqn:P.
    + intros <- _ _. split; [lia |]. rewrite Z.sub_diag. exact P.
    + intros <- H. now elim H.
  - destruct (is_prefix sub (a :: l)) eqn:P.
    + intros <- _ _. split; [lia |]. rewrite Z.sub_diag. exact P.
    + intros H Hj Hp. apply IH in H as [H1 H2]; [| assumption | lia].
      split; [lia |].
      replace (Z.to_nat (j - pos)) with (S (Z.to_nat (j - (pos + 1))))
        by lia.
      exact H2.
Qed.

Lemma find_at_first (sub l : list ascii) :
  forall pos j,
    find_at sub l pos = j -> 0 <= pos ->
    forall k, j = -1 \/ pos + Z.of_nat k < j ->
              is_prefix sub (skipn k l) = false.
Proof.
  induction l as [|a l IH]; intros pos j; simpl.
  - destruct (is_prefix sub []) eqn:P; intros <- Hp k Hk.
    + destruct Hk; lia.
    + now destruct k.
  - destruct (is_prefix sub (a :: l)) eqn:P; intros H Hp k Hk.
    + subst j. destruct Hk; lia.
    + destruct k as [|k]; [exact P |]. simpl.
      apply (IH (pos + 1) j H); [lia |].
      destruct Hk; [now left | right; lia].
Qed.

Lemma is_prefix_break (l : list ascii) :
  is_prefix paragraph_break l = true
  <-> exists rest, l = newline :: newline :: rest.
Proof.
  unfold paragraph_break. split.
  - destruct l as [|a [|b l]]; cbn [is_prefix]; try discriminate.
    + now rewrite andb_false_r.
    + rewrite !andb_true_iff, !Ascii.eqb_eq. intros [<- [<- _]].
      now exists l.
  - intros [rest ->]. cbn [is_prefix]. now rewrite !Ascii.eqb_refl.
Qed.

(** The paragraph end, when it is not the end of the text, is where a
    paragraph break stands. *)
Lemma paragraph_end_break (text : list ascii) (i : Z) :
  0 <= i <= Z.of_nat (List.length text) ->
  paragraph_end text i < Z.of_nat (List.length text) ->
  nth_error text (Z.to_nat (paragraph_end text i)) = Some newline
  /\ nth_error text (S (Z.to_nat (paragraph_end text i))) = Some newline.
Proof.
  intros Hi. unfold paragraph_end, find.
  destruct (i <? 0) eqn:E0; [lia |].
  destruct (Z.of_nat (List.length text) <? i) eqn:E1; [lia |].
  cbv zeta.
  destruct (find_at paragraph_break (skipn (Z.to_nat i) text) i =? -1)
    eqn:E2; [lia |].
  intros _. apply Z.eqb_neq in E2.
  destruct (find_at_found paragraph_break (skipn (Z.to_nat i) text) i _
              eq_refl E2 ltac:(lia)) as [Hle Hp].
  set (j := find_at paragraph_break (skipn (Z.to_nat i) text) i) in *.
  rewrite skipn_skipn in Hp.
  replace (Z.to_nat (j - i) + Z.to_nat i)%nat with (Z.to_nat j) in Hp by lia.
  apply is_prefix_break in Hp as [rest Hp].
  rewrite <- (Nat.add_0_r (Z.to_nat j)) at 1.
  rewrite <- (Nat.add_1_r (Z.to_nat j)).
  rewrite <- !nth_error_skipn, Hp. now split.
Qed.

(** No paragraph break starts between the start of a paragraph and its
    end. *)
Lemma paragraph_no_break (text : list ascii) (i : Z) (k : nat) :
  0 <= i <= Z.of_nat (List.length text) ->
  i <= Z.of_nat k < paragraph_end text i ->
  ~ (nth_error text k = Some newline
     /\ nth_error text (S k) = Some newline).
Proof.
  intros Hi Hk [Ha Hb].
  destruct (ListFacts.skipn_two text k _ _ Ha Hb) as [rest Hs].
  assert (Hp : is_prefix paragraph_break (skipn k text) = true)
    by (apply is_prefix_break; now exists rest).
  revert Hk. unfold paragraph_end, find.
  destruct (i <? 0) eqn:E0; [lia |].
  destruct (Z.of_nat (List.length text) <? i) eqn:E1; [lia |].
  cbv zeta. intros Hk.
  set (j := find_at paragraph_break (skipn (Z.to_nat i) text) i) in *.
  assert (Hf : is_prefix paragraph_break
                 (skipn (k - Z.to_nat i) (skipn (Z.to_nat i) text)) = false).
  { apply (find_at_first paragraph_break (skipn (Z.to_nat i) text) i j
             eq_refl ltac:(lia)).
    destruct (j =? -1) eqn:E2; [left; lia | right; lia]. }
  rewrite skipn_skipn in Hf.
  replace (k - Z.to_nat i + Z.to_nat i)%nat with k in Hf by lia.
  congruence.
Qed.

Lemma isspace_newline : isspace newline = true.
Proof. reflexivity. Qed.

Definition holds (p : nat) (c : Chunk.t) : Prop :=
  Chunk.start_char c <= Z.of_nat p < Chunk.end_char c.

(** Every character before the cursor that is not whitespace is in a
    chunk. *)
Definition covered (text : list ascii) (chunks : list Chunk.t) (cursor : Z)
  : Prop :=
  forall p ch,
    Z.of_nat p < cursor -> nth_error text p = Some ch ->
    isspace ch = false -> Exists (holds p) chunks.

(** The chunker drops nothing but whitespace: with max_chars at least
    1, every character of the text that is not whitespace lies in a
    chunk, whatever the overlap and the page map. *)
Theorem chunks_cover_text (self_max_chars : Z) (stable_text : string)
    (page_map : list Page.t) (m overlap_chars : Z) :
  1 <= m ->
  exists chunks mf,
    chunk self_max_chars stable_text page_map (Some m) overlap_chars
    = Some (chunks, mf)
    /\ forall p ch,
         nth_error (str stable_text) p = Some ch -> isspace ch = false ->
         Exists (holds p) chunks.
Proof.
  intros Hm.
  set (text := str stable_text).
  set (overlap := effective_overlap m overlap_chars).
  destruct (chunk_keeps (covered text) self_max_chars stable_text page_map
              m overlap_chars Hm)
    as (chunks & mf & j & Hrun & _ & _ & _ & Hj & HI).
  - intros p ch Hp. lia.
  - fold text overlap. intros i chunks s Hi Hs HI p ch Hp Hn Hch.
    set (e := Z.min (s + m) (paragraph_end text i)) in *.
    pose proof (paragraph_end_bounds text i ltac:(lia)) as Hpe.
    pose proof (next_start_bounds overlap s e
                  (proj1 (effective_overlap_bounds m overlap_chars Hm))
                  ltac:(subst e; lia)) as Hnext.
    assert (Hkeep : Exists (holds p) chunks ->
                    Exists (holds p) (emit text page_map chunks s e)).
    { intros H. destruct (emit_cases text page_map chunks s e)
        as [[-> _] | [-> _]]; [assumption |].
      apply Exists_app. now left. }
    destruct (Z_lt_le_dec (Z.of_nat p) s) as [Hlt | Hge].
    + apply Hkeep. now apply (HI p ch).
    + assert (Hin : In ch (slice text s e)).
      { apply nth_error_In with (p - Z.to_nat s)%nat.
        rewrite nth_error_slice; [| lia | subst e; lia | subst e; lia | lia].
        replace (Z.to_nat s + (p - Z.to_nat s))%nat with p by lia.
        exact Hn. }
      destruct (emit_cases text page_map chunks s e)
        as [[_ Hb] | [-> _]].
      * rewrite (blank_all_space _ Hb ch Hin) in Hch. discriminate.
      * apply Exists_app. right. constructor. unfold holds. cbn. lia.
  - fold text. intros i chunks Hi HI p ch Hp Hn Hch.
    destruct (Z_lt_le_dec (Z.of_nat p) (paragraph_end text i)) as [Hlt | Hge];
      [now apply (HI p ch) |].
    exfalso.
    assert (Hlen : (p < List.length text)%nat)
      by (apply nth_error_Some; congruence).
    destruct (paragraph_end_break text i ltac:(lia) ltac:(lia)) as [Ha Hb].
    assert (Hcase : p = Z.to_nat (paragraph_end text i)
                    \/ p = S (Z.to_nat (paragraph_end text i))).
    { pose proof (paragraph_end_bounds text i ltac:(lia)). lia. }
    destruct Hcase as [-> | ->]; rewrite Hn in *;
      [injection Ha as -> | injection Hb as ->];
      rewrite isspace_newline in Hch; discriminate.
  - exists chunks, mf. split; [assumption |].
    intros p ch Hn Hch. apply (HI p ch); [| assumption | assumption].
    assert (Hlen : (p < List.length text)%nat)
      by (apply nth_error_Some; fold text in Hn; congruence).
    subst text. lia.
Qed.

Lemma chunks_cover_text_witness :
  exists chunks mf,
    chunk 1500 sample_text sample_page_map (Some 2) 1 = Some (chunks, mf)
    /\ Exists (holds 6) chunks.
Proof.
  destruct (chunks_cover_text 1500 sample_text sample_page_map 2 1
              ltac:(lia)) as (chunks & mf & Hrun & Hc).
  exists chunks, mf. split; [assumption |].
  apply (Hc 6%nat "e"%char); reflexivity.
Defined.

(** *** No chunk spans a paragraph break *)

Lemma list_of_append (a b : string) :
  list_ascii_of_string (a ++ b)
  = list_ascii_of_string a ++ list_ascii_of_string b.
Proof. induction a as [|c a IH]; simpl; [reflexivity | now rewrite IH]. Qed.

(** A chunk holds text of one paragraph only: with max_chars at least
    1, no emitted chunk contains a paragraph break (two newlines in a
    row). *)
Theorem chunks_hold_no_paragraph_break (self_max_chars : Z)
    (stable_text : string) (page_map : list Page.t) (m overlap_chars : Z) :
  1 <= m ->
  exists chunks mf,
    chunk self_max_chars stable_text page_map (Some m) overlap_chars
    = Some (chunks, mf)
    /\ Forall
         (fun c =>
            contains
              (string_of_list_ascii
                 (slice (str stable_text) (Chunk.start_char c)
                    (Chunk.end_char c)))
              (String newline (String newline "")) = false) chunks.
Proof.
  intros Hm.
  set (text := str stable_text).
  set (overlap := effective_overlap m overlap_chars).
  set (Q := fun c : Chunk.t =>
              contains
                (string_of_list_ascii
                   (slice text (Chunk.start_char c) (Chunk.end_char c)))
                (String newline (String newline "")) = false).
  destruct (chunk_keeps (fun chunks _ => Forall Q chunks) self_max_chars
              stable_text page_map m overlap_chars Hm)
    as (chunks & mf & j & Hrun & _ & _ & _ & _ & HI).
  - constructor.
  - fold text overlap. intros i chunks s Hi Hs HI.
    set (e := Z.min (s + m) (paragraph_end text i)).
    pose proof (paragraph_end_bounds text i ltac:(lia)) as Hpe.
    destruct (emit_cases text page_map chunks s e) as [[-> _] | [-> _]];
      [assumption |].
    apply Forall_app. split; [assumption |]. constructor; [| constructor].
    subst Q. cbv beta. cbn [Chunk.start_char Chunk.end_char].
    destruct (contains (string_of_list_ascii (slice text s e))
                (String newline (String newline ""))) eqn:C;
      [| reflexivity].
    exfalso. apply contains_spec in C as [pre [post C]].
    apply (f_equal list_ascii_of_string) in C.
    rewrite list_ascii_of_string_of_list_ascii, list_of_append in C.
    cbn [append list_ascii_of_string] in C.
    set (k := List.length (list_ascii_of_string pre)) in *.
    assert (Hlen : (k + 2 <= List.length (slice text s e))%nat).
    { rewrite C, length_app. simpl. lia. }
    assert (Hsl : List.length (slice text s e) = Z.to_nat (e - s)).
    { rewrite slice_within; [| lia | subst e; lia | subst e; lia].
      rewrite length_firstn, length_skipn. subst e. lia. }
    assert (Ha : nth_error (slice text s e) k = Some newline).
    { rewrite C, nth_error_app2 by lia. subst k.
      now rewrite Nat.sub_diag. }
    assert (Hb : nth_error (slice text s e) (S k) = Some newline).
    { rewrite C, nth_error_app2 by lia. subst k.
      now replace (S (List.length (list_ascii_of_string pre))
                   - List.length (list_ascii_of_string pre))%nat
        with 1%nat by lia. }
    rewrite nth_error_slice in Ha, Hb;
      try lia; try (subst e; lia).
    replace (Z.to_nat s + S k)%nat with (S (Z.to_nat s + k)) in Hb by lia.
    apply (paragraph_no_break text i (Z.to_nat s + k)); [lia | | now split].
    subst e. lia.
  - intros i chunks _ H. exact H.
  - exists chunks, mf. split; [assumption | exact HI].
Qed.

Lemma chunks_hold_no_paragraph_break_witness :
  exists chunks mf,
    chunk 1500 sample_text sample_page_map (Some 5) 0 = Some (chunks, mf)
    /\ Forall
         (fun c =>
            contains
              (string_of_list_ascii
                 (slice (str sample_text) (Chunk.start_char c)
                    (Chunk.end_char c)))
              (String newline (String newline "")) = false) chunks.
Proof.
  apply (chunks_hold_no_paragraph_break 1500 sample_text sample_page_map
           5 0).
  lia.
Defined.

End ChunkingFacts.

(* ------------------------------------------------------------------ *)
(** ** [app/services/canonical_pipeline.py]: the page map *)

Module Pipeline.
Import Chunking.
Local Open Scope list_scope.
Local Open Scope Z_scope.

(** The body of [for page_no in range(doc.page_count)] on the page map:
    [pages_text] are the texts [page.get_text("text") or ""] of the
    pages from [page_no] on, [offset] the length of the texts before. *)
Fixpoint page_entries (page_no offset : Z) (pages_text : list string)
  : list Page.t :=
  match pages_text with
  | [] => []
  | text :: rest =>
      let page_len := Z.of_nat (String.length text) in
      {| Page.page := page_no + 1;
         Page.start_char := offset;
         Page.end_char := offset + page_len |}
      :: page_entries (page_no + 1) (offset + page_len) rest
  end.

(** [CanonicalTextPipeline.extract], from the texts of the pages on:
    the stable text and the page map. *)
Definition extract (pages_text : list string) : string * list Page.t :=
  (String.concat "" pages_text, page_entries 0 0 pages_text).

End Pipeline.

Module PagingFacts.
Import PyStr Chunking Pipeline.
Local Open Scope list_scope.
Local Open Scope Z_scope.

Lemma length_append (a b : string) :
  String.length (a ++ b) = (String.length a + String.length b)%nat.
Proof. induction a as [|c a IH]; simpl; [reflexivity | now rewrite IH]. Qed.

Lemma length_concat (text : string) (rest : list string) :
  String.length (String.concat "" (text :: rest))
  = (String.length text + String.length (String.concat "" rest))%nat.
Proof.
  destruct rest as [|t rest]; cbn [String.concat].
  - simpl. lia.
  - now rewrite !length_append.
Qed.

Lemma page_entries_partition (pages_text : list string) :
  forall page_no offset,
    partitions offset (page_entries page_no offset pages_text)
      (offset + Z.of_nat (String.length (String.concat "" pages_text)))
    = true.
Proof.
  induction pages_text as [|text rest IH]; intros page_no offset.
  - simpl. apply Z.eqb_eq. lia.
  - rewrite length_concat. cbn [page_entries partitions Page.start_char
                                 Page.end_char].
    rewrite Z.eqb_refl. cbn [andb].
    replace (offset <=? offset + Z.of_nat (String.length text)) with true
      by (symmetry; apply Z.leb_le; lia).
    cbn [andb]. rewrite Nat2Z.inj_add, Z.add_assoc. apply IH.
Qed.

Lemma page_entries_in_order (pages_text : list string) :
  forall page_no offset,
    pages_in_order (page_entries page_no offset pages_text) = true.
Proof.
  induction pages_text as [|text rest IH]; intros page_no offset;
    [reflexivity |].
  cbn [page_entries]. specialize (IH (page_no + 1) (offset
                                      + Z.of_nat (String.length text))).
  destruct rest as [|t rest]; [reflexivity |].
  cbn [page_entries] in *. cbn [pages_in_order Page.page].
  apply andb_true_iff. split; [apply Z.leb_le; lia | exact IH].
Qed.

(** The page map [extract] builds is one the chunker's page lookup
    expects: its intervals follow one another from 0 to the length of
    the stable text, and its page numbers increase. *)
Theorem extract_page_map_partitions (pages_text : list string) :
  partitions 0 (snd (extract pages_text))
    (Z.of_nat (String.length (fst (extract pages_text)))) = true
  /\ pages_in_order (snd (extract pages_text)) = true.
Proof.
  unfold extract. cbn [fst snd]. split.
  - apply (page_entries_partition pages_text 0 0).
  - apply page_entries_in_order.
Qed.

Lemma page_entries_app (before after : list string) :
  forall page_no offset,
    page_entries page_no offset (before ++ after)
    = page_entries page_no offset before
      ++ page_entries (page_no + Z.of_nat (List.length before))
           (offset + Z.of_nat (String.length (String.concat "" before)))
           after.
Proof.
  induction before as [|text rest IH]; intros page_no offset.
  - simpl. now rewrite !Z.add_0_r.
  - rewrite length_concat. cbn [app page_entries List.length].
    rewrite IH. do 3 f_equal; lia.
Qed.

Lemma page_entries_pages (pages_text : list string) :
  forall page_no offset p,
    In p (page_entries page_no offset pages_text) ->
    page_no < Page.page p <= page_no + Z.of_nat (List.length pages_text).
Proof.
  induction pages_text as [|text rest IH]; intros page_no offset p;
    [intros [] |].
  cbn [page_entries List.length]. intros [<- | Hin].
  - cbn [Page.page]. lia.
  - apply IH in Hin. lia.
Qed.

(** The last entry before a page ends where the page starts. *)
Lemma page_entries_last_covers (before : list string) :
  before <> [] ->
  forall page_no offset,
    exists p,
      In p (page_entries page_no offset before)
      /\ covers (offset + Z.of_nat (String.length (String.concat "" before)))
           p = true.
Proof.
  induction before as [|text rest IH]; intros Hne page_no offset;
    [now elim Hne |].
  destruct rest as [|t rest].
  - eexists. split; [now left |]. unfold covers.
    cbn [Page.start_char Page.end_char String.concat].
    apply andb_true_iff. split; apply Z.leb_le; lia.
  - destruct (IH ltac:(discriminate) (page_no + 1)
                (offset + Z.of_nat (String.length text))) as [p [Hin Hc]].
    exists p. split; [now right |].
    rewrite length_concat, Nat2Z.inj_add, Z.add_assoc. exact Hc.
Qed.

Lemma find_app_in {A : Type} (f : A -> bool) (l l' : list A) (x : A) :
  In x l -> f x = true ->
  exists y, In y l /\ List.find f (l ++ l') = Some y.
Proof.
  induction l as [|a l IH]; intros Hin Hx; [destruct Hin |].
  simpl. destruct (f a) eqn:Fa.
  - exists a. split; [now left | reflexivity].
  - destruct Hin as [-> | Hin]; [congruence |].
    destruct (IH Hin Hx) as [y [Hy Hf]]. exists y. split; [now right |].
    exact Hf.
Qed.

(** A page boundary belongs to the earlier page: in the page map of
    [extract], the offset at which a page other than the first starts
    is the [start_char] of that page's entry, and [_page_for_offset]
    gives it the number of a page before. *)
Theorem page_start_attributed_to_earlier_page
    (before : list string) (text : string) (after : list string) :
  before <> [] ->
  let page_map := snd (extract (before ++ text :: after)) in
  let pos := Z.of_nat (String.length (String.concat "" before)) in
  let k := Z.of_nat (List.length before) in
  nth_error page_map (List.length before)
  = Some {| Page.page := k + 1;
            Page.start_char := pos;
            Page.end_char := pos + Z.of_nat (String.length text) |}
  /\ 1 <= _page_for_offset page_map pos <= k.
Proof.
  intros Hne page_map pos k. subst page_map pos k.
  unfold extract. cbn [snd]. rewrite page_entries_app.
  cbn [page_entries]. rewrite !Z.add_0_l. split.
  - rewrite nth_error_app2.
    + replace (List.length before
               - List.length (page_entries 0 0 before))%nat with 0%nat;
        [reflexivity |].
      clear. enough (H : forall a b, List.length (page_entries a b before)
                                     = List.length before)
        by (rewrite H; lia).
      induction before as [|t r IH]; intros a b; simpl;
        [reflexivity | now rewrite IH].
    + clear. enough (H : forall a b, List.length (page_entries a b before)
                                     = List.length before)
        by (rewrite H; lia).
      induction before as [|t r IH]; intros a b; simpl;
        [reflexivity | now rewrite IH].
  - destruct (page_entries_last_covers before Hne 0 0) as [p [Hin Hc]].
    rewrite Z.add_0_l in Hc. unfold _page_for_offset.
    destruct (find_app_in _ _
                ({| Page.page := Z.of_nat (List.length before) + 1;
                    Page.start_char :=
                      Z.of_nat (String.length (String.concat "" before));
                    Page.end_char :=
                      Z.of_nat (String.length (String.concat "" before))
                      + Z.of_nat (String.length text) |}
                 :: page_entries (Z.of_nat (List.length before) + 1)
                      (Z.of_nat (String.length (String.concat "" before))
                       + Z.of_nat (String.length text)) after)
                p Hin Hc) as [y [Hy ->]].
    apply page_entries_pages in Hy. lia.
Qed.

Lemma page_start_attributed_to_earlier_page_witness :
  let page_map := snd (extract ["ab"; "cd"]%string) in
  nth_error page_map 1
  = Some {| Page.page := 2; Page.start_char := 2; Page.end_char := 4 |}
  /\ 1 <= _page_for_offset page_map 2 <= 1.
Proof.
  apply (page_start_attributed_to_earlier_page ["ab"%string] "cd" []).
  discriminate.
Defined.

(** *** The chunker when [max_chars] is not positive *)

Lemma paragraph_loop_stuck (text : list ascii) (page_map : list Page.t)
    (max_len para_end : Z) :
  max_len <= 0 ->
  forall fuel chunks start,
    start < para_end ->
    paragraph_loop text page_map max_len 0 fuel chunks start para_end = None.
Proof.
  intros Hm fuel. induction fuel as [|fuel IH]; intros chunks start Hs;
    cbn [paragraph_loop];
    (replace (start <? para_end) with true
       by (symmetry; apply Z.ltb_lt; lia)); [reflexivity |].
  apply IH. unfold next_start. cbn [Z.eqb]. lia.
Qed.

(** A [max_chars] that is not positive is not rejected and the chunker
    does not return: when the length limit in force (max_chars, or
    self.max_chars when max_chars is None or 0) is 0 or negative and the
    text does not start with an empty paragraph, the cursor of the
    paragraph loop never moves forward, under any bound on the number
    of iterations. *)
Theorem chunk_loops_on_nonpositive_max_chars (self_max_chars : Z)
    (stable_text : string) (page_map : list Page.t) (max_chars : option Z)
    (overlap_chars : Z) :
  effective_max_len self_max_chars max_chars <= 0 ->
  0 < paragraph_end (str stable_text) 0 ->
  forall fuel,
    chunk_with_fuel fuel self_max_chars stable_text page_map max_chars
      overlap_chars = None.
Proof.
  intros Hm Hp fuel. unfold chunk_with_fuel. cbv zeta.
  assert (Ho : effective_overlap (effective_max_len self_max_chars max_chars)
                 overlap_chars = 0).
  { unfold effective_overlap. cbv zeta.
    replace (1 <? effective_max_len self_max_chars max_chars) with false
      by (symmetry; apply Z.ltb_ge; lia).
    reflexivity. }
  rewrite Ho. unfold str in Hp.
  assert (Hn : 0 < Z.of_nat (List.length (list_ascii_of_string stable_text))).
  { destruct stable_text as [|c s]; [| simpl; lia].
    vm_compute in Hp. discriminate. }
  destruct fuel as [|fuel]; cbn [text_loop];
    (replace (0 <? Z.of_nat (List.length (list_ascii_of_string stable_text)))
       with true by (symmetry; apply Z.ltb_lt; lia)); [reflexivity |].
  now rewrite paragraph_loop_stuck.
Qed.

Lemma chunk_loops_on_nonpositive_max_chars_witness :
  chunk_with_fuel 1000 1500 "ab" [] (Some (-1)) 0 = None.
Proof.
  apply chunk_loops_on_nonpositive_max_chars.
  - simpl. lia.
  - vm_compute. reflexivity.
Defined.

End PagingFacts.
